(** * hnscan-backend: the index and aggregation engine

    A shallow embedding of the chain-state accumulator ([lib/types.js],
    classes [ChainState] and [ChartData]), of the store-facing class
    [HnscanDB] ([lib/hnscandb.js]: [open], [verifyNetwork], [saveEntry],
    [setChartData], the address queries, [nameHistory]) and of the
    name-history query of [lib/hnscan.js], followed by the properties the
    specification states about them: the round trip of connecting and
    disconnecting blocks, burn accounting, administrative covenants, chart
    bucketing, balances and unspent outputs of an address, the order of a
    name's history, and what opening the store checks and loads.

    Conventions.
    - A JavaScript number that holds a count, a height, a time or an amount
      is an integer of the safe range (the whole supply of the ledger is
      below 2^53): it is a [Z], and [+], [-] and [Math.max] on it are exact.
      The one field that is a real floating-point quantity, the difficulty of
      a chart point, is a binary64 [float] with the IEEE operations.
    - A [Buffer] is the list of its bytes; [toString("hex")] and
      [Buffer.from(_, "hex")] are inverse of each other and a hex string is
      represented by the bytes it spells.
    - A promise that rejects, or a synchronous [throw], is [Throw]; a value a
      call resolves to is [Ok].
    - Objects of the ledger node (blocks, transactions, outputs, covenants,
      the coin view) and the store library are outside the repository; they
      are records and maps with the fields and answers the index reads. *)

From Stdlib Require Import ZArith Floats.PrimFloat Numbers.Cyclic.Int63.Uint63.
From Stdlib Require Import Strings.Ascii.
From stdpp Require Import base option list gmap sorting strings.

Local Open Scope Z_scope.

(** ** Results of fallible calls *)

Inductive result (A : Type) : Type :=
  | Ok (a : A)
  | Throw (msg : string).
Arguments Ok {A} a.
Arguments Throw {A} msg.

Definition bind {A B : Type} (m : result A) (k : A → result B) : result B :=
  match m with
  | Ok a => k a
  | Throw e => Throw e
  end.

Notation "'let*' x ':=' m 'in' k" := (bind m (fun x => k))
  (at level 10, x pattern, m at level 100, k at level 200).

Definition is_Ok {A : Type} (m : result A) : bool :=
  match m with Ok _ => true | Throw _ => false end.

(** [for (const x of xs) { st = body(st, x) }] where the body may throw. *)
Fixpoint forM {A S : Type} (body : S → A → result S) (xs : list A) (st : S)
  : result S :=
  match xs with
  | [] => Ok st
  | x :: rest => let* st' := body st x in forM body rest st'
  end.

(** ** Ledger objects, as far as the index reads them *)

(** A hash, a transaction id, a key prefix: a [Buffer]. *)
Definition Hash : Type := list N.

(** [consensus.ZERO_HASH]: 32 zero bytes. *)
Definition ZERO_HASH : Hash := replicate 32 0%N.

(** Covenant types, [hsd/lib/covenants/rules.js], [rules.types]. *)
Module types.
Definition NONE : Z := 0.
Definition CLAIM : Z := 1.
Definition OPEN : Z := 2.
Definition BID : Z := 3.
Definition REVEAL : Z := 4.
Definition REDEEM : Z := 5.
Definition REGISTER : Z := 6.
Definition UPDATE : Z := 7.
Definition RENEW : Z := 8.
Definition TRANSFER : Z := 9.
Definition FINALIZE : Z := 10.
Definition REVOKE : Z := 11.
End types.

Record Covenant : Type := mkCovenant {
  ctype : Z;
  items : list Hash
}.

(** [covenant.isRegister()]. *)
Definition isRegister (c : Covenant) : bool := ctype c =? types.REGISTER.

(** An output. [unspendable] is what [output.isUnspendable()] answers; the
    indexer only asks, it does not decide. *)
Record Output : Type := mkOutput {
  ovalue : Z;
  oaddress : Hash;
  covenant : Covenant;
  unspendable : bool
}.

Definition isUnspendable (o : Output) : bool := unspendable o.

(** An outpoint [{hash, index}]. *)
Definition Outpoint : Type := Hash * Z.

Record Input : Type := mkInput { prevout : Outpoint }.

Record TX : Type := mkTX {
  txid : Hash;
  inputs : list Input;
  outputs : list Output
}.

Record Block : Type := mkBlock {
  bhash : Hash;
  prevBlock : Hash;
  txs : list TX
}.

(** The coin view handed over with a block: [view.getOutput(prevout)] is the
    output an input spends, or [null]. *)
Definition CoinView : Type := gmap Outpoint Output.

Definition getOutput (view : CoinView) (p : Outpoint) : option Output :=
  view !! p.

(** ** [ChainState] ([lib/types.js]) *)

Record ChainState : Type := mkChainState {
  tip : Hash;
  tx : Z;
  coin : Z;
  value : Z;
  burned : Z;
  committed : bool
}.

Module ChainState_.

(** The constructor. *)
Definition new : ChainState :=
  {| tip := ZERO_HASH; tx := 0; coin := 0; value := 0; burned := 0;
     committed := false |}.

Definition connect (s : ChainState) (block : Block) : ChainState :=
  {| tip := tip s; tx := tx s + Z.of_nat (length (txs block));
     coin := coin s; value := value s; burned := burned s;
     committed := committed s |}.

Definition disconnect (s : ChainState) (block : Block) : ChainState :=
  {| tip := tip s; tx := tx s - Z.of_nat (length (txs block));
     coin := coin s; value := value s; burned := burned s;
     committed := committed s |}.

Definition add (s : ChainState) (c : Output) : ChainState :=
  {| tip := tip s; tx := tx s;
     coin := coin s + 1; value := value s + ovalue c; burned := burned s;
     committed := committed s |}.

Definition spend (s : ChainState) (c : Output) : ChainState :=
  {| tip := tip s; tx := tx s;
     coin := coin s - 1; value := value s - ovalue c; burned := burned s;
     committed := committed s |}.

Definition burn (s : ChainState) (c : Output) : ChainState :=
  {| tip := tip s; tx := tx s;
     coin := coin s + 1; value := value s; burned := burned s + ovalue c;
     committed := committed s |}.

Definition unburn (s : ChainState) (c : Output) : ChainState :=
  {| tip := tip s; tx := tx s;
     coin := coin s - 1; value := value s; burned := burned s - ovalue c;
     committed := committed s |}.

(** [inject(state)], on the object of a fresh constructor: the tip and the
    four totals are copied, [committed] is not. *)
Definition inject (s : ChainState) (from : ChainState) : ChainState :=
  {| tip := tip from; tx := tx from; coin := coin from; value := value from;
     burned := burned from; committed := committed s |}.

(** [clone()], of the structure library: [new this.constructor()] injected
    with [this]. *)
Definition clone (s : ChainState) : ChainState := inject new s.

(** [commit(hash)]: stamps the tip and marks the state committed (the
    encoding it returns is dropped by every caller). *)
Definition commit (s : ChainState) (hash : Hash) : ChainState :=
  {| tip := hash; tx := tx s; coin := coin s; value := value s;
     burned := burned s; committed := true |}.

End ChainState_.

(** ** The fixed-width integers of the buffer library

    A field of a stored record is the unsigned number its bytes hold.
    [bw.writeU32] and [bw.writeU64] keep the low 32 and 64 bits of the number
    (of its two's complement, when it is negative) and do not throw;
    [br.readU32] gives the number back; [br.readU64] refuses every number
    above 2^53 - 1. *)
Definition writeU32 (num : Z) : Z := num mod 2 ^ 32.
Definition readU32 (raw : Z) : Z := raw.
Definition writeU64 (num : Z) : Z := num mod 2 ^ 64.
Definition readU64 (raw : Z) : result Z :=
  if raw <? 2 ^ 53 then Ok raw
  else Throw "EncodingError: Number exceeds 2^53-1".

(** What [write] puts in the store and [read] takes back: the tip and the
    four totals, each in 8 bytes. [committed] is not stored. *)
Record RawState : Type := mkRawState {
  rtip : Hash;
  rtx : Z;
  rcoin : Z;
  rvalue : Z;
  rburned : Z
}.

Definition encodeState (s : ChainState) : RawState :=
  {| rtip := tip s; rtx := writeU64 (tx s); rcoin := writeU64 (coin s);
     rvalue := writeU64 (value s); rburned := writeU64 (burned s) |}.

(** [ChainState.decode(data)]: [new this().read(br)]. *)
Definition decodeState (r : RawState) : result ChainState :=
  let* tx_ := readU64 (rtx r) in
  let* coin_ := readU64 (rcoin r) in
  let* value_ := readU64 (rvalue r) in
  let* burned_ := readU64 (rburned r) in
  Ok {| tip := rtip r; tx := tx_; coin := coin_; value := value_;
        burned := burned_; committed := committed ChainState_.new |}.

(** ** Chart points ([lib/types.js], class [ChartData]) *)

Record ChartData : Type := mkChartData {
  time : Z;
  difficulty : float;
  transactions : Z;
  supply : Z;
  cburned : Z;
  totalTx : Z
}.

(** What [ChartData.write] stores: every field but [time], which lives in
    the key; the difficulty as a double, the transactions in 4 bytes, the
    other three in 8 bytes each. *)
Record RawChart : Type := mkRawChart {
  rdifficulty : float;
  rtransactions : Z;
  rsupply : Z;
  rcburned : Z;
  rtotalTx : Z
}.

Definition encodeChart (c : ChartData) : RawChart :=
  {| rdifficulty := difficulty c;
     rtransactions := writeU32 (transactions c);
     rsupply := writeU64 (supply c); rcburned := writeU64 (cburned c);
     rtotalTx := writeU64 (totalTx c) |}.

(** [ChartData.decode]: [read] sets [time] to 0. *)
Definition decodeChart (r : RawChart) : result ChartData :=
  let transactions_ := readU32 (rtransactions r) in
  let* supply_ := readU64 (rsupply r) in
  let* burned_ := readU64 (rcburned r) in
  let* totalTx_ := readU64 (rtotalTx r) in
  Ok {| time := 0; difficulty := rdifficulty r;
        transactions := transactions_; supply := supply_;
        cburned := burned_; totalTx := totalTx_ |}.

(** ** The store

    One field per key family of [layout]; the letters are the ones the code
    uses ([db_o] is what lives under [layout.o]). [V] is the version record
    [db.verify] maintains, [O] the network magic, [H] the height, [s] the
    chain-state slot, [h] headers by height, [o] funding by address
    ([addressHash, txid] to height), [i] the spend pointer ([8-byte txid
    prefix, output index] to spending txid), [t] the height of a spending
    transaction, [n] name history ([nameHash, txid] to height), [d] the
    daily chart records by time. *)
Record DB : Type := mkDB {
  db_V : option (string * Z);
  db_O : option Z;
  db_H : option Z;
  db_s : option RawState;
  db_h : gmap Z (list N);
  db_o : gmap (Hash * Hash) Z;
  db_i : gmap (list N * Z) Hash;
  db_t : gmap Hash Z;
  db_n : gmap (Hash * Hash) Z;
  db_d : gmap Z RawChart
}.

Definition emptyDB : DB :=
  {| db_V := None; db_O := None; db_H := None; db_s := None; db_h := ∅;
     db_o := ∅; db_i := ∅; db_t := ∅; db_n := ∅; db_d := ∅ |}.

Definition set_V (st : DB) (v : option (string * Z)) : DB :=
  {| db_V := v; db_O := db_O st; db_H := db_H st; db_s := db_s st;
     db_h := db_h st; db_o := db_o st; db_i := db_i st; db_t := db_t st;
     db_n := db_n st; db_d := db_d st |}.

Definition set_O (st : DB) (v : option Z) : DB :=
  {| db_V := db_V st; db_O := v; db_H := db_H st; db_s := db_s st;
     db_h := db_h st; db_o := db_o st; db_i := db_i st; db_t := db_t st;
     db_n := db_n st; db_d := db_d st |}.

Definition set_s (st : DB) (v : option RawState) : DB :=
  {| db_V := db_V st; db_O := db_O st; db_H := db_H st; db_s := v;
     db_h := db_h st; db_o := db_o st; db_i := db_i st; db_t := db_t st;
     db_n := db_n st; db_d := db_d st |}.

Definition put_d (st : DB) (k : Z) (v : RawChart) : DB :=
  {| db_V := db_V st; db_O := db_O st; db_H := db_H st; db_s := db_s st;
     db_h := db_h st; db_o := db_o st; db_i := db_i st; db_t := db_t st;
     db_n := db_n st; db_d := <[k := v]> (db_d st) |}.

(** ** [HnscanDB] ([lib/hnscandb.js]) *)

Record HnscanDB : Type := mkHnscanDB {
  network_magic : Z;
  client : gmap Hash TX;
  db : DB;
  state : ChainState;
  pending : option ChainState;
  chartDataCurrentDate : Z;
  chartDataCurrent : list ChartData
}.

(** The constructor, over the configured network, the chain client (of which
    the index uses [getTX]) and the store. *)
Definition newHnscanDB (magic : Z) (chain : gmap Hash TX) (store : DB)
  : HnscanDB :=
  {| network_magic := magic; client := chain; db := store;
     state := ChainState_.new; pending := Some ChainState_.new;
     chartDataCurrentDate := 0; chartDataCurrent := [] |}.

Definition set_state (hdb : HnscanDB) (st : ChainState)
  (p : option ChainState) : HnscanDB :=
  {| network_magic := network_magic hdb; client := client hdb; db := db hdb;
     state := st; pending := p;
     chartDataCurrentDate := chartDataCurrentDate hdb;
     chartDataCurrent := chartDataCurrent hdb |}.

Definition set_db (hdb : HnscanDB) (store : DB) : HnscanDB :=
  {| network_magic := network_magic hdb; client := client hdb; db := store;
     state := state hdb; pending := pending hdb;
     chartDataCurrentDate := chartDataCurrentDate hdb;
     chartDataCurrent := chartDataCurrent hdb |}.

(** *** [saveEntry]: a block is connected *)

(** The body of the loop over the outputs of a transaction. *)
Definition connectOutput (st : ChainState) (output : Output) : ChainState :=
  if isUnspendable output then st
  else if isRegister (covenant output) then ChainState_.burn st output
  else if (types.UPDATE <=? ctype (covenant output))
          && (ctype (covenant output) <=? types.REVOKE)
       then st
  else ChainState_.add st output.

Definition connectOutputs (st : ChainState) (outs : list Output) : ChainState :=
  fold_left connectOutput outs st.

(** [this.pending.spend(view.getOutput(prevout))]: a prevout the view does
    not hold is [null], and reading its value throws. *)
Definition spendInput (view : CoinView) (st : ChainState) (input : Input)
  : result ChainState :=
  match getOutput view (prevout input) with
  | Some c => Ok (ChainState_.spend st c)
  | None => Throw "TypeError: Cannot read property 'value' of null"
  end.

(** The loop over [block.txs], from index [idx] on: the inputs of every
    transaction but the first are spent, then its outputs are counted. *)
Fixpoint connectTXs (view : CoinView) (idx : nat) (l : list TX)
  (st : ChainState) : result ChainState :=
  match l with
  | [] => Ok st
  | tx :: rest =>
      let* st1 := (if (0 <? idx)%nat
                   then forM (spendInput view) (inputs tx) st
                   else Ok st) in
      connectTXs view (S idx) rest (connectOutputs st1 (outputs tx))
  end.

(** The chain state [saveEntry] computes from the live one. *)
Definition connectBlock (st : ChainState) (block : Block) (view : CoinView)
  : result ChainState :=
  let pending := ChainState_.clone st in
  let pending := ChainState_.connect pending block in
  let* pending := connectTXs view 0 (txs block) pending in
  Ok (ChainState_.commit pending (bhash block)).

(** [saveEntry(entry, block, view)]; the entry is not read. The clone is
    [this.pending] while the block is gone through; it becomes [this.state]
    when the loop has ended, and [this.pending] is then [null]. *)
Definition saveEntry (hdb : HnscanDB) (block : Block) (view : CoinView)
  : result HnscanDB :=
  let* pending := connectBlock (state hdb) block view in
  Ok (set_state hdb pending None).

(** *** A block is disconnected *)

(** Modelled from the spec: the block-level disconnect. The handler of the
    ledger's disconnect notification belongs to [lib/indexer.js], which is
    not among the sources, and [HnscanDB] has no counterpart of [saveEntry]
    for it. The specification asks for "the exact symmetric inverse
    (unburn, unspend reversing add/spend), decrementing tx count", which
    concludes "by stamping the new tip hash"; it is written here with the
    methods [ChainState] has: [spend] takes back what [add] counted, [add]
    what [spend] removed, [unburn] what [burn] burned, last action first.
    The tip stamped is the parent of the block that goes away. *)
Definition disconnectOutput (st : ChainState) (output : Output) : ChainState :=
  if isUnspendable output then st
  else if isRegister (covenant output) then ChainState_.unburn st output
  else if (types.UPDATE <=? ctype (covenant output))
          && (ctype (covenant output) <=? types.REVOKE)
       then st
  else ChainState_.spend st output.

(** Modelled from the spec: the outputs of a transaction, undone from the
    last to the first. *)
Definition disconnectOutputs (st : ChainState) (outs : list Output)
  : ChainState :=
  fold_left disconnectOutput (rev outs) st.

(** Modelled from the spec: "unspend", the coin an input had spent is
    counted again; as in [saveEntry], a prevout the view does not hold is
    fatal. *)
Definition unspendInput (view : CoinView) (st : ChainState) (input : Input)
  : result ChainState :=
  match getOutput view (prevout input) with
  | Some c => Ok (ChainState_.add st c)
  | None => Throw "TypeError: Cannot read property 'value' of null"
  end.

(** Modelled from the spec: the transactions of the block, undone from the
    last to the first; the first has no input to give back. *)
Fixpoint disconnectTXs (view : CoinView) (idx : nat) (l : list TX)
  (st : ChainState) : result ChainState :=
  match l with
  | [] => Ok st
  | tx :: rest =>
      let* st1 := disconnectTXs view (S idx) rest st in
      let st2 := disconnectOutputs st1 (outputs tx) in
      if (0 <? idx)%nat
      then forM (unspendInput view) (rev (inputs tx)) st2
      else Ok st2
  end.

(** Modelled from the spec: the chain state after the block is taken back,
    from a clone of the live one as in [saveEntry]. *)
Definition disconnectBlock (st : ChainState) (block : Block) (view : CoinView)
  : result ChainState :=
  let pending := ChainState_.clone st in
  let pending := ChainState_.disconnect pending block in
  let* pending := disconnectTXs view 0 (txs block) pending in
  Ok (ChainState_.commit pending (prevBlock block)).

(** Modelled from the spec: the counterpart of [saveEntry] for a block that
    is disconnected. *)
Definition removeEntry (hdb : HnscanDB) (block : Block) (view : CoinView)
  : result HnscanDB :=
  let* pending := disconnectBlock (state hdb) block view in
  Ok (set_state hdb pending None).

(** Blocks arrive with their views, one after the other. *)
Definition connectAll (hdb : HnscanDB) (bs : list (Block * CoinView))
  : result HnscanDB :=
  forM (fun hd bv => saveEntry hd (fst bv) (snd bv)) bs hdb.

Definition disconnectAll (hdb : HnscanDB) (bs : list (Block * CoinView))
  : result HnscanDB :=
  forM (fun hd bv => removeEntry hd (fst bv) (snd bv)) bs hdb.

(** A sequence of blocks that extends the tip [h0]: each names its
    predecessor. *)
Fixpoint chained (h0 : Hash) (bs : list (Block * CoinView)) : Prop :=
  match bs with
  | [] => True
  | bv :: rest => prevBlock (fst bv) = h0 ∧ chained (bhash (fst bv)) rest
  end.

(** The sequence extends the tip [h0]: its first block names [h0] as its
    parent. *)
Definition extends (h0 : Hash) (bs : list (Block * CoinView)) : Prop :=
  match bs with
  | [] => True
  | bv :: _ => prevBlock (fst bv) = h0
  end.

(** Two chain states with the same four totals. *)
Definition sameTotals (s1 s2 : ChainState) : Prop :=
  tx s1 = tx s2 ∧ coin s1 = coin s2 ∧ value s1 = value s2
  ∧ burned s1 = burned s2.

(** Every input [saveEntry] looks up is in the view of its block. *)
Definition resolvesTX (view : CoinView) (tx : TX) : Prop :=
  Forall (fun input => is_Some (getOutput view (prevout input))) (inputs tx).

Definition resolves (view : CoinView) (block : Block) : Prop :=
  Forall (resolvesTX view) (tail (txs block)).

(** *** The chart aggregator *)

(** [Math.floor(time / (3600 * 24))]. *)
Definition dayOf (time : Z) : Z := time / (3600 * 24).

(** [x || 0] on a double: 0, -0 and NaN are falsy. *)
Definition orZero (x : float) : float :=
  if (PrimFloat.eqb x 0%float || negb (PrimFloat.eqb x x))%bool
  then 0%float else x.

(** An array length as a double. *)
Definition lengthF {A : Type} (l : list A) : float :=
  PrimFloat.of_uint63 (Uint63.of_Z (Z.of_nat (length l))).

(** [array.reduce(f)] with no initial value: the first element starts the
    accumulation, an empty array throws. *)
Definition reduce {A : Type} (f : A → A → A) (l : list A) : result A :=
  match l with
  | [] => Throw "TypeError: Reduce of empty array with no initial value"
  | x :: rest => Ok (fold_left f rest x)
  end.

Module ChartData_.

(** The callback of the reduction in [fromArray]. The object it builds has
    no [time]; [fromArray] assigns one before it reads it, so the field
    carried here is never looked at. *)
Definition combine (a b : ChartData) : ChartData :=
  {| time := time a;
     difficulty := PrimFloat.add (difficulty a) (difficulty b);
     transactions := transactions a + transactions b;
     supply := Z.max (supply a) (supply b);
     cburned := Z.max (cburned a) (cburned b);
     totalTx := Z.max (totalTx a) (totalTx b) |}.

(** [fromObject]: an integer field is unchanged by [|| 0]. *)
Definition fromObject (data : ChartData) : ChartData :=
  {| time := time data;
     difficulty := orZero (difficulty data);
     transactions := transactions data;
     supply := supply data;
     cburned := cburned data;
     totalTx := totalTx data |}.

Definition fromArray (data : list ChartData) : result ChartData :=
  let* sums := reduce combine data in
  let sums1 :=
    {| time := dayOf (time (default sums (head data)));
       difficulty := PrimFloat.div (difficulty sums) (lengthF data);
       transactions := transactions sums;
       supply := supply sums;
       cburned := cburned sums;
       totalTx := totalTx sums |} in
  Ok (fromObject sums1).

End ChartData_.

Definition set_chart (hdb : HnscanDB) (store : DB) (date : Z)
  (buf : list ChartData) : HnscanDB :=
  {| network_magic := network_magic hdb; client := client hdb; db := store;
     state := state hdb; pending := pending hdb;
     chartDataCurrentDate := date;
     chartDataCurrent := buf |}.

Definition setChartData (hdb : HnscanDB) (data : ChartData) : result HnscanDB :=
  let date := dayOf (time data) in
  if chartDataCurrentDate hdb =? 0 then
    (* initialization; control then reaches the push that ends the method *)
    let buf := chartDataCurrent hdb ++ [data] in
    Ok (set_chart hdb (db hdb) date (buf ++ [data]))
  else if date >? chartDataCurrentDate hdb then
    let* avg := ChartData_.fromArray (chartDataCurrent hdb) in
    let store := put_d (db hdb) (date * 3600 * 24) (encodeChart avg) in
    Ok (set_chart hdb store date ([] ++ [data]))
  else
    Ok (set_chart hdb (db hdb) (chartDataCurrentDate hdb)
          (chartDataCurrent hdb ++ [data])).

(** The points observed one after the other. *)
Definition observeAll (hdb : HnscanDB) (points : list ChartData)
  : result HnscanDB :=
  forM setChartData points hdb.

(** *** Opening the store *)

(** [fromU32] and [toU32]: a 4-byte little-endian buffer is represented by
    the number it holds. [data.writeUInt32LE(num, 0, true)] throws a
    [RangeError] on a number that does not fit (the third argument, which
    once turned the check off, is ignored by the engine). *)
Definition fromU32 (num : Z) : result Z :=
  if (0 <=? num) && (num <? 2 ^ 32) then Ok num
  else Throw "RangeError [ERR_OUT_OF_RANGE]".
Definition toU32 (buf : Z) : Z := buf.

(** [db.verify(key, name, version)] of the store library: a store that has
    no version record gets one, a store that has another one is refused. *)
Definition db_verify (store : DB) (name : string) (version : Z) : result DB :=
  match db_V store with
  | None => Ok (set_V store (Some (name, version)))
  | Some (nm, v) =>
      if (bool_decide (nm = name) && (v =? version))%bool
      then Ok store
      else Throw "Error: database version mismatch"
  end.

Definition getState (hdb : HnscanDB) : result (option ChainState) :=
  match db_s (db hdb) with
  | None => Ok None
  | Some data =>
      let* st := decodeState data in
      Ok (Some st)
  end.

Definition open (hdb : HnscanDB) : result HnscanDB :=
  let* store := db_verify (db hdb) "hnscan" 0 in
  let hdb1 := set_db hdb store in
  let* loaded := getState hdb1 in
  match loaded with
  | Some st => Ok (set_state hdb1 st (pending hdb1))
  | None => Ok hdb1
  end.

Definition verifyNetwork (hdb : HnscanDB) : result HnscanDB :=
  match db_O (db hdb) with
  | None =>
      let* data := fromU32 (network_magic hdb) in
      Ok (set_db hdb (set_O (db hdb) (Some data)))
  | Some raw =>
      let magic := toU32 raw in
      if negb (magic =? network_magic hdb)
      then Throw "Error: Network mismatch for HnscanDB."
      else Ok hdb
  end.

Definition saveState (hdb : HnscanDB) : HnscanDB :=
  set_db hdb (set_s (db hdb) (Some (encodeState (state hdb)))).

(** *** The address index *)

(** Keys are compared as byte strings. *)
Fixpoint bytes_leb (a b : list N) : bool :=
  match a, b with
  | [], _ => true
  | _ :: _, [] => false
  | x :: a', y :: b' =>
      if (x <? y)%N then true
      else if (y <? x)%N then false
      else bytes_leb a' b'
  end.

Definition key_le {B : Type} (a b : Hash * B) : Prop :=
  bytes_leb (fst a) (fst b) = true.

Global Instance key_le_dec {B : Type} : RelDecision (@key_le B).
Proof. intros a b. unfold key_le. apply _. Defined.

(** [db.iterator({gte: min(hash), lte: max(hash)})] over a family keyed by
    two hashes: the entries whose first hash is [hash], by ascending key,
    each as the second hash of its key and its value. *)
Definition iterate (m : gmap (Hash * Hash) Z) (hash : Hash)
  : list (Hash * Z) :=
  merge_sort key_le
    (omap (fun kv => if decide (fst (fst kv) = hash)
                     then Some (snd (fst kv), snd kv) else None)
          (map_to_list m)).

(** An element of the list [_addressFunding] builds. [output_index] and
    [value] are [undefined] when no output of the transaction pays the
    address. *)
Record Funding : Type := mkFunding {
  f_tx_hash : Hash;
  f_height : Z;
  f_output_index : option Z;
  f_value : option Z
}.

Record Spent : Type := mkSpent {
  s_tx_hash : Hash;
  s_height : Z;
  s_funding_output : Hash * option Z;
  s_value : option Z
}.

(** The loop over [newtx.outputs], from index [idx] on: the first output
    that pays [userHash]. *)
Fixpoint findOutput (userHash : Hash) (outs : list Output) (idx : Z)
  : option (Z * Z) :=
  match outs with
  | [] => None
  | out :: rest =>
      if decide (userHash = oaddress out) then Some (idx, ovalue out)
      else findOutput userHash rest (idx + 1)
  end.

(** The callback of [iter.each] in [_addressFunding]. *)
Definition fundingOf (hdb : HnscanDB) (userHash : Hash) (kv : Hash * Z)
  : result Funding :=
  match client hdb !! fst kv with
  | None => Throw "TypeError: Cannot read property 'outputs' of null"
  | Some newtx =>
      let found := findOutput userHash (outputs newtx) 0 in
      Ok {| f_tx_hash := fst kv;
            f_height := toU32 (snd kv);
            f_output_index := fst <$> found;
            f_value := snd <$> found |}
  end.

Fixpoint mapM {A B : Type} (f : A → result B) (l : list A) : result (list B) :=
  match l with
  | [] => Ok []
  | x :: rest =>
      let* y := f x in
      let* ys := mapM f rest in
      Ok (y :: ys)
  end.

Definition _addressFunding (hdb : HnscanDB) (addr : Hash)
  : result (list Funding) :=
  mapM (fundingOf hdb addr) (iterate (db_o (db hdb)) addr).

Definition _addressFundingUnconfirmed (hdb : HnscanDB) (addr : Hash)
  : list Funding := [].

(** [addressFunding] catches what [_addressFunding] throws and then returns
    [undefined]. *)
Definition addressFunding (hdb : HnscanDB) (addr : Hash)
  : option (list Funding * list Funding) :=
  match _addressFunding hdb addr with
  | Ok confirmed => Some (confirmed, _addressFundingUnconfirmed hdb addr)
  | Throw _ => None
  end.

(** Modelled from the spec: the key of the spend pointer, [layout.i] (the
    file [lib/layout.js] is not among the sources), is "truncatedTxid ‖
    outputIndex" with a fixed-width integer: an index that is [undefined]
    has no encoding, and asking for one throws. *)
Definition layout_i_encode (txPrefix : list N) (index : option Z)
  : result (list N * Z) :=
  match index with
  | Some idx => Ok (txPrefix, idx)
  | None => Throw "TypeError: index is not a number"
  end.

(** The body of the loop of [_addressSpent]: the spent record of a funding
    record, when the store has a spend pointer for it. *)
Definition spentOf (hdb : HnscanDB) (fo : Funding) : result (option Spent) :=
  let txPrefix := take 8 (f_tx_hash fo) in
  let* key := layout_i_encode txPrefix (f_output_index fo) in
  match db_i (db hdb) !! key with
  | None => Ok None
  | Some txHashX =>
      match db_t (db hdb) !! txHashX with
      | None => Throw "TypeError: Cannot read property 'readUInt32LE' of null"
      | Some raw =>
          Ok (Some {| s_tx_hash := txHashX;
                      s_height := toU32 raw;
                      s_funding_output := (f_tx_hash fo, f_output_index fo);
                      s_value := f_value fo |})
      end
  end.

Definition _addressSpent (hdb : HnscanDB) (funding : list Funding)
  : result (list Spent) :=
  let* found := mapM (spentOf hdb) funding in
  Ok (omap id found).

Definition _addressSpentUnconfirmed (hdb : HnscanDB) (funding : list Funding)
  : list Spent := [].

Definition addressSpent (hdb : HnscanDB) (funding : list Funding)
  : result (list Spent * list Spent) :=
  let* confirmed := _addressSpent hdb funding in
  Ok (confirmed, _addressSpentUnconfirmed hdb funding).

(** [let [a, b] = await this.addressFunding(addr)]: destructuring
    [undefined] throws. *)
Definition destructure {A : Type} (r : option A) : result A :=
  match r with
  | Some a => Ok a
  | None => Throw "TypeError: undefined is not iterable"
  end.

(** A number that may be [NaN]: adding [undefined] to a number gives [NaN],
    and [NaN] stays. *)
Definition jsnum : Type := option Z.

Definition jsadd (a b : jsnum) : jsnum :=
  match a, b with Some x, Some y => Some (x + y) | _, _ => None end.

Definition jssub (a b : jsnum) : jsnum :=
  match a, b with Some x, Some y => Some (x - y) | _, _ => None end.

Record Balance : Type := mkBalance {
  confirmed : jsnum;
  unconfirmed : jsnum;
  received : jsnum;
  spent : jsnum
}.

Definition addressBalance (hdb : HnscanDB) (addr : Hash) : result Balance :=
  let* fs := destructure (addressFunding hdb addr) in
  let fConfirmed := fst fs in
  let* ss := addressSpent hdb fConfirmed in
  let sConfirmed := fst ss in
  let totalFunded :=
    fold_left (fun total f => jsadd total (f_value f)) fConfirmed (Some 0) in
  let totalSpent :=
    fold_left (fun total sp => jsadd total (s_value sp)) sConfirmed (Some 0) in
  Ok {| confirmed := jssub totalFunded totalSpent;
        unconfirmed := jssub totalFunded totalSpent;
        received := totalFunded;
        spent := totalSpent |}.

Record Unspent : Type := mkUnspent {
  u_tx_hash : Hash;
  u_height : Z;
  u_tx_pos : option Z;
  u_value : option Z
}.

Definition toUnspent (f : Funding) : Unspent :=
  {| u_tx_hash := f_tx_hash f; u_height := f_height f;
     u_tx_pos := f_output_index f; u_value := f_value f |}.

Definition addressUnspent (hdb : HnscanDB) (addr : Hash)
  : result (list Unspent) :=
  let* fs := destructure (addressFunding hdb addr) in
  let fConfirmed := fst fs in
  let* ss := addressSpent hdb fConfirmed in
  let sConfirmed := fst ss in
  let txs := map toUnspent fConfirmed in
  Ok (fold_left
        (fun txs sp =>
           filter (fun tx => u_tx_hash tx ≠ fst (s_funding_output sp)) txs)
        sConfirmed txs).

(** *** Name history *)

Record Auction : Type := mkAuction {
  a_tx_hash : Hash;
  a_height : Z
}.

(** [HnscanDB.nameHistory]: the records of a name, in key order. *)
Definition nameHistory (hdb : HnscanDB) (nameHash : Hash) : list Auction :=
  map (fun kv => {| a_tx_hash := fst kv; a_height := toU32 (snd kv) |})
      (iterate (db_n (db hdb)) nameHash).

(** ** [Array.prototype.sort]

    The sort of the engine the plugin runs on (V8, as Node.js has it since
    version 11), for an array shorter than 64 elements: the leading run is
    found and, when it descends, reversed; the elements after it are put in
    place by binary insertion. Longer arrays are in addition cut into runs
    that are merged, which is not followed here. The comparison function is
    only ever asked whether its result is negative. *)
Section ArraySort.
Context {A : Type} (comparefn : A → A → Z).

(** The loop of [CountAndMakeRun]: how many more elements continue the run
    that [prev] ends. *)
Fixpoint runMore (isDescending : bool) (prev : A) (l : list A) : nat :=
  match l with
  | [] => 0%nat
  | cur :: rest =>
      let order := comparefn cur prev in
      if (if isDescending then order <? 0 else 0 <=? order)
      then S (runMore isDescending cur rest)
      else 0%nat
  end.

(** [CountAndMakeRun]: the leading run, made ascending for the comparison,
    and what follows it. *)
Definition countAndMakeRun (l : list A) : list A * list A :=
  match l with
  | lo :: hi :: rest =>
      let isDescending := comparefn hi lo <? 0 in
      let k := runMore isDescending hi rest in
      let run := lo :: hi :: take k rest in
      (if isDescending then reverse run else run, drop k rest)
  | _ => (l, [])
  end.

(** The binary search of [BinaryInsertionSort] for [pivot] in
    [work[left..right)]; the interval shrinks at every turn, [fuel] turns
    are allowed. *)
Fixpoint search (fuel : nat) (pivot : A) (work : list A)
  (left right : nat) : nat :=
  match fuel with
  | O => left
  | S fuel' =>
      if (left <? right)%nat then
        let mid := (left + (right - left) / 2)%nat in
        match work !! mid with
        | Some x =>
            if comparefn pivot x <? 0
            then search fuel' pivot work left mid
            else search fuel' pivot work (S mid) right
        | None => left
        end
      else left
  end.

Definition insertPivot (work : list A) (pivot : A) : list A :=
  let left := search (length work) pivot work 0 (length work) in
  take left work ++ pivot :: drop left work.

Definition binaryInsertionSort (run rest : list A) : list A :=
  fold_left insertPivot rest run.

Definition Array_sort (l : list A) : list A :=
  if (length l <? 2)%nat then l
  else let rr := countAndMakeRun l in
       binaryInsertionSort (fst rr) (snd rr).
End ArraySort.

(** [array.slice(offset, offset + limit)] *)
Definition slice {A : Type} (l : list A) (offset limit : nat) : list A :=
  take limit (drop offset l).

(** ** [Hnscan] ([lib/hnscan.js]) *)

(** What [getTransaction] resolves to, as far as [getNameHistory] reads it. *)
Record TXJSON : Type := mkTXJSON {
  mtime : Z;
  j_outputs : list Output
}.

Record Hnscan : Type := mkHnscan {
  hdb_ : HnscanDB;
  node : gmap Hash TXJSON
}.

Definition getTransaction (hs : Hnscan) (hash : Hash) : option TXJSON :=
  node hs !! hash.

Record History : Type := mkHistory {
  action : option string;
  h_value : option Z;
  h_time : Z;
  h_height : Z;
  h_txid : Hash;
  h_index : Z
}.

(** [cov.isName()] *)
Definition isName (c : Covenant) : bool :=
  negb (ctype c <? types.CLAIM) && negb (types.REVOKE <? ctype c).

(** The action and value [getNameHistory] gives an output of a name. *)
Definition actionOf (out : Output) : option string * option Z :=
  let ty := ctype (covenant out) in
  if ty =? types.OPEN then (Some "Opened", None)
  else if ty =? types.BID then (Some "Bid", Some (ovalue out))
  else if ty =? types.REVEAL then (Some "Reveal", Some (ovalue out))
  else if ty =? types.REGISTER then (Some "Register", None)
  else if ty =? types.REDEEM then (Some "Redeem", Some (ovalue out))
  else if ty =? types.UPDATE then (Some "Update", None)
  else if ty =? types.RENEW then (Some "Renew", None)
  else (None, None).

(** The loop over [tx.outputs], from index [j] on. [cov.get(0)] asserts that
    the covenant has an item. *)
Fixpoint historyOfOutputs (nameHash : Hash) (tx : TXJSON) (rec : Auction)
  (outs : list Output) (j : Z) : result (list History) :=
  match outs with
  | [] => Ok []
  | out :: rest =>
      let* here :=
        (if isName (covenant out) then
           match items (covenant out) !! 0%nat with
           | None => Throw "AssertionError"
           | Some item =>
               if decide (item = nameHash) then
                 Ok [ {| action := fst (actionOf out);
                         h_value := snd (actionOf out);
                         h_time := mtime tx;
                         h_height := a_height rec;
                         h_txid := a_tx_hash rec;
                         h_index := j |} ]
               else Ok []
           end
         else Ok []) in
      let* more := historyOfOutputs nameHash tx rec rest (j + 1) in
      Ok (here ++ more)
  end.

Definition historyOf (hs : Hnscan) (nameHash : Hash) (rec : Auction)
  : result (list History) :=
  match getTransaction hs (a_tx_hash rec) with
  | None => Throw "TypeError: Cannot read property 'outputs' of undefined"
  | Some tx => historyOfOutputs nameHash tx rec (j_outputs tx) 0
  end.

(** The comparison function of [getNameHistory]. *)
Definition byHeight (a b : Auction) : Z :=
  if a_height a <? a_height b then 1 else -1.

(** The list [getNameHistory] pages through: every record of the name,
    sorted. *)
Definition entireList (hs : Hnscan) (nameHash : Hash) : list Auction :=
  Array_sort byHeight (nameHistory (hdb_ hs) nameHash).

(** [getNameHistory], from the hash of the name on. *)
Definition getNameHistory (hs : Hnscan) (nameHash : Hash)
  (offset limit : nat) : result (list History * nat) :=
  let sorted := entireList hs nameHash in
  let total := length sorted in
  let page := slice sorted offset limit in
  let* history := mapM (historyOf hs nameHash) page in
  Ok (concat history, total).

(** [util.sortTXs] ([lib/util.js]), the sort of the HTTP routes. *)
Definition sortTXs (txs_ : list Auction) : list Auction :=
  Array_sort (fun a b => a_height b - a_height a) txs_.

(** ** Notions the statements below are written with *)

(** The steps over outputs and inputs touch the coin count and the two
    values only: they commute with any change of the tip, of the transaction
    count and of the committed mark. *)
Definition retag (hsh : Hash) (dtx : Z) (cm : bool) (st : ChainState)
  : ChainState :=
  {| tip := hsh; tx := tx st + dtx; coin := coin st; value := value st;
     burned := burned st; committed := cm |}.

(** The administrative range of covenant types, update through revoke. *)
Definition inAdminRange (out : Output) : bool :=
  (types.UPDATE <=? ctype (covenant out))
  && (ctype (covenant out) <=? types.REVOKE).

Definition sumZ (l : list Z) : Z := fold_right Z.add 0 l.

(** The outputs of a block that are burned: spendable and a register. *)
Definition isBurn (out : Output) : bool :=
  negb (isUnspendable out) && isRegister (covenant out).

(** The outputs of a block that enter circulation: spendable, not a register
    and not in the administrative range. *)
Definition isCoin (out : Output) : bool :=
  negb (isUnspendable out) && negb (isRegister (covenant out))
  && negb (inAdminRange out).

Definition allOutputs (b : Block) : list Output :=
  concat (map outputs (txs b)).

Definition burnedIn (b : Block) : Z :=
  sumZ (map ovalue (filter (fun out => isBurn out = true) (allOutputs b))).

Definition addedIn (b : Block) : Z :=
  sumZ (map ovalue (filter (fun out => isCoin out = true) (allOutputs b))).

(** The inputs [saveEntry] spends: those of every transaction but the
    first. *)
Definition spentInputs (b : Block) : list Input :=
  concat (map inputs (tail (txs b))).

Definition spentIn (view : CoinView) (b : Block) : Z :=
  sumZ (map (fun input => from_option ovalue 0 (getOutput view (prevout input)))
            (spentInputs b)).


(** What one output adds to the burned value and to the circulating value,
    and what one input takes from the latter. *)
Definition burnOf (out : Output) : Z := if isBurn out then ovalue out else 0.
Definition coinOf (out : Output) : Z := if isCoin out then ovalue out else 0.

Definition spentOf_ (view : CoinView) (input : Input) : Z :=
  from_option ovalue 0 (getOutput view (prevout input)).

(** A block without the outputs that [drop] selects. *)
Definition withoutOutputs (drop : Output → bool) (b : Block) : Block :=
  {| bhash := bhash b; prevBlock := prevBlock b;
     txs := map (fun t => {| txid := txid t; inputs := inputs t;
                             outputs := filter (fun out => drop out = false)
                                               (outputs t) |})
                (txs b) |}.

(** The aggregates of a buffer of chart points, as the specification names
    them. The mean of the difficulties is taken in floating point, the sum
    from the first point on, then one division by the number of points. *)
Definition meanDifficulty (buf : list ChartData) : float :=
  match buf with
  | [] => PrimFloat.nan
  | p :: rest =>
      PrimFloat.div
        (fold_left PrimFloat.add (map difficulty rest) (difficulty p))
        (lengthF buf)
  end.

(** [m] is the largest value [f] takes on the points of [buf]. *)
Definition isMaxOf (f : ChartData → Z) (buf : list ChartData) (m : Z) : Prop :=
  Forall (fun p => f p <= m) buf ∧ Exists (fun p => f p = m) buf.

(** The flush as the specification describes it, for the call that takes
    [hdb] to [hdb'] on the point [data]: one record, under the day of the
    bucket that closes, with the mean difficulty and the maximum of every
    other field over the buffered points; the buffer then holds [data]
    alone. *)
Definition flushAsSpecified (hdb hdb' : HnscanDB) (data : ChartData) : Prop :=
  ∃ rec : RawChart,
    db_d (db hdb')
    = <[chartDataCurrentDate hdb * 86400 := rec]> (db_d (db hdb))
    ∧ rdifficulty rec = meanDifficulty (chartDataCurrent hdb)
    ∧ isMaxOf transactions (chartDataCurrent hdb) (rtransactions rec)
    ∧ isMaxOf supply (chartDataCurrent hdb) (rsupply rec)
    ∧ isMaxOf cburned (chartDataCurrent hdb) (rcburned rec)
    ∧ isMaxOf totalTx (chartDataCurrent hdb) (rtotalTx rec)
    ∧ chartDataCurrent hdb' = [data].

(** The index of an address agrees with the ledger: every transaction it
    lists is known to the chain client and has an output that pays the
    address, and every spend pointer leads to a transaction whose height is
    stored. *)
Definition resolvesFunding (hdb : HnscanDB) (addr : Hash) : bool :=
  forallb (fun kv : Hash * Z =>
             match client hdb !! fst kv with
             | Some newtx =>
                 bool_decide (is_Some (findOutput addr (outputs newtx) 0))
             | None => false
             end)
          (iterate (db_o (db hdb)) addr).

Definition resolvesPointers (hdb : HnscanDB) : bool :=
  forallb (fun kv : (list N * Z) * Hash =>
             bool_decide (is_Some (db_t (db hdb) !! snd kv)))
          (map_to_list (db_i (db hdb))).

(** A funding record is resolved: both its output index and its value are
    known. *)
Definition resolved (f : Funding) : Prop :=
  is_Some (f_output_index f) ∧ is_Some (f_value f).

(** A funding record made from the ledger: the transaction is known to the
    chain client, and the record carries the index and the value of the
    first of its outputs that pays the address. *)
Definition firstPaying (hdb : HnscanDB) (addr : Hash) (f : Funding) : Prop :=
  ∃ (newtx : TX) (idx v : Z),
    client hdb !! f_tx_hash f = Some newtx
    ∧ findOutput addr (outputs newtx) 0 = Some (idx, v)
    ∧ f_output_index f = Some idx
    ∧ f_value f = Some v.

(** The outputs of the ledger that fund an address: every output that pays
    it, in a transaction the index lists for it, as transaction id and
    output index. *)
Fixpoint payingOutputs (addr : Hash) (outs : list Output) (idx : Z)
  : list Z :=
  match outs with
  | [] => []
  | out :: rest =>
      if decide (addr = oaddress out)
      then idx :: payingOutputs addr rest (idx + 1)
      else payingOutputs addr rest (idx + 1)
  end.

Definition fundingOutputs (hdb : HnscanDB) (addr : Hash) : list (Hash * Z) :=
  concat (map (fun kv : Hash * Z =>
                 match client hdb !! fst kv with
                 | Some newtx =>
                     map (fun idx => (fst kv, idx))
                         (payingOutputs addr (outputs newtx) 0)
                 | None => []
                 end)
              (iterate (db_o (db hdb)) addr)).

(** The store has a spend pointer for the output [idx] of [txid]. *)
Definition hasSpendPointer (hdb : HnscanDB) (txid : Hash) (idx : Z) : bool :=
  bool_decide (is_Some (db_i (db hdb) !! (take 8 txid, idx))).

(** What the specification says of [addressUnspent]: the result is the
    funding records whose pair of transaction id and output index is not
    the funding output of a spent record; and a funding output that is not
    spent is in the result, whatever became of the other outputs of its
    transaction. *)
Definition unspentAsSpecified (hdb : HnscanDB) (addr : Hash)
  (funding : list Funding) (spents : list Spent) (result : list Unspent)
  : Prop :=
  result = filter (fun u => (u_tx_hash u, u_tx_pos u)
                            ∉ map s_funding_output spents)
                  (map toUnspent funding)
  ∧ ∀ (txid : Hash) (idx : Z),
      (txid, idx) ∈ fundingOutputs hdb addr →
      hasSpendPointer hdb txid idx = false →
      ∃ u, u ∈ result ∧ u_tx_hash u = txid ∧ u_tx_pos u = Some idx.

(** The order of a presentation that puts the larger key first. *)
Definition descendingBy {A : Type} (key : A → Z) : relation A :=
  fun x y => key y <= key x.

(** ** Sample data *)

Module Sample.

Definition addrA : Hash := [10; 1]%N.
Definition addrB : Hash := [11; 2]%N.
Definition nameH : Hash := [42; 42]%N.

Definition plain (v : Z) (addr : Hash) : Output :=
  {| ovalue := v; oaddress := addr;
     covenant := {| ctype := types.NONE; items := [] |};
     unspendable := false |}.

Definition named (ty v : Z) (addr : Hash) : Output :=
  {| ovalue := v; oaddress := addr;
     covenant := {| ctype := ty; items := [nameH] |};
     unspendable := false |}.

Definition cb1 : TX :=
  {| txid := [1; 0]%N; inputs := [ {| prevout := (ZERO_HASH, -1) |} ];
     outputs := [plain 2000 addrA] |}.

Definition block1 : Block :=
  {| bhash := [201]%N; prevBlock := ZERO_HASH; txs := [cb1] |}.

Definition cb2 : TX :=
  {| txid := [2; 0]%N; inputs := [ {| prevout := (ZERO_HASH, -1) |} ];
     outputs := [plain 2000 addrB] |}.

(** Spends the coinbase of the first block: 300 are burned by a register,
    an update moves nothing, 1500 go on. *)
Definition tx2 : TX :=
  {| txid := [2; 1]%N; inputs := [ {| prevout := ([1; 0]%N, 0) |} ];
     outputs := [named types.REGISTER 300 addrA;
                 named types.UPDATE 0 addrA;
                 plain 1500 addrB] |}.

Definition block2 : Block :=
  {| bhash := [202]%N; prevBlock := [201]%N; txs := [cb2; tx2] |}.

Definition view1 : CoinView := ∅.
Definition view2 : CoinView := {[ ([1; 0]%N, 0) := plain 2000 addrA ]}.

Definition blocks : list (Block * CoinView) :=
  [(block1, view1); (block2, view2)].

Definition magic : Z := 0x8efa1fbe.

Definition fresh : HnscanDB := newHnscanDB magic ∅ emptyDB.

(** Chart points: one on day 1, two on day 2, one on day 3. *)
Definition point (tm : Z) (diff : float) (ntx : Z) (sup : Z) : ChartData :=
  {| time := tm; difficulty := diff; transactions := ntx; supply := sup;
     cburned := 0; totalTx := ntx |}.

Definition p0 : ChartData := point 86400 1%float 3 2000.
Definition p1 : ChartData := point 172800 2%float 4 4000.
Definition p2 : ChartData := point 172801 4%float 1 6000.
Definition p3 : ChartData := point 259200 8%float 2 8000.

(** The index after [p0], [p1] and [p2] were observed: the bucket of day 2
    is open and holds [p1] and [p2]. *)
Definition day2 : HnscanDB :=
  match observeAll fresh [p0; p1; p2] with
  | Ok hd => hd
  | Throw _ => fresh
  end.

(** An address index. The transaction [payTwice] pays [addrA] with its
    outputs 0 and 1, and its output 0 was spent by [spender]; the
    transaction [payOnce] pays [addrA] with its output 1. *)
Definition payTwice : TX :=
  {| txid := [7; 7; 7; 7; 7; 7; 7; 7; 7; 1]%N; inputs := [];
     outputs := [plain 5 addrA; plain 7 addrA] |}.

Definition payOnce : TX :=
  {| txid := [8; 8; 8; 8; 8; 8; 8; 8; 8; 2]%N; inputs := [];
     outputs := [plain 11 addrB; plain 13 addrA] |}.

Definition spender : Hash := [9; 9]%N.

Definition indexStore : DB :=
  {| db_V := Some ("hnscan"%string, 0); db_O := Some magic;
     db_H := Some 12; db_s := None; db_h := ∅;
     db_o := {[ (addrA, txid payTwice) := 10; (addrA, txid payOnce) := 11 ]};
     db_i := {[ (take 8 (txid payTwice), 0) := spender ]};
     db_t := {[ spender := 12 ]};
     db_n := ∅; db_d := ∅ |}.

Definition indexed : HnscanDB :=
  newHnscanDB magic
    {[ txid payTwice := payTwice; txid payOnce := payOnce ]} indexStore.

(** Name history. Two transactions of the block at height 5 bid on the
    name, [bidA] before [bidB] in the block and in key order. *)
Definition bidA : Hash := [1; 1]%N.
Definition bidB : Hash := [1; 2]%N.

Definition sameBlock : Hnscan :=
  {| hdb_ := newHnscanDB magic ∅
               {| db_V := None; db_O := None; db_H := None; db_s := None;
                  db_h := ∅; db_o := ∅; db_i := ∅; db_t := ∅;
                  db_n := {[ (nameH, bidA) := 5; (nameH, bidB) := 5 ]};
                  db_d := ∅ |};
     node := {[ bidA := {| mtime := 1000;
                           j_outputs := [named types.BID 70 addrA] |};
                bidB := {| mtime := 1000;
                           j_outputs := [named types.BID 90 addrB] |} ]} |}.

(** The name was opened at height 10, bid on at height 25 and its bid was
    revealed at height 40; the keys come in the order 10, 40, 25. *)
Definition auction : Hnscan :=
  {| hdb_ := newHnscanDB magic ∅
               {| db_V := None; db_O := None; db_H := None; db_s := None;
                  db_h := ∅; db_o := ∅; db_i := ∅; db_t := ∅;
                  db_n := {[ (nameH, [3; 1]%N) := 10; (nameH, [3; 2]%N) := 40;
                             (nameH, [3; 3]%N) := 25 ]};
                  db_d := ∅ |};
     node := {[ [3; 1]%N := {| mtime := 1; j_outputs :=
                                 [named types.OPEN 0 addrA] |};
                [3; 2]%N := {| mtime := 3; j_outputs :=
                                 [named types.REVEAL 60 addrA] |};
                [3; 3]%N := {| mtime := 2; j_outputs :=
                                 [plain 5 addrB; named types.BID 80 addrA] |}
             ]} |}.

(** A store that was written for another network: its magic is not
    [magic]. *)
Definition otherNetStore : DB :=
  set_O (set_V emptyDB (Some ("hnscan"%string, 0))) (Some 0x4a9e57cf).

Definition otherNet : HnscanDB := newHnscanDB magic ∅ otherNetStore.

(** The index after the second block was connected on the fresh state. *)
Definition connected2 : HnscanDB :=
  match saveEntry fresh block2 view2 with
  | Ok hd => hd
  | Throw _ => fresh
  end.

End Sample.

(** * Further code of the same files *)

(** ** [HnscanDB]: the height *)

Definition set_H (st : DB) (v : option Z) : DB :=
  {| db_V := db_V st; db_O := db_O st; db_H := v; db_s := db_s st;
     db_h := db_h st; db_o := db_o st; db_i := db_i st; db_t := db_t st;
     db_n := db_n st; db_d := db_d st |}.

(** [setHeight(height)]: the index after the call, or what the call
    throws, and the property [this.height], which the call sets on the
    index before it writes (the constructor does not declare it). *)
Definition setHeight (hdb : HnscanDB) (height : Z) : result HnscanDB * Z :=
  (let* data := fromU32 height in
   Ok (set_db hdb (set_H (db hdb) (Some data))),
   height).

Definition getHeight (hdb : HnscanDB) : Z :=
  match db_H (db hdb) with
  | None => 0
  | Some raw => toU32 raw
  end.

(** ** [HnscanDB]: the chart series *)

Definition time_le (a b : Z * RawChart) : Prop := fst a <= fst b.

Global Instance time_le_dec : RelDecision time_le.
Proof. intros a b. unfold time_le. apply _. Defined.

(** Modelled from the spec: the key of a daily chart record, [layout.d]
    (the file [lib/layout.js] is not among the sources), is its "day bucket
    timestamp", a fixed-width integer, so that the order of the keys is the
    order of the times. [db.iterator({gte: layout.d.min(startTime), lte:
    layout.d.max(endTime)})] then yields the records whose time is between
    [startTime] and [endTime], both included, the earliest first. *)
Definition iterateTimes (m : gmap Z RawChart) (startTime endTime : Z)
  : list (Z * RawChart) :=
  merge_sort time_le
    (filter (fun kv : Z * RawChart => startTime <= fst kv <= endTime)
            (map_to_list m)).

(** The body of [iter.each] in the series methods: the tick of a record,
    whose date is the time of the key in milliseconds and whose value is
    read off the decoded record; it throws when the record does not
    decode. *)
Definition tickOf {B : Type} (read : ChartData → B) (kv : Z * RawChart)
  : result (Z * B) :=
  let* chartData := decodeChart (snd kv) in
  Ok (fst kv * 1000, read chartData).

(** What the five series methods share. *)
Definition seriesOf {B : Type} (read : ChartData → B) (hdb : HnscanDB)
  (startTime endTime : Z) : result (list (Z * B)) :=
  mapM (tickOf read) (iterateTimes (db_d (db hdb)) startTime endTime).

Definition getDifficultySeries (hdb : HnscanDB) (startTime endTime : Z)
  : result (list (Z * float)) :=
  seriesOf difficulty hdb startTime endTime.

Definition getTransactionSeries (hdb : HnscanDB) (startTime endTime : Z)
  : result (list (Z * Z)) :=
  seriesOf transactions hdb startTime endTime.

Definition getTotalTransactionSeries (hdb : HnscanDB) (startTime endTime : Z)
  : result (list (Z * Z)) :=
  seriesOf totalTx hdb startTime endTime.

(** ** [HnscanDB]: the history of an address *)

Record HistoryTX : Type := mkHistoryTX {
  ht_tx_hash : Hash;
  ht_height : Z
}.

Definition addressHistory (hdb : HnscanDB) (addr : Hash)
  : result (list HistoryTX) :=
  let* fs := destructure (addressFunding hdb addr) in
  let fConfirmed := fst fs in
  let* ss := addressSpent hdb fConfirmed in
  let sConfirmed := fst ss in
  let txs := [] ++ map (fun f => {| ht_tx_hash := f_tx_hash f;
                                    ht_height := f_height f |}) fConfirmed in
  Ok (txs ++ map (fun sp => {| ht_tx_hash := s_tx_hash sp;
                               ht_height := s_height sp |}) sConfirmed).

(** ** [Hnscan]: the transactions of an address ([lib/hnscan.js]) *)

(** [getTransactionsByAddress(addr, offset, limit)]: the page of the history
    the index returns, each entry looked up with [getTransaction], which
    answers [undefined] for a transaction the node has no record of; and the
    length of the whole history. *)
Definition getTransactionsByAddress (hs : Hnscan) (addr : Hash)
  (offset limit : nat) : result (list (option TXJSON) * nat) :=
  let* raw := addressHistory (hdb_ hs) addr in
  let list_ := slice raw offset limit in
  Ok (map (fun entry => getTransaction hs (ht_tx_hash entry)) list_,
      length raw).

(** ** [Hnscan]: the latest transactions ([lib/hnscan.js]) *)

(** [getTransactions(limit)] walks the chain from the tip down and the
    transactions of each block in their order, and returns from inside the
    loops as soon as it has collected [limit] entries. What [txToJSON] makes
    of a transaction and how the fee of the node's record is put on it are
    left open. *)
Section GetTransactions.
Context {J : Type}.
Variable txToJSON : TX → Z → result J.
Variable setFee : J → TXJSON → J.

(** The body of the inner loop up to the push; [getMetaView] and [getJSON]
    throw a [TypeError] on the [null] that [getMeta] answers for a
    transaction the node has no record of. *)
Definition latestJSON (hs : Hnscan) (tx : TX) (height : Z) : result J :=
  let* json := txToJSON tx height in
  match node hs !! txid tx with
  | None => Throw "TypeError: Cannot read property 'getJSON' of null"
  | Some json2 => Ok (setFee json json2)
  end.

(** How the loop over the transactions of one block ends: by the [return]
    inside it, or with the list collected so far. *)
Inductive Loop : Type :=
| Returned (txs_ : list J)
| Running (txs_ : list J).

Fixpoint blockLoop (hs : Hnscan) (limit : Z) (height : Z) (block_txs : list TX)
  (txs_ : list J) : result Loop :=
  match block_txs with
  | [] => Ok (Running txs_)
  | tx :: rest =>
      let* json := latestJSON hs tx height in
      let txs' := txs_ ++ [json] in
      if Z.of_nat (length txs') =? limit then Ok (Returned txs')
      else blockLoop hs limit height rest txs'
  end.

(** The loop over the heights; the function ends without a [return] when
    the loop does, and the call then resolves to [undefined]. *)
Fixpoint chainLoop (hs : Hnscan) (limit : Z) (blocks : list (Z * Block))
  (txs_ : list J) : result (option (list J)) :=
  match blocks with
  | [] => Ok None
  | (i, block) :: below =>
      let* l := blockLoop hs limit i (txs block) txs_ in
      match l with
      | Returned r => Ok (Some r)
      | Running txs' => chainLoop hs limit below txs'
      end
  end.

(** The blocks of the main chain with their heights, the tip first; the
    chain is given by its blocks from height 0 on. *)
Definition fromTip (chain : list Block) : list (Z * Block) :=
  reverse (imap (fun i b => (Z.of_nat i, b)) chain).

Definition getTransactions (hs : Hnscan) (chain : list Block) (limit : Z)
  : result (option (list J)) :=
  chainLoop hs limit (fromTip chain) [].

End GetTransactions.

(** ** [hex32] ([lib/hnscan.js]) *)

(** [num.toString(16)] for a number that is a non-negative integer: its
    digits in base 16, lower case, the most significant first, no leading
    zero. A string is the list of its characters. *)
Definition hexDigit (d : Z) : ascii :=
  match d with
  | 0 => "0" | 1 => "1" | 2 => "2" | 3 => "3" | 4 => "4" | 5 => "5"
  | 6 => "6" | 7 => "7" | 8 => "8" | 9 => "9" | 10 => "a" | 11 => "b"
  | 12 => "c" | 13 => "d" | 14 => "e" | _ => "f"
  end%char.

Fixpoint toString16_from (fuel : nat) (n : Z) (digits : list ascii)
  : list ascii :=
  match fuel with
  | O => digits
  | S fuel' =>
      let digits' := hexDigit (n mod 16) :: digits in
      if n / 16 =? 0 then digits' else toString16_from fuel' (n / 16) digits'
  end.

(** A number has no more digits in base 16 than in base 2. *)
Definition toString16 (n : Z) : list ascii :=
  toString16_from (S (Z.to_nat (Z.log2 n))) n [].

(** [while (num.length < 8) num = "0" + num]; the loop takes at most 8
    turns. *)
Fixpoint padLoop (fuel : nat) (num : list ascii) : list ascii :=
  match fuel with
  | O => num
  | S fuel' =>
      if (length num <? 8)%nat then padLoop fuel' ("0"%char :: num) else num
  end.

Definition hex32 (num : Z) : result (list ascii) :=
  if negb (0 <=? num) then Throw "AssertionError"
  else
    let num' := toString16 num in
    if negb (length num' <=? 8)%nat then Throw "AssertionError"
    else Ok (padLoop 8 num').

(** ** [ChainClient] ([lib/chainclient.js]) *)

(** What the chain emits and the client listens to. *)
Inductive ChainEvent : Type :=
| chain_connect (entry : Hash) (block : Block) (view : CoinView)
| chain_disconnect (entry : Hash) (block : Block) (view : CoinView)
| chain_reset (tip : Hash).

(** What the client emits. *)
Inductive ClientEvent : Type :=
| block_connect (entry : Hash) (block : Block) (view : CoinView)
| block_disconnect (entry : Hash) (block : Block) (view : CoinView)
| client_chain_reset (tip : Hash)
| client_connect
| client_disconnect.

(** The client: its flag, the events it has emitted so far, and the events
    of the callbacks it has queued with [setImmediate], which the event loop
    runs later, in the order they were queued. *)
Record ChainClient : Type := mkChainClient {
  opened : bool;
  emitted : list ClientEvent;
  immediates : list ClientEvent
}.

Module ChainClient_.

Definition new : ChainClient :=
  {| opened := false; emitted := []; immediates := [] |}.

Definition emit (c : ChainClient) (e : ClientEvent) : ChainClient :=
  {| opened := opened c; emitted := emitted c ++ [e];
     immediates := immediates c |}.

(** The three listeners [init] puts on the chain. *)
Definition heard (c : ChainClient) (ev : ChainEvent) : ChainClient :=
  if negb (opened c) then c
  else match ev with
       | chain_connect entry block view =>
           emit c (block_connect entry block view)
       | chain_disconnect entry block view =>
           emit c (block_disconnect entry block view)
       | chain_reset tip => emit c (client_chain_reset tip)
       end.

Definition open (c : ChainClient) : result ChainClient :=
  if opened c then Throw "AssertionError: ChainClient is already open."
  else Ok {| opened := true; emitted := emitted c;
             immediates := immediates c ++ [client_connect] |}.

Definition close (c : ChainClient) : result ChainClient :=
  if negb (opened c) then Throw "AssertionError: ChainClient is not open."
  else Ok {| opened := false; emitted := emitted c;
             immediates := immediates c ++ [client_disconnect] |}.

(** The event loop reaches the queued callbacks. *)
Definition runImmediates (c : ChainClient) : ChainClient :=
  {| opened := opened c; emitted := emitted c ++ immediates c;
     immediates := [] |}.

End ChainClient_.

(** What happens to a client, one after the other. A call that throws
    rejects its promise and leaves the client as it was. *)
Inductive Call : Type :=
| CallOpen
| CallClose
| Heard (ev : ChainEvent)
| Immediate.

Definition step (c : ChainClient) (call : Call) : ChainClient :=
  match call with
  | CallOpen =>
      match ChainClient_.open c with Ok c' => c' | Throw _ => c end
  | CallClose =>
      match ChainClient_.close c with Ok c' => c' | Throw _ => c end
  | Heard ev => ChainClient_.heard c ev
  | Immediate => ChainClient_.runImmediates c
  end.

Definition run (c : ChainClient) (calls : list Call) : ChainClient :=
  fold_left step calls c.

(** ** Notions the further statements are written with *)

(** The number a string of hexadecimal digits spells, read after the
    digits that gave [acc]; [None] when a character is no lower-case
    hexadecimal digit. *)
Definition digitValue (c : ascii) : option Z :=
  let n := Z.of_N (Ascii.N_of_ascii c) in
  if (48 <=? n) && (n <=? 57) then Some (n - 48)
  else if (97 <=? n) && (n <=? 102) then Some (n - 87)
  else None.

Fixpoint hexValue (acc : Z) (s : list ascii) : option Z :=
  match s with
  | [] => Some acc
  | c :: rest =>
      match digitValue c with
      | Some d => hexValue (acc * 16 + d) rest
      | None => None
      end
  end.

(** How many events of a kind a list holds. *)
Definition count {A : Type} (p : A → bool) (l : list A) : nat :=
  length (filter (fun e => p e = true) l).

Definition isConnect (e : ClientEvent) : bool :=
  match e with client_connect => true | _ => false end.

Definition isDisconnect (e : ClientEvent) : bool :=
  match e with client_disconnect => true | _ => false end.

(** The chain event a client event passes on, if it passes one on. *)
Definition forwardedOf (e : ClientEvent) : option ChainEvent :=
  match e with
  | block_connect entry block view => Some (chain_connect entry block view)
  | block_disconnect entry block view =>
      Some (chain_disconnect entry block view)
  | client_chain_reset tip => Some (chain_reset tip)
  | client_connect | client_disconnect => None
  end.

Definition heardIn (call : Call) : option ChainEvent :=
  match call with Heard ev => Some ev | _ => None end.

Definition isOpenCall (call : Call) : bool :=
  match call with CallOpen => true | _ => false end.

(** As many announcements of a connection as of a disconnection, and one
    more while the client is open; no forwarded event waits in the queue. *)
Definition clientInv (c : ChainClient) : Prop :=
  count isConnect (emitted c ++ immediates c)
  = (count isDisconnect (emitted c ++ immediates c)
     + (if opened c then 1 else 0))%nat
  ∧ omap forwardedOf (immediates c) = [].


(** A number that [writeU64] and [readU64] carry unchanged. *)
Definition fits53 (n : Z) : Prop := 0 <= n < 2 ^ 53.

(** A chain state whose totals are carried unchanged by [write] and
    [read], and a chart record likewise. *)
Definition storable (s : ChainState) : Prop :=
  fits53 (tx s) ∧ fits53 (coin s) ∧ fits53 (value s) ∧ fits53 (burned s).

Definition chartStorable (c : ChartData) : Prop :=
  fits53 (supply c) ∧ fits53 (cburned c) ∧ fits53 (totalTx c).

(** The transactions of some blocks, each with the height of its block, in
    the order of the blocks and, within a block, of the block. *)
Definition transactionsOf (blocks : list (Z * Block)) : list (TX * Z) :=
  concat (map (fun ib => map (fun tx => (tx, fst ib)) (txs (snd ib))) blocks).


(** How many outputs of a block [saveEntry] counts as a coin: the burned and
    the circulating ones. *)
Definition countedOutputs (b : Block) : list Output :=
  filter (fun out => (isBurn out || isCoin out) = true) (allOutputs b).

(** [resolves], as a test. *)
Definition resolvesb (view : CoinView) (b : Block) : bool :=
  forallb (fun t : TX =>
             forallb (fun input : Input =>
                        bool_decide (is_Some (getOutput view (prevout input))))
                     (inputs t))
          (tail (txs b)).

(** What holds of the chart aggregator after any number of points whose
    times are not negative were observed on a store that had no daily
    record: the current day is not negative, and every daily record lies
    under a positive time that is at most the start of the current day. *)
Definition chartInv (hdb : HnscanDB) : Prop :=
  0 <= chartDataCurrentDate hdb
  ∧ map_Forall (fun k (_ : RawChart) =>
                  0 < k ∧ k <= chartDataCurrentDate hdb * 86400)
               (db_d (db hdb)).

(** The value of a record, 0 when it is [undefined]. *)
Definition valueOr0 (v : option Z) : Z := default 0 v.

(** The store has no spend pointer for the output a funding record
    names. *)
Definition hasNoSpend (hdb : HnscanDB) (f : Funding) : bool :=
  match spentOf hdb f with
  | Ok None => true
  | _ => false
  end.

(** ** More sample data *)

Module Sample2.

(** The index of [Sample.day2] after the point of day 3 was observed. *)
Definition flushed3 : HnscanDB :=
  match setChartData Sample.day2 Sample.p3 with
  | Ok hd => hd
  | Throw _ => Sample.day2
  end.

(** What the index of [Sample.indexed] answers for [Sample.addrA]. *)
Definition unspentA : list Unspent :=
  match addressUnspent Sample.indexed Sample.addrA with
  | Ok l => l
  | Throw _ => []
  end.

Definition balanceA : Balance :=
  match addressBalance Sample.indexed Sample.addrA with
  | Ok b => b
  | Throw _ => {| confirmed := None; unconfirmed := None; received := None;
                  spent := None |}
  end.

(** The index lists a transaction for [Sample.addrA] that the chain client
    does not know. *)
Definition dangling : HnscanDB :=
  newHnscanDB Sample.magic ∅
    {| db_V := None; db_O := None; db_H := None; db_s := None; db_h := ∅;
       db_o := {[ (Sample.addrA, [5; 5]%N) := 3 ]};
       db_i := ∅; db_t := ∅; db_n := ∅; db_d := ∅ |}.

(** Two transactions whose ids share their first 8 bytes pay [Sample.addrA]
    with their output 0; the store has one spend pointer, written when the
    first was spent. *)
Definition twinA : TX :=
  {| txid := [6; 6; 6; 6; 6; 6; 6; 6; 1]%N; inputs := [];
     outputs := [Sample.plain 40 Sample.addrA] |}.

Definition twinB : TX :=
  {| txid := [6; 6; 6; 6; 6; 6; 6; 6; 2]%N; inputs := [];
     outputs := [Sample.plain 60 Sample.addrA] |}.

Definition twins : HnscanDB :=
  newHnscanDB Sample.magic
    {[ txid twinA := twinA; txid twinB := twinB ]}
    {| db_V := None; db_O := None; db_H := None; db_s := None; db_h := ∅;
       db_o := {[ (Sample.addrA, txid twinA) := 20;
                  (Sample.addrA, txid twinB) := 21 ]};
       db_i := {[ (take 8 (txid twinA), 0) := Sample.spender ]};
       db_t := {[ Sample.spender := 30 ]};
       db_n := ∅; db_d := ∅ |}.

Definition fundingTwinA : Funding :=
  {| f_tx_hash := txid twinA; f_height := 20; f_output_index := Some 0;
     f_value := Some 40 |}.

Definition fundingTwinB : Funding :=
  {| f_tx_hash := txid twinB; f_height := 21; f_output_index := Some 0;
     f_value := Some 60 |}.

(** The first page of the history of [Sample.nameH]. *)
Definition historyPage : list History :=
  match getNameHistory Sample.sameBlock Sample.nameH 0 25 with
  | Ok r => fst r
  | Throw _ => []
  end.

(** An explorer over [Sample.indexed] whose node has a record of
    [Sample.payTwice] only, and the first two transactions of [Sample.addrA]
    as it lists them. *)
Definition explorer : Hnscan :=
  {| hdb_ := Sample.indexed;
     node := {[ txid Sample.payTwice :=
                  {| mtime := 7; j_outputs := outputs Sample.payTwice |} ]} |}.

Definition pageA : list (option TXJSON) * nat :=
  match getTransactionsByAddress explorer Sample.addrA 0 2 with
  | Ok r => r
  | Throw _ => ([], 0%nat)
  end.

(** An index on an empty store that has recorded the height 7. *)
Definition atHeight7 : HnscanDB :=
  match fst (setHeight Sample.fresh 7) with
  | Ok hd => hd
  | Throw _ => Sample.fresh
  end.

(** A block whose second transaction spends a coin of 5000 that was locked
    by an update, a coin the state never counted, and makes an update of it
    again; the coinbase pays 2000. *)
Definition lockedCoin : Outpoint := ([4; 4]%N, 0).

Definition overdraw : Block :=
  {| bhash := [203]%N; prevBlock := ZERO_HASH;
     txs := [ {| txid := [3; 0]%N;
                 inputs := [ {| prevout := (ZERO_HASH, -1) |} ];
                 outputs := [Sample.plain 2000 Sample.addrA] |};
              {| txid := [3; 1]%N;
                 inputs := [ {| prevout := lockedCoin |} ];
                 outputs := [Sample.named types.UPDATE 5000 Sample.addrA] |} ] |}.

Definition overdrawView : CoinView :=
  {[ lockedCoin := Sample.named types.UPDATE 5000 Sample.addrA ]}.

Definition overdrawn : HnscanDB :=
  match saveEntry Sample.fresh overdraw overdrawView with
  | Ok hd => hd
  | Throw _ => Sample.fresh
  end.

End Sample2.

(** * Properties *)

(** ** The result monad and the loops *)

Lemma bind_Ok {A B : Type} (m : result A) (k : A → result B) (b : B) :
  bind m k = Ok b ↔ ∃ a, m = Ok a ∧ k a = Ok b.
Proof.
  destruct m as [a|e]; simpl; split.
  - intros Hk. exists a. split; [reflexivity | exact Hk].
  - intros (a' & Ha & Hk). injection Ha as ->. exact Hk.
  - discriminate.
  - intros (a' & Ha & _). discriminate.
Qed.

Lemma forM_app {A S : Type} (body : S → A → result S) (l1 l2 : list A)
  (st : S) :
  forM body (l1 ++ l2) st = bind (forM body l1 st) (forM body l2).
Proof.
  revert st. induction l1 as [|x l1 IH]; intros st; simpl.
  - reflexivity.
  - destruct (body st x) as [st'|e]; simpl; [apply IH | reflexivity].
Qed.

(** ** The chain state: each step and the step that takes it back *)

Ltac state_eq st :=
  destruct st; unfold ChainState_.add, ChainState_.spend, ChainState_.burn,
    ChainState_.unburn, ChainState_.connect, ChainState_.disconnect; simpl;
  f_equal; lia.

Lemma spend_add (st : ChainState) (c : Output) :
  ChainState_.spend (ChainState_.add st c) c = st.
Proof. state_eq st. Qed.

Lemma add_spend (st : ChainState) (c : Output) :
  ChainState_.add (ChainState_.spend st c) c = st.
Proof. state_eq st. Qed.

Lemma unburn_burn (st : ChainState) (c : Output) :
  ChainState_.unburn (ChainState_.burn st c) c = st.
Proof. state_eq st. Qed.

Lemma disconnect_connect (st : ChainState) (b : Block) :
  ChainState_.disconnect (ChainState_.connect st b) b = st.
Proof. state_eq st. Qed.

Lemma disconnectOutput_connectOutput (st : ChainState) (out : Output) :
  disconnectOutput (connectOutput st out) out = st.
Proof.
  unfold disconnectOutput, connectOutput.
  destruct (isUnspendable out); [reflexivity|].
  destruct (isRegister (covenant out)); [apply unburn_burn|].
  destruct ((types.UPDATE <=? ctype (covenant out))
            && (ctype (covenant out) <=? types.REVOKE)); [reflexivity|].
  apply spend_add.
Qed.

Lemma disconnectOutputs_connectOutputs (outs : list Output) (st : ChainState) :
  disconnectOutputs (connectOutputs st outs) outs = st.
Proof.
  unfold disconnectOutputs, connectOutputs.
  revert st. induction outs as [|out outs IH]; intros st; simpl.
  - reflexivity.
  - rewrite fold_left_app. simpl. rewrite IH.
    apply disconnectOutput_connectOutput.
Qed.

Lemma unspend_spend_inputs (view : CoinView) (ins : list Input)
  (st st' : ChainState) :
  forM (spendInput view) ins st = Ok st' →
  forM (unspendInput view) (rev ins) st' = Ok st.
Proof.
  revert st. induction ins as [|input ins IH]; intros st; simpl.
  - intros [= ->]. reflexivity.
  - intros H. apply bind_Ok in H as (st1 & H1 & H2).
    rewrite forM_app, (IH _ H2). simpl.
    unfold spendInput in H1. unfold unspendInput.
    destruct (getOutput view (prevout input)) as [c|]; [|discriminate].
    injection H1 as <-. simpl. rewrite add_spend. reflexivity.
Qed.

Lemma disconnectTXs_connectTXs (view : CoinView) (l : list TX) (idx : nat)
  (st st' : ChainState) :
  connectTXs view idx l st = Ok st' →
  disconnectTXs view idx l st' = Ok st.
Proof.
  revert idx st. induction l as [|t l IH]; intros idx st; simpl.
  - intros [= ->]. reflexivity.
  - intros H. apply bind_Ok in H as (st1 & H1 & H2).
    rewrite (IH _ _ H2). simpl.
    rewrite disconnectOutputs_connectOutputs.
    destruct (0 <? idx)%nat.
    + apply unspend_spend_inputs. exact H1.
    + injection H1 as ->. reflexivity.
Qed.

Lemma disconnectOutput_retag hsh dtx cm (st : ChainState) (out : Output) :
  disconnectOutput (retag hsh dtx cm st) out
  = retag hsh dtx cm (disconnectOutput st out).
Proof.
  unfold disconnectOutput.
  destruct (isUnspendable out); [reflexivity|].
  destruct (isRegister (covenant out)); [reflexivity|].
  destruct ((types.UPDATE <=? ctype (covenant out))
            && (ctype (covenant out) <=? types.REVOKE)); reflexivity.
Qed.

Lemma disconnectOutputs_retag hsh dtx cm (outs : list Output)
  (st : ChainState) :
  disconnectOutputs (retag hsh dtx cm st) outs
  = retag hsh dtx cm (disconnectOutputs st outs).
Proof.
  unfold disconnectOutputs. revert st.
  induction (rev outs) as [|out l IH]; intros st; simpl.
  - reflexivity.
  - rewrite disconnectOutput_retag. apply IH.
Qed.

Lemma unspendInputs_retag hsh dtx cm (view : CoinView) (ins : list Input)
  (st : ChainState) :
  forM (unspendInput view) ins (retag hsh dtx cm st)
  = bind (forM (unspendInput view) ins st)
      (fun st' => Ok (retag hsh dtx cm st')).
Proof.
  revert st. induction ins as [|input ins IH]; intros st; simpl.
  - reflexivity.
  - unfold unspendInput at 1 3.
    destruct (getOutput view (prevout input)) as [c|]; simpl; [|reflexivity].
    apply (IH (ChainState_.add st c)).
Qed.

Lemma disconnectTXs_retag hsh dtx cm (view : CoinView) (l : list TX)
  (idx : nat) (st : ChainState) :
  disconnectTXs view idx l (retag hsh dtx cm st)
  = bind (disconnectTXs view idx l st)
      (fun st' => Ok (retag hsh dtx cm st')).
Proof.
  revert idx st. induction l as [|t l IH]; intros idx st; simpl.
  - reflexivity.
  - rewrite IH.
    destruct (disconnectTXs view (S idx) l st) as [s1|e]; simpl;
      [|reflexivity].
    rewrite disconnectOutputs_retag.
    destruct (0 <? idx)%nat; [apply unspendInputs_retag | reflexivity].
Qed.

(** Taking a block back reads the four totals of the state it starts from,
    and nothing else of it. *)
Lemma disconnectBlock_sameTotals (s1 s2 : ChainState) (b : Block)
  (view : CoinView) :
  sameTotals s1 s2 →
  disconnectBlock s1 b view = disconnectBlock s2 b view.
Proof.
  intros (Htx & Hcoin & Hvalue & Hburned). unfold disconnectBlock.
  replace (ChainState_.disconnect (ChainState_.clone s1) b)
    with (retag (tip s1) 0 false
            (ChainState_.disconnect (ChainState_.clone s2) b))
    by (destruct s1, s2; simpl in *; subst;
        unfold retag, ChainState_.disconnect, ChainState_.clone,
          ChainState_.inject; simpl; f_equal; lia).
  rewrite disconnectTXs_retag.
  destruct (disconnectTXs view 0 (txs b)
              (ChainState_.disconnect (ChainState_.clone s2) b))
    as [r|e]; simpl; [|reflexivity].
  f_equal. destruct r. unfold retag, ChainState_.commit. simpl.
  f_equal. lia.
Qed.

(** Disconnecting the block that was just connected gives the state back,
    stamped with the parent's hash. *)
Lemma disconnectBlock_connectBlock (st st' : ChainState) (b : Block)
  (view : CoinView) :
  connectBlock st b view = Ok st' →
  disconnectBlock st' b view = Ok (ChainState_.commit st (prevBlock b)).
Proof.
  unfold connectBlock, disconnectBlock. intros H.
  apply bind_Ok in H as (p & Hp & [= <-]).
  apply disconnectTXs_connectTXs in Hp.
  replace (ChainState_.disconnect
             (ChainState_.clone (ChainState_.commit p (bhash b))) b)
    with (retag (bhash b) (- Z.of_nat (length (txs b))) false p)
    by (destruct p; unfold retag, ChainState_.disconnect, ChainState_.clone,
          ChainState_.inject, ChainState_.commit; simpl; f_equal; lia).
  rewrite disconnectTXs_retag, Hp. simpl.
  f_equal. destruct st.
  unfold retag, ChainState_.commit, ChainState_.connect, ChainState_.clone,
    ChainState_.inject. simpl.
  f_equal. lia.
Qed.

(** A block whose inputs the view resolves is connected. *)
Lemma spendInputs_resolved (view : CoinView) (ins : list Input)
  (st : ChainState) :
  Forall (fun input => is_Some (getOutput view (prevout input))) ins →
  ∃ st', forM (spendInput view) ins st = Ok st'.
Proof.
  intros H. revert st. induction H as [|input ins [c Hc] _ IH]; intros st.
  - exists st. reflexivity.
  - simpl. unfold spendInput at 1. rewrite Hc. simpl. apply IH.
Qed.

Lemma connectTXs_resolved (view : CoinView) (l : list TX) (idx : nat)
  (st : ChainState) :
  Forall (resolvesTX view) (if (0 <? idx)%nat then l else tail l) →
  ∃ st', connectTXs view idx l st = Ok st'.
Proof.
  revert idx st. induction l as [|t l IH]; intros idx st H.
  - exists st. reflexivity.
  - simpl. destruct idx as [|idx]; simpl in *.
    + apply (IH 1%nat). exact H.
    + inversion H as [|? ? Ht Hl]; subst.
      destruct (spendInputs_resolved view (inputs t) st Ht) as (st1 & ->).
      simpl. apply (IH (S (S idx))). exact Hl.
Qed.

Lemma connectBlock_resolved (st : ChainState) (b : Block) (view : CoinView) :
  resolves view b → ∃ st', connectBlock st b view = Ok st'.
Proof.
  intros H. unfold connectBlock.
  destruct (connectTXs_resolved view (txs b) 0
              (ChainState_.connect (ChainState_.clone st) b) H)
    as (p & ->).
  simpl. eexists. reflexivity.
Qed.

(** What the round trip leaves of a state: its four totals, under the hash
    that the first block names as its parent. *)
Lemma roundtrip_state (bs : list (Block * CoinView)) (hdb hdb' : HnscanDB) :
  connectAll hdb bs = Ok hdb' →
  ∃ hdb2, disconnectAll hdb' (rev bs) = Ok hdb2
          ∧ sameTotals (state hdb2) (state hdb)
          ∧ tip (state hdb2)
            = from_option (fun bv => prevBlock (fst bv)) (tip (state hdb))
                (head bs).
Proof.
  revert hdb. induction bs as [|[b view] bs IH]; intros hdb Hc.
  - injection Hc as <-. exists hdb.
    split; [reflexivity|]. split; [|reflexivity]. repeat split.
  - unfold connectAll in Hc. simpl in Hc.
    apply bind_Ok in Hc as (h1 & H1 & Hc).
    unfold saveEntry in H1.
    apply bind_Ok in H1 as (st1 & Hst1 & [= <-]).
    destruct (IH (set_state hdb st1 None) Hc) as (hmid & Hmid & Hsame & _).
    simpl in Hsame.
    unfold disconnectAll. simpl. rewrite forM_app.
    unfold disconnectAll in Hmid. rewrite Hmid. simpl.
    unfold removeEntry.
    rewrite (disconnectBlock_sameTotals _ _ b view Hsame).
    rewrite (disconnectBlock_connectBlock _ _ _ _ Hst1). simpl.
    eexists. split; [reflexivity|]. simpl. split; [|reflexivity].
    repeat split.
Qed.

Lemma connectAll_resolved (bs : list (Block * CoinView)) (hdb : HnscanDB) :
  Forall (fun bv => resolves (snd bv) (fst bv)) bs →
  ∃ hdb', connectAll hdb bs = Ok hdb'.
Proof.
  intros H. revert hdb. induction H as [|[b view] bs Hb _ IH]; intros hdb.
  - exists hdb. reflexivity.
  - unfold connectAll. simpl. unfold saveEntry at 1.
    destruct (connectBlock_resolved (state hdb) b view Hb) as (st1 & ->).
    simpl. apply IH.
Qed.

(** C1. Round trip: a sequence of blocks, each with a view that resolves
    its inputs, is connected; taking the blocks back last to first then
    succeeds too and leaves the transaction count, the coin count, the
    circulating value and the burned value exactly as they were before the
    first block was connected; the tip is as it was too when the sequence
    extends it, that is when the first block names it as its parent. *)
Theorem connect_disconnect_roundtrip
  (hdb : HnscanDB) (bs : list (Block * CoinView)) :
  Forall (fun bv => resolves (snd bv) (fst bv)) bs →
  ∃ hdb1 hdb2,
    connectAll hdb bs = Ok hdb1
    ∧ disconnectAll hdb1 (rev bs) = Ok hdb2
    ∧ tx (state hdb2) = tx (state hdb)
    ∧ coin (state hdb2) = coin (state hdb)
    ∧ value (state hdb2) = value (state hdb)
    ∧ burned (state hdb2) = burned (state hdb)
    ∧ (extends (tip (state hdb)) bs → tip (state hdb2) = tip (state hdb)).
Proof.
  intros Hres.
  destruct (connectAll_resolved bs hdb Hres) as (hdb1 & Hc).
  destruct (roundtrip_state bs hdb hdb1 Hc)
    as (hdb2 & Hd & (Htx & Hcoin & Hvalue & Hburned) & Htip).
  exists hdb1, hdb2. split; [exact Hc|]. split; [exact Hd|].
  split; [exact Htx|]. split; [exact Hcoin|]. split; [exact Hvalue|].
  split; [exact Hburned|].
  intros Hext. rewrite Htip. destruct bs as [|bv bs]; [reflexivity|].
  exact Hext.
Qed.

Lemma connect_disconnect_roundtrip_witness :
  ∃ hdb1 hdb2,
    connectAll Sample.fresh Sample.blocks = Ok hdb1
    ∧ disconnectAll hdb1 (rev Sample.blocks) = Ok hdb2
    ∧ tx (state hdb2) = tx (state Sample.fresh)
    ∧ coin (state hdb2) = coin (state Sample.fresh)
    ∧ value (state hdb2) = value (state Sample.fresh)
    ∧ burned (state hdb2) = burned (state Sample.fresh)
    ∧ (extends (tip (state Sample.fresh)) Sample.blocks →
       tip (state hdb2) = tip (state Sample.fresh)).
Proof.
  apply (connect_disconnect_roundtrip Sample.fresh Sample.blocks).
  repeat constructor. exists (Sample.plain 2000 Sample.addrA).
  vm_compute. reflexivity.
Defined.

(** The sample blocks extend the tip of the fresh state, and each names the
    one before it. *)
Lemma sample_blocks_chained :
  chained (tip (state Sample.fresh)) Sample.blocks
  ∧ extends (tip (state Sample.fresh)) Sample.blocks.
Proof. repeat split. Qed.

Lemma chained_extends (h0 : Hash) (bs : list (Block * CoinView)) :
  chained h0 bs → extends h0 bs.
Proof. destruct bs as [|bv bs]; [intros _; exact I | intros [H _]; exact H]. Qed.

(** ** What a connected block adds to the totals *)

Lemma sumZ_app (l1 l2 : list Z) : sumZ (l1 ++ l2) = sumZ l1 + sumZ l2.
Proof.
  unfold sumZ. induction l1 as [|x l1 IH]; simpl; [reflexivity | lia].
Qed.

Lemma sum_filter_values (P : Output → bool) (outs : list Output) :
  sumZ (map ovalue (filter (fun out => P out = true) outs))
  = sumZ (map (fun out => if P out then ovalue out else 0) outs).
Proof.
  induction outs as [|out outs IH]; [reflexivity|].
  rewrite filter_cons. simpl. destruct (P out) eqn:HP.
  - rewrite decide_True by reflexivity. simpl.
    unfold sumZ in *. simpl. rewrite IH. reflexivity.
  - rewrite decide_False by discriminate.
    unfold sumZ in *. simpl. rewrite IH. reflexivity.
Qed.

Lemma connectOutput_totals (st : ChainState) (out : Output) :
  burned (connectOutput st out) = burned st + burnOf out
  ∧ value (connectOutput st out) = value st + coinOf out.
Proof.
  unfold connectOutput, burnOf, coinOf, isBurn, isCoin, inAdminRange.
  destruct (isUnspendable out); simpl; [lia|].
  destruct (isRegister (covenant out)); simpl; [lia|].
  destruct ((types.UPDATE <=? ctype (covenant out))
            && (ctype (covenant out) <=? types.REVOKE)); simpl; lia.
Qed.

Lemma connectOutputs_totals (outs : list Output) (st : ChainState) :
  burned (connectOutputs st outs) = burned st + sumZ (map burnOf outs)
  ∧ value (connectOutputs st outs) = value st + sumZ (map coinOf outs).
Proof.
  unfold connectOutputs. revert st.
  induction outs as [|out outs IH]; intros st; simpl.
  - unfold sumZ. simpl. lia.
  - destruct (IH (connectOutput st out)) as [Hb Hv].
    destruct (connectOutput_totals st out) as [Hb1 Hv1].
    rewrite Hb, Hv, Hb1, Hv1. unfold sumZ. simpl. lia.
Qed.

Lemma spendInputs_totals (view : CoinView) (ins : list Input)
  (st st' : ChainState) :
  forM (spendInput view) ins st = Ok st' →
  burned st' = burned st
  ∧ value st' = value st - sumZ (map (spentOf_ view) ins).
Proof.
  revert st. induction ins as [|input ins IH]; intros st; simpl.
  - intros [= <-]. unfold sumZ. simpl. lia.
  - intros H. apply bind_Ok in H as (s1 & H1 & H2).
    destruct (IH _ H2) as [Hb Hv]. rewrite Hb, Hv.
    unfold spendInput in H1. unfold spentOf_ at 2.
    destruct (getOutput view (prevout input)) as [c|]; [|discriminate].
    injection H1 as <-. unfold sumZ. simpl. lia.
Qed.

Lemma connectTXs_totals (view : CoinView) (l : list TX) (idx : nat)
  (st st' : ChainState) :
  connectTXs view idx l st = Ok st' →
  burned st' = burned st + sumZ (map burnOf (concat (map outputs l)))
  ∧ value st' = value st + sumZ (map coinOf (concat (map outputs l)))
                - sumZ (map (spentOf_ view)
                          (concat (map inputs
                                     (if (0 <? idx)%nat then l else tail l)))).
Proof.
  revert idx st. induction l as [|t l IH]; intros idx st; simpl.
  - intros [= <-]. destruct (0 <? idx)%nat; unfold sumZ; simpl; lia.
  - intros H. apply bind_Ok in H as (s1 & H1 & H2).
    destruct (IH _ _ H2) as [Hb Hv]. simpl in Hb, Hv.
    destruct (connectOutputs_totals (outputs t) s1) as [Hb1 Hv1].
    rewrite Hb, Hv, Hb1, Hv1. rewrite !map_app, !sumZ_app.
    destruct idx as [|idx]; simpl in *.
    + injection H1 as <-. lia.
    + destruct (spendInputs_totals _ _ _ _ H1) as [Hb2 Hv2].
      rewrite Hb2, Hv2, map_app, sumZ_app. lia.
Qed.

Lemma connectBlock_totals (st st' : ChainState) (b : Block) (view : CoinView) :
  connectBlock st b view = Ok st' →
  burned st' = burned st + burnedIn b
  ∧ value st' = value st + addedIn b - spentIn view b.
Proof.
  unfold connectBlock. intros H.
  apply bind_Ok in H as (p & Hp & [= <-]).
  destruct (connectTXs_totals _ _ _ _ _ Hp) as [Hb Hv]. simpl in *.
  unfold burnedIn, addedIn, spentIn, spentInputs, allOutputs.
  rewrite !sum_filter_values. fold burnOf coinOf.
  rewrite Hb, Hv. split; reflexivity.
Qed.

(** C2. Burn accounting: when a block is connected, the burned value grows
    by exactly the sum of the values of its outputs that are spendable and
    are a register, and none of these values enters the circulating value,
    which moves by the values of the outputs counted as coins less the
    values of the inputs spent; on its own, a spendable register output of
    value V adds V to the burned value and leaves the circulating value as
    it is. *)
Theorem register_outputs_are_burned
  (hdb hdb' : HnscanDB) (block : Block) (view : CoinView) :
  saveEntry hdb block view = Ok hdb' →
  burned (state hdb') = burned (state hdb) + burnedIn block
  ∧ value (state hdb') = value (state hdb) + addedIn block - spentIn view block
  ∧ ∀ (st : ChainState) (out : Output),
      isUnspendable out = false →
      isRegister (covenant out) = true →
      burned (connectOutput st out) = burned st + ovalue out
      ∧ value (connectOutput st out) = value st.
Proof.
  unfold saveEntry. intros H.
  apply bind_Ok in H as (st' & Hst & [= <-]). simpl.
  destruct (connectBlock_totals _ _ _ _ Hst) as [Hb Hv].
  split; [exact Hb|]. split; [exact Hv|].
  intros st out Hu Hr.
  destruct (connectOutput_totals st out) as [Hb1 Hv1].
  rewrite Hb1, Hv1. unfold burnOf, coinOf, isBurn, isCoin.
  rewrite Hu, Hr. simpl. lia.
Qed.

Lemma register_outputs_are_burned_witness :
  burned (state Sample.connected2) = burned (state Sample.fresh) + 300
  ∧ value (state Sample.connected2) = value (state Sample.fresh) + 3500 - 2000.
Proof.
  destruct (register_outputs_are_burned Sample.fresh Sample.connected2
              Sample.block2 Sample.view2) as (Hb & Hv & _).
  - vm_compute. reflexivity.
  - split; [exact Hb | exact Hv].
Defined.

(** ** Outputs of the administrative range *)

Lemma connectOutput_admin (st : ChainState) (out : Output) :
  inAdminRange out = true → connectOutput st out = st.
Proof.
  unfold inAdminRange, connectOutput, isRegister. intros H.
  destruct (isUnspendable out); [reflexivity|].
  destruct (ctype (covenant out) =? types.REGISTER) eqn:Hr.
  - apply Z.eqb_eq in Hr. rewrite Hr in H. vm_compute in H. discriminate.
  - rewrite H. reflexivity.
Qed.

Lemma connectOutputs_without_admin (outs : list Output) (st : ChainState) :
  connectOutputs st (filter (fun out => inAdminRange out = false) outs)
  = connectOutputs st outs.
Proof.
  unfold connectOutputs. revert st.
  induction outs as [|out outs IH]; intros st; [reflexivity|].
  rewrite filter_cons. destruct (inAdminRange out) eqn:Ha.
  - rewrite decide_False by discriminate. simpl.
    rewrite (connectOutput_admin st out Ha). apply IH.
  - rewrite decide_True by reflexivity. simpl. apply IH.
Qed.

Lemma connectTXs_without_admin (view : CoinView) (l : list TX) (idx : nat)
  (st : ChainState) :
  connectTXs view idx
    (map (fun t => {| txid := txid t; inputs := inputs t;
                      outputs := filter (fun out => inAdminRange out = false)
                                        (outputs t) |}) l) st
  = connectTXs view idx l st.
Proof.
  revert idx st. induction l as [|t l IH]; intros idx st; simpl.
  - reflexivity.
  - destruct (if (0 <? idx)%nat then forM (spendInput view) (inputs t) st
              else Ok st) as [s1|e]; simpl; [|reflexivity].
    rewrite connectOutputs_without_admin. apply IH.
Qed.

(** C3. Administrative covenants: connecting a block gives the same chain
    state, coin count, circulating value and burned value included, as
    connecting it with every output of the range update..revoke taken out;
    such an output, met by the loop over the outputs, leaves the state it
    finds untouched. *)
Theorem admin_outputs_are_skipped
  (hdb : HnscanDB) (block : Block) (view : CoinView) :
  saveEntry hdb (withoutOutputs inAdminRange block) view
  = saveEntry hdb block view
  ∧ ∀ (st : ChainState) (out : Output),
      types.UPDATE <= ctype (covenant out) <= types.REVOKE →
      connectOutput st out = st.
Proof.
  split.
  - unfold saveEntry, connectBlock, withoutOutputs. simpl.
    rewrite connectTXs_without_admin.
    unfold ChainState_.connect. simpl. rewrite length_map. reflexivity.
  - intros st out [Hlo Hhi]. apply connectOutput_admin.
    unfold inAdminRange. apply andb_true_iff.
    split; apply Z.leb_le; assumption.
Qed.

(** ** The chart aggregator *)

Lemma fold_combine (rest : list ChartData) (p : ChartData) :
  let r := fold_left ChartData_.combine rest p in
  time r = time p
  ∧ difficulty r = fold_left PrimFloat.add (map difficulty rest) (difficulty p)
  ∧ transactions r = transactions p + sumZ (map transactions rest)
  ∧ supply r = fold_left Z.max (map supply rest) (supply p)
  ∧ cburned r = fold_left Z.max (map cburned rest) (cburned p)
  ∧ totalTx r = fold_left Z.max (map totalTx rest) (totalTx p).
Proof.
  revert p. induction rest as [|q rest IH]; intros p; simpl.
  - unfold sumZ. simpl. repeat split; try reflexivity. lia.
  - destruct (IH (ChartData_.combine p q)) as (Ht & Hd & Hn & Hs & Hb & Hx).
    simpl in *. rewrite Ht, Hd, Hn, Hs, Hb, Hx.
    unfold sumZ. simpl. repeat split; try reflexivity. lia.
Qed.

Lemma fold_max_ge (l : list Z) (a : Z) : a <= fold_left Z.max l a.
Proof.
  revert a. induction l as [|x l IH]; intros a; simpl; [lia|].
  specialize (IH (Z.max a x)). lia.
Qed.

Lemma fold_max_isMaxOf (f : ChartData → Z) (rest : list ChartData)
  (p : ChartData) :
  isMaxOf f (p :: rest) (fold_left Z.max (map f rest) (f p)).
Proof.
  unfold isMaxOf.
  assert (H : ∀ (l : list ChartData) (a : Z),
             Forall (fun q => f q <= fold_left Z.max (map f l) a) l
             ∧ (fold_left Z.max (map f l) a = a
                ∨ Exists (fun q => f q = fold_left Z.max (map f l) a) l)).
  { intros l. induction l as [|q l IH]; intros a; simpl.
    - split; [constructor | left; reflexivity].
    - destruct (IH (Z.max a (f q))) as [Hall Hex]. split.
      + constructor; [|exact Hall].
        pose proof (fold_max_ge (map f l) (Z.max a (f q))). lia.
      + destruct Hex as [Heq | Hex].
        * destruct (Z.max_spec a (f q)) as [[_ Hm] | [_ Hm]].
          -- right. constructor. rewrite Heq, Hm. reflexivity.
          -- left. rewrite Heq, Hm. reflexivity.
        * right. apply Exists_cons_tl. exact Hex. }
  destruct (H rest (f p)) as [Hall Hex]. split.
  - constructor; [apply fold_max_ge | exact Hall].
  - destruct Hex as [Heq | Hex].
    + constructor. rewrite Heq. reflexivity.
    + apply Exists_cons_tl. exact Hex.
Qed.

(** The record a non-empty buffer is flushed to. *)
Lemma fromArray_cons (p : ChartData) (rest : list ChartData) :
  ∃ avg, ChartData_.fromArray (p :: rest) = Ok avg
         ∧ time avg = dayOf (time p)
         ∧ difficulty avg = orZero (meanDifficulty (p :: rest))
         ∧ transactions avg = sumZ (map transactions (p :: rest))
         ∧ isMaxOf supply (p :: rest) (supply avg)
         ∧ isMaxOf cburned (p :: rest) (cburned avg)
         ∧ isMaxOf totalTx (p :: rest) (totalTx avg).
Proof.
  unfold ChartData_.fromArray, reduce. simpl bind. eexists. split; [reflexivity|].
  destruct (fold_combine rest p) as (Ht & Hd & Hn & Hs & Hb & Hx).
  cbn [time difficulty transactions supply cburned totalTx
       ChartData_.fromObject]. simpl head. simpl default.
  rewrite Hd, Hn, Hs, Hb, Hx.
  repeat split; try apply fold_max_isMaxOf; try apply Forall_cons.
Qed.

(** Whatever was observed since the constructor, the call returns, and an
    open bucket holds at least one point. *)
Lemma setChartData_buffer (hdb hdb' : HnscanDB) (data : ChartData) :
  setChartData hdb data = Ok hdb' → chartDataCurrent hdb' ≠ [].
Proof.
  unfold setChartData.
  destruct (chartDataCurrentDate hdb =? 0).
  - intros [= <-]. simpl. destruct (chartDataCurrent hdb); discriminate.
  - destruct (dayOf (time data) >? chartDataCurrentDate hdb).
    + intros H. apply bind_Ok in H as (avg & _ & [= <-]). discriminate.
    + intros [= <-]. simpl. destruct (chartDataCurrent hdb); discriminate.
Qed.

Lemma setChartData_total (hdb : HnscanDB) (data : ChartData) :
  (chartDataCurrentDate hdb ≠ 0 → chartDataCurrent hdb ≠ []) →
  ∃ hdb', setChartData hdb data = Ok hdb'.
Proof.
  intros Hinv. unfold setChartData.
  destruct (chartDataCurrentDate hdb =? 0) eqn:H0; [eexists; reflexivity|].
  destruct (dayOf (time data) >? chartDataCurrentDate hdb);
    [|eexists; reflexivity].
  apply Z.eqb_neq in H0. specialize (Hinv H0).
  destruct (chartDataCurrent hdb) as [|p rest]; [congruence|].
  destruct (fromArray_cons p rest) as (avg & -> & _).
  simpl. eexists. reflexivity.
Qed.

Lemma observeAll_buffer (points : list ChartData) (hdb hdb' : HnscanDB) :
  (chartDataCurrentDate hdb ≠ 0 → chartDataCurrent hdb ≠ []) →
  observeAll hdb points = Ok hdb' →
  chartDataCurrentDate hdb' ≠ 0 → chartDataCurrent hdb' ≠ [].
Proof.
  revert hdb. induction points as [|p points IH]; intros hdb Hinv.
  - intros [= <-]. exact Hinv.
  - unfold observeAll. simpl. intros H.
    apply bind_Ok in H as (h1 & H1 & H2).
    apply (IH h1); [|exact H2].
    intros _. apply (setChartData_buffer _ _ _ H1).
Qed.

Lemma observeAll_total (points : list ChartData) (hdb : HnscanDB) :
  (chartDataCurrentDate hdb ≠ 0 → chartDataCurrent hdb ≠ []) →
  ∃ hdb', observeAll hdb points = Ok hdb'.
Proof.
  revert hdb. induction points as [|p points IH]; intros hdb Hinv.
  - exists hdb. reflexivity.
  - unfold observeAll. simpl.
    destruct (setChartData_total hdb p Hinv) as (h1 & H1). rewrite H1. simpl.
    apply IH. intros _. apply (setChartData_buffer _ _ _ H1).
Qed.

Lemma writeU64_fits (n : Z) : fits53 n → writeU64 n = n.
Proof.
  unfold fits53, writeU64. intros Hn. apply Z.mod_small.
  split; [lia|]. apply (Z.lt_trans _ (2 ^ 53)); [lia | reflexivity].
Qed.

(** The flush, for any index whose bucket is open and holds [p :: rest]. *)
Lemma setChartData_flush (hdb : HnscanDB) (data p : ChartData)
  (rest : list ChartData) :
  chartDataCurrentDate hdb ≠ 0 →
  chartDataCurrent hdb = p :: rest →
  chartDataCurrentDate hdb < dayOf (time data) →
  ∃ avg,
    setChartData hdb data
    = Ok (set_chart hdb
            (put_d (db hdb) (dayOf (time data) * 3600 * 24) (encodeChart avg))
            (dayOf (time data)) [data])
    ∧ difficulty avg = orZero (meanDifficulty (p :: rest))
    ∧ transactions avg = sumZ (map transactions (p :: rest))
    ∧ isMaxOf supply (p :: rest) (supply avg)
    ∧ isMaxOf cburned (p :: rest) (cburned avg)
    ∧ isMaxOf totalTx (p :: rest) (totalTx avg).
Proof.
  intros H0 Hbuf Hlt. unfold setChartData.
  apply Z.eqb_neq in H0. rewrite H0.
  assert (Hgt : (dayOf (time data) >? chartDataCurrentDate hdb) = true)
    by (rewrite Z.gtb_ltb; apply Z.ltb_lt; exact Hlt).
  rewrite Hgt, Hbuf.
  destruct (fromArray_cons p rest) as (avg & -> & _ & Hd & Hn & Hs & Hb & Hx).
  exists avg. simpl.
  split; [reflexivity|]. split; [exact Hd|]. split; [exact Hn|].
  split; [exact Hs|]. split; [exact Hb | exact Hx].
Qed.

(** C4, as amended. Chart bucketing: once points were observed and a bucket
    is open, a point of a later day makes [setChartData] return, and write
    exactly one daily record, built from the buffered points: its difficulty
    is their mean (their sum divided by their number, a result of 0 or NaN
    being stored as 0), its transactions field is the sum of theirs, and its
    supply, burned and total transaction fields are the maximum of theirs.
    The record goes under the time at which the day of the new point
    starts, nothing else in the store changes, the buffer is reset to the
    new point alone and the current day becomes the day of the new point.
    What the store holds is the record as [write] lays it out: the
    difficulty as it is, the transactions in 32 bits (the sum modulo 2^32)
    and the other three fields in 64 bits, which carry a number that is not
    negative and below 2^53 unchanged. *)
Theorem chart_flush
  (magic : Z) (chain : gmap Hash TX) (store : DB)
  (points : list ChartData) (hdb : HnscanDB) (data : ChartData) :
  observeAll (newHnscanDB magic chain store) points = Ok hdb →
  chartDataCurrentDate hdb ≠ 0 →
  chartDataCurrentDate hdb < dayOf (time data) →
  ∃ (record : ChartData) (hdb' : HnscanDB),
    setChartData hdb data = Ok hdb'
    ∧ db hdb'
      = put_d (db hdb) (dayOf (time data) * 86400) (encodeChart record)
    ∧ difficulty record = orZero (meanDifficulty (chartDataCurrent hdb))
    ∧ transactions record = sumZ (map transactions (chartDataCurrent hdb))
    ∧ isMaxOf supply (chartDataCurrent hdb) (supply record)
    ∧ isMaxOf cburned (chartDataCurrent hdb) (cburned record)
    ∧ isMaxOf totalTx (chartDataCurrent hdb) (totalTx record)
    ∧ rdifficulty (encodeChart record) = difficulty record
    ∧ rtransactions (encodeChart record) = transactions record mod 2 ^ 32
    ∧ (fits53 (supply record) →
       rsupply (encodeChart record) = supply record)
    ∧ (fits53 (cburned record) →
       rcburned (encodeChart record) = cburned record)
    ∧ (fits53 (totalTx record) →
       rtotalTx (encodeChart record) = totalTx record)
    ∧ chartDataCurrent hdb' = [data]
    ∧ chartDataCurrentDate hdb' = dayOf (time data).
Proof.
  intros Hobs H0 Hlt.
  assert (Hne : chartDataCurrent hdb ≠ []).
  { apply (observeAll_buffer points (newHnscanDB magic chain store) hdb);
      [|exact Hobs|exact H0].
    simpl. intros Habs. congruence. }
  destruct (chartDataCurrent hdb) as [|p rest] eqn:Hbuf; [congruence|].
  destruct (setChartData_flush hdb data p rest H0 Hbuf Hlt)
    as (avg & Hset & Hd & Hn & Hs & Hb & Hx).
  exists avg. eexists. split; [exact Hset|]. cbn [db set_chart].
  replace (dayOf (time data) * 3600 * 24) with (dayOf (time data) * 86400)
    by lia.
  split; [reflexivity|]. split; [exact Hd|]. split; [exact Hn|].
  split; [exact Hs|]. split; [exact Hb|]. split; [exact Hx|].
  split; [reflexivity|]. split; [reflexivity|].
  split; [apply writeU64_fits|]. split; [apply writeU64_fits|].
  split; [apply writeU64_fits|]. split; reflexivity.
Qed.

Lemma chart_flush_witness :
  ∃ (record : ChartData) (hdb' : HnscanDB),
    setChartData Sample.day2 Sample.p3 = Ok hdb'
    ∧ db hdb'
      = put_d (db Sample.day2) (dayOf (time Sample.p3) * 86400)
          (encodeChart record)
    ∧ difficulty record
      = orZero (meanDifficulty (chartDataCurrent Sample.day2))
    ∧ transactions record
      = sumZ (map transactions (chartDataCurrent Sample.day2))
    ∧ isMaxOf supply (chartDataCurrent Sample.day2) (supply record)
    ∧ isMaxOf cburned (chartDataCurrent Sample.day2) (cburned record)
    ∧ isMaxOf totalTx (chartDataCurrent Sample.day2) (totalTx record)
    ∧ rdifficulty (encodeChart record) = difficulty record
    ∧ rtransactions (encodeChart record) = transactions record mod 2 ^ 32
    ∧ (fits53 (supply record) →
       rsupply (encodeChart record) = supply record)
    ∧ (fits53 (cburned record) →
       rcburned (encodeChart record) = cburned record)
    ∧ (fits53 (totalTx record) →
       rtotalTx (encodeChart record) = totalTx record)
    ∧ chartDataCurrent hdb' = [Sample.p3]
    ∧ chartDataCurrentDate hdb' = dayOf (time Sample.p3).
Proof.
  apply (chart_flush Sample.magic ∅ emptyDB
           [Sample.p0; Sample.p1; Sample.p2] Sample.day2 Sample.p3).
  - vm_compute. reflexivity.
  - vm_compute. discriminate.
  - vm_compute. reflexivity.
Defined.

(** C4, as stated, fails. With the bucket of day 2 open on two points, a
    point of day 3 is observed: the record is written under the start of
    day 3 and nothing under the start of day 2 changes, and its transactions
    field is 5, the sum of 4 and 1, not their maximum. *)
Lemma chart_flush_counterexample :
  ∃ hdb' : HnscanDB,
    setChartData Sample.day2 Sample.p3 = Ok hdb'
    ∧ chartDataCurrentDate Sample.day2 = 2
    ∧ map transactions (chartDataCurrent Sample.day2) = [4; 1]
    ∧ db_d (db hdb') !! (2 * 86400) = db_d (db Sample.day2) !! (2 * 86400)
    ∧ rtransactions <$> db_d (db hdb') !! (3 * 86400) = Some 5
    ∧ ¬ flushAsSpecified Sample.day2 hdb' Sample.p3.
Proof.
  eexists. split; [vm_compute; reflexivity|].
  split; [vm_compute; reflexivity|].
  split; [vm_compute; reflexivity|].
  split; [vm_compute; reflexivity|].
  split; [vm_compute; reflexivity|].
  intros (rec & Heq & _).
  apply (f_equal (fun m : gmap Z RawChart =>
                    match m !! (3 * 86400) with
                    | Some _ => true
                    | None => false
                    end)) in Heq.
  vm_compute in Heq. discriminate.
Qed.

(** Points that neither open nor close a bucket are appended to it. *)
Lemma observeAll_same_bucket (points : list ChartData) (hdb : HnscanDB) :
  chartDataCurrentDate hdb ≠ 0 →
  Forall (fun x => dayOf (time x) <= chartDataCurrentDate hdb) points →
  observeAll hdb points
  = Ok (set_chart hdb (db hdb) (chartDataCurrentDate hdb)
          (chartDataCurrent hdb ++ points)).
Proof.
  intros H0 Hall. revert hdb H0 Hall.
  induction points as [|x points IH]; intros hdb H0 Hall.
  - unfold observeAll. simpl. rewrite app_nil_r. destruct hdb; reflexivity.
  - inversion Hall as [|? ? Hx Hrest]; subst.
    unfold observeAll. simpl. unfold setChartData at 1.
    apply Z.eqb_neq in H0 as H0'. rewrite H0'.
    assert (Hgt : (dayOf (time x) >? chartDataCurrentDate hdb) = false)
      by (rewrite Z.gtb_ltb; apply Z.ltb_ge; exact Hx).
    rewrite Hgt. simpl. fold (observeAll
      (set_chart hdb (db hdb) (chartDataCurrentDate hdb)
         (chartDataCurrent hdb ++ [x])) points).
    rewrite IH; [|exact H0|exact Hrest]. simpl.
    rewrite <- app_assoc. reflexivity.
Qed.

(** C10. The first point is buffered twice: the first call after the
    constructor takes the initialization branch, which pushes the point, and
    then reaches the push that ends the method, so the buffer holds the
    point twice. When the points that follow stay in that bucket and a point
    of a later day then closes it, the record that is written counts the
    first point twice: twice in the sum of the transactions, and twice in
    the mean of the difficulties, which is taken over two more points than
    followed the first. The store holds the record as [write] lays it out,
    the transactions in 32 bits. *)
Theorem first_point_is_buffered_twice
  (magic : Z) (chain : gmap Hash TX) (store : DB)
  (p : ChartData) (points : list ChartData) (q : ChartData) :
  dayOf (time p) ≠ 0 →
  Forall (fun x => dayOf (time x) <= dayOf (time p)) points →
  dayOf (time p) < dayOf (time q) →
  ∃ (hdb1 hdb2 : HnscanDB) (record : ChartData),
    setChartData (newHnscanDB magic chain store) p = Ok hdb1
    ∧ chartDataCurrent hdb1 = [p; p]
    ∧ observeAll hdb1 (points ++ [q]) = Ok hdb2
    ∧ db hdb2 = put_d store (dayOf (time q) * 86400) (encodeChart record)
    ∧ transactions record
      = 2 * transactions p + sumZ (map transactions points)
    ∧ difficulty record = orZero (meanDifficulty (p :: p :: points))
    ∧ rtransactions (encodeChart record)
      = (2 * transactions p + sumZ (map transactions points)) mod 2 ^ 32
    ∧ rdifficulty (encodeChart record)
      = orZero (meanDifficulty (p :: p :: points))
    ∧ chartDataCurrent hdb2 = [q].
Proof.
  intros H0 Hall Hlt.
  set (hdb0 := newHnscanDB magic chain store).
  set (hdb1 := set_chart hdb0 store (dayOf (time p)) [p; p]).
  assert (H1 : setChartData hdb0 p = Ok hdb1) by reflexivity.
  assert (Hmid : observeAll hdb1 points
                 = Ok (set_chart hdb1 store (dayOf (time p))
                         ([p; p] ++ points)))
    by (apply (observeAll_same_bucket points hdb1); assumption).
  destruct (setChartData_flush
              (set_chart hdb1 store (dayOf (time p)) ([p; p] ++ points))
              q p (p :: points) H0 eq_refl Hlt)
    as (avg & Hq & Hd & Hn & _).
  assert (Hsum : transactions avg
                 = 2 * transactions p + sumZ (map transactions points)).
  { rewrite Hn. unfold sumZ. simpl. lia. }
  exists hdb1. eexists. exists avg.
  split; [exact H1|]. split; [reflexivity|]. split.
  { unfold observeAll. rewrite forM_app.
    fold (observeAll hdb1 points). rewrite Hmid. cbn [bind forM].
    rewrite Hq. reflexivity. }
  cbn [db set_chart chartDataCurrent].
  replace (dayOf (time q) * 3600 * 24) with (dayOf (time q) * 86400) by lia.
  split; [reflexivity|]. split; [exact Hsum|]. split; [exact Hd|].
  split; [cbn [encodeChart rtransactions]; unfold writeU32; rewrite Hsum;
          reflexivity|].
  split; [exact Hd | reflexivity].
Qed.

Lemma first_point_is_buffered_twice_witness :
  ∃ (hdb1 hdb2 : HnscanDB) (record : ChartData),
    setChartData (newHnscanDB Sample.magic ∅ emptyDB) Sample.p1 = Ok hdb1
    ∧ chartDataCurrent hdb1 = [Sample.p1; Sample.p1]
    ∧ observeAll hdb1 ([Sample.p2] ++ [Sample.p3]) = Ok hdb2
    ∧ db hdb2
      = put_d emptyDB (dayOf (time Sample.p3) * 86400) (encodeChart record)
    ∧ transactions record
      = 2 * transactions Sample.p1 + sumZ (map transactions [Sample.p2])
    ∧ difficulty record
      = orZero (meanDifficulty (Sample.p1 :: Sample.p1 :: [Sample.p2]))
    ∧ rtransactions (encodeChart record)
      = (2 * transactions Sample.p1 + sumZ (map transactions [Sample.p2]))
        mod 2 ^ 32
    ∧ rdifficulty (encodeChart record)
      = orZero (meanDifficulty (Sample.p1 :: Sample.p1 :: [Sample.p2]))
    ∧ chartDataCurrent hdb2 = [Sample.p3].
Proof.
  apply (first_point_is_buffered_twice Sample.magic ∅ emptyDB
           Sample.p1 [Sample.p2] Sample.p3).
  - vm_compute. discriminate.
  - repeat constructor. vm_compute. discriminate.
  - vm_compute. reflexivity.
Defined.

(** ** Opening the store *)

(** [open] never reads the network magic: what it returns depends on the
    version record and on the chain-state slot alone. *)
Lemma open_result (hdb : HnscanDB) :
  open hdb
  = bind (db_verify (db hdb) "hnscan" 0)
      (fun store =>
         bind (from_option decodeState (Ok (state hdb)) (db_s store))
           (fun st => Ok (set_state (set_db hdb store) st (pending hdb)))).
Proof.
  unfold open, getState.
  destruct (db_verify (db hdb) "hnscan" 0) as [store|e]; simpl; [|reflexivity].
  destruct (db_s store) as [data|]; simpl.
  - destruct (decodeState data); reflexivity.
  - destruct hdb; reflexivity.
Qed.

Lemma readU64_writeU64 (n : Z) :
  0 <= n < 2 ^ 53 → readU64 (writeU64 n) = Ok n.
Proof.
  intros Hn. unfold readU64, writeU64.
  rewrite Z.mod_small by (split; [lia|];
    apply (Z.lt_trans _ (2 ^ 53)); [lia | reflexivity]).
  replace (n <? 2 ^ 53) with true by (symmetry; apply Z.ltb_lt; lia).
  reflexivity.
Qed.

(** A negative total is written as a number of 64 bits that [readU64]
    refuses. *)
Lemma readU64_writeU64_negative (n : Z) :
  - 2 ^ 53 <= n < 0 → is_Ok (readU64 (writeU64 n)) = false.
Proof.
  intros Hn. unfold readU64, writeU64.
  assert (Hmod : n mod 2 ^ 64 = n + 2 ^ 64).
  { symmetry. apply (Z.mod_unique n (2 ^ 64) (-1)); lia. }
  rewrite Hmod.
  replace (n + 2 ^ 64 <? 2 ^ 53) with false
    by (symmetry; apply Z.ltb_ge; lia).
  reflexivity.
Qed.

Lemma db_verify_slot (store store' : DB) (name : string) (version : Z) :
  db_verify store name version = Ok store' → db_s store' = db_s store.
Proof.
  unfold db_verify. destruct (db_V store) as [[nm v]|].
  - destruct (bool_decide (nm = name) && (v =? version))%bool;
      [intros [= <-]; reflexivity | discriminate].
  - intros [= <-]. reflexivity.
Qed.

(** C9. Opening a store that holds no chain state: when the version check
    of the store passes, [open] on the index just constructed returns, and
    the chain state it leaves is the one of the constructor - the tip is the
    zero hash of 32 bytes and the transaction count, the coin count, the
    circulating value and the burned value are 0. *)
Theorem open_without_state_is_genesis
  (magic : Z) (chain : gmap Hash TX) (store : DB) :
  db_s store = None →
  is_Ok (db_verify store "hnscan" 0) = true →
  ∃ hdb' : HnscanDB,
    open (newHnscanDB magic chain store) = Ok hdb'
    ∧ tip (state hdb') = replicate 32 0%N
    ∧ tx (state hdb') = 0
    ∧ coin (state hdb') = 0
    ∧ value (state hdb') = 0
    ∧ burned (state hdb') = 0.
Proof.
  intros Hs Hv. rewrite open_result. simpl.
  destruct (db_verify store "hnscan" 0) as [store'|e] eqn:Hver;
    [|discriminate].
  simpl. rewrite (db_verify_slot _ _ _ _ Hver), Hs. simpl.
  eexists. split; [reflexivity|]. simpl.
  repeat split; reflexivity.
Qed.

Lemma open_without_state_is_genesis_witness :
  ∃ hdb' : HnscanDB,
    open (newHnscanDB Sample.magic ∅ emptyDB) = Ok hdb'
    ∧ tip (state hdb') = replicate 32 0%N
    ∧ tx (state hdb') = 0
    ∧ coin (state hdb') = 0
    ∧ value (state hdb') = 0
    ∧ burned (state hdb') = 0.
Proof.
  apply (open_without_state_is_genesis Sample.magic ∅ emptyDB);
    vm_compute; reflexivity.
Defined.

(** A state that was saved is the state [open] loads. *)
Lemma decodeState_encodeState (s : ChainState) :
  storable s →
  decodeState (encodeState s)
  = Ok {| tip := tip s; tx := tx s; coin := coin s; value := value s;
          burned := burned s; committed := false |}.
Proof.
  intros (Ht & Hc & Hv & Hb). unfold decodeState, encodeState, fits53 in *.
  cbn [rtip rtx rcoin rvalue rburned].
  rewrite !readU64_writeU64 by assumption. reflexivity.
Qed.

Lemma open_after_saveState (hdb : HnscanDB) (magic : Z)
  (chain : gmap Hash TX) :
  is_Ok (db_verify (db hdb) "hnscan" 0) = true →
  storable (state hdb) →
  ∃ hdb' : HnscanDB,
    open (newHnscanDB magic chain (db (saveState hdb))) = Ok hdb'
    ∧ encodeState (state hdb') = encodeState (state hdb).
Proof.
  intros Hv Hst. rewrite open_result. cbn [db newHnscanDB].
  assert (Hs : ∀ store', db_verify (db (saveState hdb)) "hnscan" 0 = Ok store' →
                 db_s store' = Some (encodeState (state hdb))).
  { intros store' H. rewrite (db_verify_slot _ _ _ _ H). reflexivity. }
  destruct (db_verify (db (saveState hdb)) "hnscan" 0) as [store'|e] eqn:Hver.
  - cbn [bind]. rewrite (Hs store' eq_refl). cbn [bind from_option].
    rewrite (decodeState_encodeState _ Hst). cbn [bind].
    eexists. split; [reflexivity|]. reflexivity.
  - exfalso. unfold db_verify in *. cbn [db saveState set_db set_s db_V] in Hver.
    destruct (db_V (db hdb)) as [[nm v]|]; [|discriminate].
    destruct (bool_decide (nm = "hnscan") && (v =? 0))%bool; discriminate.
Qed.

Lemma verifyNetwork_mismatch (hdb : HnscanDB) (raw : Z) :
  db_O (db hdb) = Some raw →
  raw ≠ network_magic hdb →
  verifyNetwork hdb = Throw "Error: Network mismatch for HnscanDB.".
Proof.
  intros HO Hne. unfold verifyNetwork, toU32. rewrite HO.
  apply Z.eqb_neq in Hne. rewrite Hne. reflexivity.
Qed.

(** On any store of another network whose version record is accepted and
    whose chain state, if it holds one, decodes, [verifyNetwork] throws and
    [open] returns. *)
Lemma open_skips_verifyNetwork (hdb : HnscanDB) (raw : Z) :
  db_O (db hdb) = Some raw →
  raw ≠ network_magic hdb →
  is_Ok (db_verify (db hdb) "hnscan" 0) = true →
  is_Ok (getState hdb) = true →
  verifyNetwork hdb = Throw "Error: Network mismatch for HnscanDB."
  ∧ is_Ok (open hdb) = true.
Proof.
  intros HO Hne Hv Hst. split; [apply (verifyNetwork_mismatch hdb raw HO Hne)|].
  rewrite open_result.
  destruct (db_verify (db hdb) "hnscan" 0) as [store|e] eqn:Hver;
    [|discriminate].
  cbn [bind]. rewrite (db_verify_slot _ _ _ _ Hver).
  unfold getState in Hst.
  destruct (db_s (db hdb)) as [data|]; cbn [from_option bind];
    [|reflexivity].
  destruct (decodeState data); [reflexivity | discriminate].
Qed.

(** C8, on a store of another network. The persisted magic differs from the
    configured one and [verifyNetwork] would throw on it; [open] does not
    call it and returns, and a query on the opened index answers. *)
Theorem open_past_network_mismatch :
  db_O (db Sample.otherNet) = Some 0x4a9e57cf
  ∧ network_magic Sample.otherNet = 0x8efa1fbe
  ∧ verifyNetwork Sample.otherNet
    = Throw "Error: Network mismatch for HnscanDB."
  ∧ open Sample.otherNet = Ok Sample.otherNet
  ∧ is_Ok (addressBalance Sample.otherNet Sample.addrA) = true.
Proof.
  repeat split; vm_compute; reflexivity.
Qed.

(** ** The address index *)

Lemma mapM_Ok {A B : Type} (f : A → result B) (l : list A) (ys : list B) :
  mapM f l = Ok ys ↔ Forall2 (fun x y => f x = Ok y) l ys.
Proof.
  revert ys. induction l as [|x l IH]; intros ys; simpl.
  - split.
    + intros [= <-]. constructor.
    + intros H. inversion H. reflexivity.
  - split.
    + intros H. apply bind_Ok in H as (y & Hy & H).
      apply bind_Ok in H as (ys' & Hys & [= <-]).
      constructor; [exact Hy | apply IH; exact Hys].
    + intros H. inversion H as [|? y ? ys' Hy Hys]; subst.
      rewrite Hy. simpl. apply IH in Hys. rewrite Hys. reflexivity.
Qed.

Lemma mapM_total {A B : Type} (f : A → result B) (l : list A) :
  Forall (fun x => is_Ok (f x) = true) l → ∃ ys, mapM f l = Ok ys.
Proof.
  induction 1 as [|x l Hx _ (ys & IH)]; simpl.
  - eexists. reflexivity.
  - destruct (f x) as [y|e]; [|discriminate]. simpl. rewrite IH. simpl.
    eexists. reflexivity.
Qed.

(** The entries [iterate] yields are those of the prefix, one per key. *)
Lemma elem_of_iterate (m : gmap (Hash * Hash) Z) (hash key : Hash) (v : Z) :
  (key, v) ∈ iterate m hash ↔ m !! (hash, key) = Some v.
Proof.
  unfold iterate. rewrite merge_sort_Permutation, list_elem_of_omap. split.
  - intros ([[k1 k2] v'] & Hin & Hg). simpl in Hg.
    destruct (decide (k1 = hash)) as [->|]; [|discriminate].
    injection Hg as -> ->. apply elem_of_map_to_list in Hin. exact Hin.
  - intros Hm. exists ((hash, key), v). split.
    + apply elem_of_map_to_list. exact Hm.
    + simpl. rewrite decide_True by reflexivity. reflexivity.
Qed.

Lemma NoDup_iterate (m : gmap (Hash * Hash) Z) (hash : Hash) :
  NoDup (map fst (iterate m hash)).
Proof.
  assert (Hfun : ∀ k v1 v2, (k, v1) ∈ iterate m hash →
                            (k, v2) ∈ iterate m hash → v1 = v2).
  { intros k v1 v2 H1 H2. apply elem_of_iterate in H1, H2. congruence. }
  assert (Hnd : NoDup (iterate m hash)).
  { unfold iterate. rewrite merge_sort_Permutation.
    pose proof (NoDup_map_to_list m) as Hm. revert Hm.
    induction (map_to_list m) as [|[[k1 k2] v] l IH]; intros Hm; simpl.
    - constructor.
    - inversion Hm as [|? ? Hnin Hl]; subst.
      destruct (decide (k1 = hash)) as [->|]; [|apply IH; exact Hl].
      constructor; [|apply IH; exact Hl].
      rewrite list_elem_of_omap. intros ([[k1' k2'] v'] & Hin & Hg).
      simpl in Hg. destruct (decide (k1' = hash)) as [->|]; [|discriminate].
      injection Hg as <- <-. contradiction. }
  revert Hfun Hnd. generalize (iterate m hash). intros l.
  induction l as [|[k v] l IH]; intros Hfun Hnd; simpl.
  - constructor.
  - inversion Hnd as [|? ? Hnin Hl]; subst. constructor.
    + intros Hin. apply list_elem_of_fmap in Hin as ([k' v'] & Hk & Hin).
      simpl in Hk. subst k'.
      assert (v = v') by (apply (Hfun k); [left | right; exact Hin]).
      subst v'. contradiction.
    + apply IH; [|exact Hl].
      intros k' v1 v2 H1 H2. apply (Hfun k'); right; assumption.
Qed.

Lemma all_Some {A : Type} (l : list (option A)) :
  Forall is_Some l → ∃ vals, l = map Some vals.
Proof.
  induction 1 as [|x l [v ->] _ (vals & ->)].
  - exists []. reflexivity.
  - exists (v :: vals). reflexivity.
Qed.

Lemma fold_jsadd {A : Type} (f : A → jsnum) (l : list A) (vals : list Z)
  (acc : Z) :
  map f l = map Some vals →
  fold_left (fun total x => jsadd total (f x)) l (Some acc)
  = Some (acc + sumZ vals).
Proof.
  revert vals acc. induction l as [|x l IH]; intros vals acc; simpl.
  - destruct vals; [|discriminate]. intros _. unfold sumZ. simpl.
    f_equal. lia.
  - destruct vals as [|v vals]; [discriminate|]. simpl.
    intros [= Hx Hl]. rewrite Hx. simpl. rewrite (IH vals _ Hl).
    unfold sumZ. simpl. f_equal. lia.
Qed.

Lemma funding_resolved (hdb : HnscanDB) (addr : Hash) :
  resolvesFunding hdb addr = true →
  ∃ funding, _addressFunding hdb addr = Ok funding ∧ Forall resolved funding.
Proof.
  unfold resolvesFunding, _addressFunding. intros H.
  rewrite forallb_forall in H.
  generalize dependent (iterate (db_o (db hdb)) addr). intros l H.
  induction l as [|kv l IH]; simpl.
  - exists []. split; [reflexivity | constructor].
  - assert (Hkv := H kv (or_introl eq_refl)).
    destruct IH as (funding & Hf & Hall);
      [intros x Hx; apply H; right; exact Hx|].
    unfold fundingOf at 1.
    destruct (client hdb !! kv.1) as [newtx|]; [|discriminate].
    apply bool_decide_eq_true in Hkv as [found Hfound].
    simpl. rewrite Hf. simpl. eexists. split; [reflexivity|].
    constructor; [|exact Hall].
    unfold resolved. simpl. rewrite Hfound. simpl. split; eexists; reflexivity.
Qed.

Lemma spentOf_total (hdb : HnscanDB) (f : Funding) :
  resolvesPointers hdb = true →
  is_Some (f_output_index f) →
  is_Ok (spentOf hdb f) = true.
Proof.
  unfold resolvesPointers. intros H [idx Hidx].
  rewrite forallb_forall in H.
  unfold spentOf. rewrite Hidx. simpl.
  destruct (db_i (db hdb) !! (take 8 (f_tx_hash f), idx)) as [X|] eqn:Hi;
    [|reflexivity].
  apply elem_of_map_to_list, list_elem_of_In, H in Hi. simpl in Hi.
  apply bool_decide_eq_true in Hi as [raw ->]. reflexivity.
Qed.

(** A spent record repeats the pair and the value of the funding record it
    was made for. *)
Lemma spentOf_fields (hdb : HnscanDB) (f : Funding) (sp : Spent) :
  spentOf hdb f = Ok (Some sp) →
  s_funding_output sp = (f_tx_hash f, f_output_index f)
  ∧ s_value sp = f_value f
  ∧ ∃ idx, f_output_index f = Some idx
           ∧ hasSpendPointer hdb (f_tx_hash f) idx = true.
Proof.
  unfold spentOf, hasSpendPointer. intros H.
  apply bind_Ok in H as ([pre idx] & Hkey & H).
  unfold layout_i_encode in Hkey.
  destruct (f_output_index f) as [idx'|]; [|discriminate].
  injection Hkey as <- <-.
  destruct (db_i (db hdb) !! (take 8 (f_tx_hash f), idx')) as [X|] eqn:Hi;
    [|discriminate].
  destruct (db_t (db hdb) !! X) as [raw|]; [|discriminate].
  injection H as <-. cbn [s_funding_output s_value].
  split; [reflexivity|]. split; [reflexivity|].
  exists idx'. split; [reflexivity|].
  apply bool_decide_eq_true. rewrite Hi. eexists. reflexivity.
Qed.

Lemma spents_of_funding (hdb : HnscanDB) (funding : list Funding)
  (spents : list Spent) :
  _addressSpent hdb funding = Ok spents →
  ∀ sp, sp ∈ spents ↔ ∃ f, f ∈ funding ∧ spentOf hdb f = Ok (Some sp).
Proof.
  unfold _addressSpent. intros H sp.
  apply bind_Ok in H as (found & Hfound & [= <-]).
  apply mapM_Ok in Hfound. rewrite list_elem_of_omap. split.
  - intros (r & Hr & Hid). simpl in Hid. subst r.
    apply list_elem_of_lookup in Hr as [k Hk].
    destruct (Forall2_lookup_r _ _ _ _ _ Hfound Hk) as (f & Hf & Hsp).
    exists f. split; [|exact Hsp].
    apply list_elem_of_lookup. exists k. exact Hf.
  - intros (f & Hf & Hsp).
    apply list_elem_of_lookup in Hf as [k Hk].
    destruct (Forall2_lookup_l _ _ _ _ _ Hfound Hk) as (r & Hr & Hsp').
    exists r. split.
    + apply list_elem_of_lookup. exists k. exact Hr.
    + rewrite Hsp in Hsp'. injection Hsp' as <-. reflexivity.
Qed.

Lemma spent_total (hdb : HnscanDB) (funding : list Funding) :
  resolvesPointers hdb = true →
  Forall resolved funding →
  ∃ spents, _addressSpent hdb funding = Ok spents
            ∧ Forall (fun sp => is_Some (s_value sp)) spents.
Proof.
  intros Hp Hall.
  destruct (mapM_total (spentOf hdb) funding) as (found & Hfound).
  { eapply Forall_impl; [exact Hall|].
    intros f [Hidx _]. apply spentOf_total; assumption. }
  assert (Hs : _addressSpent hdb funding = Ok (omap id found))
    by (unfold _addressSpent; rewrite Hfound; reflexivity).
  exists (omap id found). split; [exact Hs|].
  apply Forall_forall. intros sp Hsp.
  apply (spents_of_funding _ _ _ Hs) in Hsp as (f & Hf & Hsp).
  apply spentOf_fields in Hsp as (_ & -> & _).
  rewrite Forall_forall in Hall. apply (Hall f Hf).
Qed.

(** C5. Balance: for an address whose index agrees with the ledger,
    [addressBalance] returns; the funding records and the spent records it
    works on all carry a value, [received] is the sum of the former, [spent]
    the sum of the latter, [confirmed] their difference, and [unconfirmed]
    is the same as [confirmed]. *)
Theorem balance_is_funded_less_spent (hdb : HnscanDB) (addr : Hash) :
  resolvesFunding hdb addr = true →
  resolvesPointers hdb = true →
  ∃ (b : Balance) (funding : list Funding) (spents : list Spent)
    (fvals svals : list Z),
    addressBalance hdb addr = Ok b
    ∧ _addressFunding hdb addr = Ok funding
    ∧ _addressSpent hdb funding = Ok spents
    ∧ map f_value funding = map Some fvals
    ∧ map s_value spents = map Some svals
    ∧ received b = Some (sumZ fvals)
    ∧ spent b = Some (sumZ svals)
    ∧ confirmed b = Some (sumZ fvals - sumZ svals)
    ∧ unconfirmed b = confirmed b.
Proof.
  intros Hf Hp.
  destruct (funding_resolved hdb addr Hf) as (funding & Hfund & Hres).
  destruct (spent_total hdb funding Hp Hres) as (spents & Hsp & Hsv).
  destruct (all_Some (map f_value funding)) as (fvals & Hfv).
  { apply Forall_fmap. eapply Forall_impl; [exact Hres|].
    intros f [_ Hv]. exact Hv. }
  destruct (all_Some (map s_value spents)) as (svals & Hsvals).
  { apply Forall_fmap. exact Hsv. }
  eexists. exists funding, spents, fvals, svals.
  split.
  { unfold addressBalance, addressFunding, addressSpent.
    rewrite Hfund. simpl. rewrite Hsp. simpl. reflexivity. }
  split; [exact Hfund|]. split; [exact Hsp|].
  split; [exact Hfv|]. split; [exact Hsvals|].
  simpl. rewrite (fold_jsadd f_value funding fvals 0 Hfv).
  rewrite (fold_jsadd s_value spents svals 0 Hsvals). simpl.
  repeat split; f_equal; lia.
Qed.

Lemma balance_is_funded_less_spent_witness :
  ∃ (b : Balance) (funding : list Funding) (spents : list Spent)
    (fvals svals : list Z),
    addressBalance Sample.indexed Sample.addrA = Ok b
    ∧ _addressFunding Sample.indexed Sample.addrA = Ok funding
    ∧ _addressSpent Sample.indexed funding = Ok spents
    ∧ map f_value funding = map Some fvals
    ∧ map s_value spents = map Some svals
    ∧ received b = Some (sumZ fvals)
    ∧ spent b = Some (sumZ svals)
    ∧ confirmed b = Some (sumZ fvals - sumZ svals)
    ∧ unconfirmed b = confirmed b.
Proof.
  apply (balance_is_funded_less_spent Sample.indexed Sample.addrA);
    vm_compute; reflexivity.
Defined.

(** *** Unspent outputs *)

Lemma fold_filter {A B : Type} (P : B → A → Prop)
  `{∀ sp x, Decision (P sp x)} (spents : list B) (l : list A) :
  fold_left (fun acc sp => filter (P sp) acc) spents l
  = filter (fun x => Forall (fun sp => P sp x) spents) l.
Proof.
  revert l. induction spents as [|sp spents IH]; intros l; simpl.
  - induction l as [|x l IHl]; [reflexivity|].
    rewrite filter_cons, decide_True by constructor. f_equal. exact IHl.
  - rewrite IH. clear IH. induction l as [|x l IHl]; [reflexivity|].
    rewrite !filter_cons. destruct (decide (P sp x)) as [Hp|Hp].
    + rewrite filter_cons.
      destruct (decide (Forall (fun sp0 => P sp0 x) spents)) as [Hall|Hall].
      * rewrite decide_True by (constructor; assumption). f_equal. exact IHl.
      * rewrite decide_False; [exact IHl|].
        intros Hc. inversion Hc. contradiction.
    + rewrite decide_False; [exact IHl|].
      intros Hc. inversion Hc. contradiction.
Qed.

Lemma filter_ext_elem {A : Type} (P Q : A → Prop)
  `{∀ x, Decision (P x)} `{∀ x, Decision (Q x)} (l : list A) :
  (∀ x, x ∈ l → (P x ↔ Q x)) → filter P l = filter Q l.
Proof.
  induction l as [|x l IH]; intros Hext; [reflexivity|].
  rewrite !filter_cons.
  assert (Hx : P x ↔ Q x) by (apply Hext; left).
  assert (Hl : filter P l = filter Q l)
    by (apply IH; intros y Hy; apply Hext; right; exact Hy).
  destruct (decide (P x)) as [Hp|Hp].
  - rewrite decide_True by (apply Hx; exact Hp). f_equal. exact Hl.
  - rewrite decide_False by (intros Hq; apply Hp, Hx; exact Hq). exact Hl.
Qed.

Lemma NoDup_fmap_eq {A B : Type} (f : A → B) (l : list A) (x y : A) :
  NoDup (map f l) → x ∈ l → y ∈ l → f x = f y → x = y.
Proof.
  induction l as [|z l IH]; intros Hnd Hx Hy Hf.
  - inversion Hx.
  - simpl in Hnd. inversion Hnd as [|? ? Hnin Hl]; subst.
    apply elem_of_cons in Hx as [->|Hx];
      apply elem_of_cons in Hy as [->|Hy].
    + reflexivity.
    + exfalso. apply Hnin. rewrite Hf.
      apply (list_elem_of_fmap_2 f). exact Hy.
    + exfalso. apply Hnin. rewrite <- Hf.
      apply (list_elem_of_fmap_2 f). exact Hx.
    + apply IH; assumption.
Qed.

(** The funding records of an address: one for each transaction the index
    lists for it, in key order. *)
Lemma funding_of_index (hdb : HnscanDB) (addr : Hash)
  (funding : list Funding) :
  _addressFunding hdb addr = Ok funding →
  map f_tx_hash funding = map fst (iterate (db_o (db hdb)) addr)
  ∧ map f_height funding = map snd (iterate (db_o (db hdb)) addr).
Proof.
  unfold _addressFunding. intros H. apply mapM_Ok in H.
  induction H as [|kv f l fs Hf _ [IH1 IH2]]; [split; reflexivity|].
  simpl. rewrite IH1, IH2.
  unfold fundingOf in Hf. destruct (client hdb !! kv.1); [|discriminate].
  injection Hf as <-. split; reflexivity.
Qed.

Lemma funding_firstPaying (hdb : HnscanDB) (addr : Hash)
  (funding : list Funding) :
  _addressFunding hdb addr = Ok funding →
  Forall resolved funding →
  Forall (firstPaying hdb addr) funding.
Proof.
  unfold _addressFunding. intros H. apply mapM_Ok in H.
  induction H as [|kv f l fs Hf _ IH]; intros Hres; [constructor|].
  inversion Hres as [|? ? [[idx Hidx] [v Hv]] Hrest]; subst.
  constructor; [|apply IH; exact Hrest].
  unfold fundingOf in Hf.
  destruct (client hdb !! kv.1) as [newtx|] eqn:Hc; [|discriminate].
  injection Hf as <-. simpl in *.
  destruct (findOutput addr (outputs newtx) 0) as [[i w]|] eqn:Hfo;
    [|discriminate].
  simpl in *. injection Hidx as ->. injection Hv as ->.
  exists newtx, idx, v. simpl. rewrite Hfo. repeat split; assumption.
Qed.

(** Dropping the records whose transaction is the funding transaction of a
    spent record drops exactly those whose pair is a spent pair: the
    funding list has one record per transaction, and a spent record repeats
    the pair of the funding record it was made for. *)
Lemma unspent_by_pair (hdb : HnscanDB) (funding : list Funding)
  (spents : list Spent) :
  NoDup (map f_tx_hash funding) →
  _addressSpent hdb funding = Ok spents →
  fold_left
    (fun acc sp =>
       filter (fun u => u_tx_hash u ≠ fst (s_funding_output sp)) acc)
    spents (map toUnspent funding)
  = filter (fun u => (u_tx_hash u, u_tx_pos u) ∉ map s_funding_output spents)
      (map toUnspent funding).
Proof.
  intros Hnd Hsp.
  rewrite (fold_filter (fun sp u => u_tx_hash u ≠ fst (s_funding_output sp))).
  apply filter_ext_elem. intros u Hu.
  apply list_elem_of_fmap in Hu as (f & -> & Hf). simpl.
  rewrite Forall_forall. split.
  - intros Hall Hin.
    apply list_elem_of_fmap in Hin as (sp & Hpair & Hsp').
    apply (Hall sp Hsp'). rewrite <- Hpair. reflexivity.
  - intros Hnot sp Hin Heq.
    apply (spents_of_funding _ _ _ Hsp) in Hin as Hfrom.
    destruct Hfrom as (f' & Hf' & Hsp').
    apply (spentOf_fields hdb) in Hsp' as (Hpair & _).
    rewrite Hpair in Heq. simpl in Heq.
    assert (f = f') by (apply (NoDup_fmap_eq f_tx_hash funding); assumption).
    subst f'. apply Hnot. rewrite <- Hpair.
    apply (list_elem_of_fmap_2 s_funding_output). exact Hin.
Qed.

(** What [addressUnspent] does return: for an address whose index agrees
    with the ledger, the call returns. The funding records it starts from
    are one per transaction the index lists for the address, each with the
    index and the value of the first output of that transaction that pays
    the address; the result is exactly those of them whose pair of
    transaction id and output index is not the funding output of a spent
    record. *)
Lemma unspent_is_funding_less_spent_pairs (hdb : HnscanDB) (addr : Hash) :
  resolvesFunding hdb addr = true →
  resolvesPointers hdb = true →
  ∃ (result : list Unspent) (funding : list Funding) (spents : list Spent),
    addressUnspent hdb addr = Ok result
    ∧ _addressFunding hdb addr = Ok funding
    ∧ _addressSpent hdb funding = Ok spents
    ∧ map f_tx_hash funding = map fst (iterate (db_o (db hdb)) addr)
    ∧ NoDup (map f_tx_hash funding)
    ∧ Forall (firstPaying hdb addr) funding
    ∧ result
      = filter (fun u => (u_tx_hash u, u_tx_pos u)
                         ∉ map s_funding_output spents)
          (map toUnspent funding).
Proof.
  intros Hf Hp.
  destruct (funding_resolved hdb addr Hf) as (funding & Hfund & Hres).
  destruct (spent_total hdb funding Hp Hres) as (spents & Hsp & _).
  destruct (funding_of_index hdb addr funding Hfund) as [Hkeys _].
  assert (Hnd : NoDup (map f_tx_hash funding))
    by (rewrite Hkeys; apply NoDup_iterate).
  eexists. exists funding, spents. split.
  { unfold addressUnspent, addressFunding, addressSpent.
    rewrite Hfund. simpl. rewrite Hsp. simpl. reflexivity. }
  split; [exact Hfund|]. split; [exact Hsp|]. split; [exact Hkeys|].
  split; [exact Hnd|].
  split; [apply funding_firstPaying; assumption|].
  apply (unspent_by_pair hdb); assumption.
Qed.

Lemma unspent_is_funding_less_spent_pairs_witness :
  ∃ (result : list Unspent) (funding : list Funding) (spents : list Spent),
    addressUnspent Sample.indexed Sample.addrA = Ok result
    ∧ _addressFunding Sample.indexed Sample.addrA = Ok funding
    ∧ _addressSpent Sample.indexed funding = Ok spents
    ∧ map f_tx_hash funding
      = map fst (iterate (db_o (db Sample.indexed)) Sample.addrA)
    ∧ NoDup (map f_tx_hash funding)
    ∧ Forall (firstPaying Sample.indexed Sample.addrA) funding
    ∧ result
      = filter (fun u => (u_tx_hash u, u_tx_pos u)
                         ∉ map s_funding_output spents)
          (map toUnspent funding).
Proof.
  apply (unspent_is_funding_less_spent_pairs Sample.indexed Sample.addrA);
    vm_compute; reflexivity.
Defined.

(** C6, on a transaction that pays the address twice. [payTwice] pays the
    address with its outputs 0 and 1 and only output 0 was spent: output 1
    funds the address and has no spend pointer, and the result of
    [addressUnspent] does not hold it. [_addressFunding] keeps one record
    per transaction, for the first output that pays the address, here
    output 0, which is spent; the unspent outputs the call answers with are
    those of [payOnce] alone. *)
Theorem unspent_misses_second_output :
  ∃ (result : list Unspent) (funding : list Funding) (spents : list Spent),
    addressUnspent Sample.indexed Sample.addrA = Ok result
    ∧ _addressFunding Sample.indexed Sample.addrA = Ok funding
    ∧ _addressSpent Sample.indexed funding = Ok spents
    ∧ (txid Sample.payTwice, 1) ∈ fundingOutputs Sample.indexed Sample.addrA
    ∧ hasSpendPointer Sample.indexed (txid Sample.payTwice) 1 = false
    ∧ map u_tx_hash result = [txid Sample.payOnce]
    ∧ ¬ unspentAsSpecified Sample.indexed Sample.addrA funding spents result.
Proof.
  eexists. eexists. eexists.
  split; [vm_compute; reflexivity|].
  split; [vm_compute; reflexivity|].
  split; [vm_compute; reflexivity|].
  assert (Hin : (txid Sample.payTwice, 1)
                ∈ fundingOutputs Sample.indexed Sample.addrA).
  { replace (fundingOutputs Sample.indexed Sample.addrA)
      with [(txid Sample.payTwice, 0); (txid Sample.payTwice, 1);
            (txid Sample.payOnce, 1)] by (vm_compute; reflexivity).
    right. left. }
  split; [exact Hin|].
  split; [vm_compute; reflexivity|].
  split; [vm_compute; reflexivity|].
  intros [_ Hall].
  destruct (Hall (txid Sample.payTwice) 1 Hin) as (u & Hu & Hhash & _).
  { vm_compute. reflexivity. }
  apply elem_of_cons in Hu as [-> | Hu].
  - vm_compute in Hhash. discriminate.
  - inversion Hu.
Qed.

(** ** The sort

    A comparison function stands for an order on keys when a negative
    result puts the larger key first and any other result the smaller one:
    both [byHeight] and the subtraction of [sortTXs] do, for the height. The
    sort then returns its input rearranged with the keys descending. *)
Section ArraySortCorrect.
Context {A : Type} (comparefn : A → A → Z) (key : A → Z).
Hypothesis negative_first : ∀ x y, comparefn x y < 0 → key y <= key x.
Hypothesis other_last : ∀ x y, ¬ comparefn x y < 0 → key x <= key y.

Abbreviation desc := (descendingBy key).

Local Instance desc_trans : Transitive desc.
Proof. unfold descendingBy. intros x y z Hxy Hyz. lia. Qed.

Lemma half_lt (a : nat) : (0 < a → a / 2 < a)%nat.
Proof. intros Ha. apply Nat.div_lt; lia. Qed.

Lemma search_step (fuel : nat) (pivot : A) (work : list A)
  (left right : nat) :
  search comparefn (S fuel) pivot work left right
  = if (left <? right)%nat then
      match work !! (left + (right - left) / 2)%nat with
      | Some x =>
          if comparefn pivot x <? 0
          then search comparefn fuel pivot work left
                 (left + (right - left) / 2)%nat
          else search comparefn fuel pivot work
                 (S (left + (right - left) / 2)%nat) right
      | None => left
      end
    else left.
Proof. reflexivity. Qed.

Lemma search_spec (fuel : nat) (pivot : A) (work : list A)
  (left right : nat) :
  StronglySorted desc work →
  (left <= right <= length work)%nat →
  (right - left <= fuel)%nat →
  Forall (fun x => key pivot <= key x) (take left work) →
  Forall (fun x => key x <= key pivot) (drop right work) →
  let p := search comparefn fuel pivot work left right in
  (p <= length work)%nat
  ∧ Forall (fun x => key pivot <= key x) (take p work)
  ∧ Forall (fun x => key x <= key pivot) (drop p work).
Proof.
  intros Hsorted. revert left right.
  induction fuel as [|fuel IH]; intros left right Hrange Hfuel Hl Hr.
  - simpl. assert (left = right) by lia. subst right.
    split; [lia|]. split; assumption.
  - rewrite search_step. destruct (left <? right)%nat eqn:Hlt.
    + apply Nat.ltb_lt in Hlt.
      pose proof (half_lt (right - left)) as Hhalf.
      set (mid := (left + (right - left) / 2)%nat) in *.
      assert (Hmid : (left <= mid < right)%nat) by (unfold mid; lia).
      destruct (lookup_lt_is_Some_2 work mid) as [x Hx]; [lia|].
      rewrite Hx.
      pose proof (take_drop_middle work mid x Hx) as Hsplit.
      rewrite <- Hsplit in Hsorted.
      destruct (comparefn pivot x <? 0) eqn:Hcmp.
      * apply Z.ltb_lt, negative_first in Hcmp.
        apply IH; [lia | lia | exact Hl |].
        rewrite (drop_S work x mid Hx). constructor; [exact Hcmp|].
        apply StronglySorted_app_1_r, StronglySorted_cons in Hsorted
          as [Hafter _].
        eapply Forall_impl; [exact Hafter|].
        unfold descendingBy. intros y Hy. lia.
      * apply Z.ltb_ge in Hcmp.
        assert (Hpx : key pivot <= key x) by (apply other_last; lia).
        apply IH; [lia | lia | | exact Hr].
        rewrite (take_S_r work mid x Hx). apply Forall_app. split.
        -- apply Forall_forall. intros y Hy.
           assert (desc y x)
             by (apply (StronglySorted_app_1_elem_of _ _ _ _ _ Hsorted);
                 [exact Hy | left]).
           unfold descendingBy in *. lia.
        -- constructor; [exact Hpx | constructor].
    + apply Nat.ltb_ge in Hlt. assert (left = right) by lia. subst right.
      split; [lia|]. split; assumption.
Qed.

Lemma insertPivot_sorted (work : list A) (pivot : A) :
  StronglySorted desc work →
  StronglySorted desc (insertPivot comparefn work pivot)
  ∧ insertPivot comparefn work pivot ≡ₚ pivot :: work.
Proof.
  intros Hsorted. unfold insertPivot.
  destruct (search_spec (length work) pivot work 0 (length work) Hsorted)
    as (Hp & Hbefore & Hafter).
  { lia. } { lia. } { constructor. } { rewrite drop_all. constructor. }
  set (p := search comparefn (length work) pivot work 0 (length work)) in *.
  split.
  - rewrite <- (take_drop p work) in Hsorted.
    apply StronglySorted_app in Hsorted as (Hcross & Hs1 & Hs2).
    apply StronglySorted_app_2; [|exact Hs1|].
    + intros x1 x2 H1 H2. apply elem_of_cons in H2 as [->|H2].
      * rewrite Forall_forall in Hbefore. apply (Hbefore x1 H1).
      * apply Hcross; assumption.
    + constructor; [exact Hs2|].
      eapply Forall_impl; [exact Hafter|]. intros y Hy. exact Hy.
  - rewrite <- Permutation_middle, take_drop. reflexivity.
Qed.

Lemma binaryInsertionSort_sorted (rest run : list A) :
  StronglySorted desc run →
  StronglySorted desc (binaryInsertionSort comparefn run rest)
  ∧ binaryInsertionSort comparefn run rest ≡ₚ run ++ rest.
Proof.
  unfold binaryInsertionSort. revert run.
  induction rest as [|pivot rest IH]; intros run Hrun; simpl.
  - rewrite app_nil_r. split; [exact Hrun | reflexivity].
  - destruct (insertPivot_sorted run pivot Hrun) as [Hs Hp].
    destruct (IH _ Hs) as [Hs' Hp']. split; [exact Hs'|].
    rewrite Hp', Hp. simpl. rewrite <- Permutation_middle. reflexivity.
Qed.

(** The run [runMore] measures is a chain for the comparison. *)
Lemma runMore_chain (isDescending : bool) (l : list A) (prev : A) :
  Sorted (if isDescending then flip desc else desc)
    (prev :: take (runMore comparefn isDescending prev l) l).
Proof.
  revert prev. induction l as [|cur l IH]; intros prev; simpl.
  - repeat constructor.
  - destruct isDescending.
    + destruct (comparefn cur prev <? 0) eqn:Hc; simpl.
      * constructor; [apply IH|]. constructor.
        apply Z.ltb_lt, negative_first in Hc. exact Hc.
      * repeat constructor.
    + destruct (0 <=? comparefn cur prev) eqn:Hc; simpl.
      * constructor; [apply IH|]. constructor.
        apply Z.leb_le in Hc. apply other_last. lia.
      * repeat constructor.
Qed.

Lemma countAndMakeRun_sorted (l : list A) :
  StronglySorted desc (fst (countAndMakeRun comparefn l))
  ∧ fst (countAndMakeRun comparefn l) ++ snd (countAndMakeRun comparefn l)
    ≡ₚ l.
Proof.
  destruct l as [|lo [|hi rest]]; simpl.
  - split; [constructor | reflexivity].
  - split; [repeat constructor | reflexivity].
  - pose proof (runMore_chain (comparefn hi lo <? 0) rest hi) as Hchain.
    set (k := runMore comparefn (comparefn hi lo <? 0) hi rest) in *.
    destruct (comparefn hi lo <? 0) eqn:Hc; simpl.
    + split.
      * apply Sorted_StronglySorted; [apply desc_trans|].
        apply (Sorted_reverse (flip desc) (lo :: hi :: take k rest)).
        constructor; [exact Hchain|]. constructor.
        apply Z.ltb_lt, negative_first in Hc. exact Hc.
      * rewrite reverse_Permutation. simpl.
        rewrite take_drop. reflexivity.
    + split.
      * apply Sorted_StronglySorted; [apply desc_trans|].
        constructor; [exact Hchain|]. constructor.
        apply Z.ltb_ge in Hc. apply other_last. lia.
      * rewrite take_drop. reflexivity.
Qed.

Lemma Array_sort_sorted (l : list A) :
  StronglySorted desc (Array_sort comparefn l)
  ∧ Array_sort comparefn l ≡ₚ l.
Proof.
  unfold Array_sort. destruct (length l <? 2)%nat eqn:Hlen.
  - split; [|reflexivity].
    destruct l as [|x [|y l]]; [constructor | repeat constructor |].
    simpl in Hlen. discriminate.
  - destruct (countAndMakeRun_sorted l) as [Hrun Hperm].
    destruct (binaryInsertionSort_sorted
                (snd (countAndMakeRun comparefn l))
                (fst (countAndMakeRun comparefn l)) Hrun) as [Hs Hp].
    split; [exact Hs|]. rewrite Hp. exact Hperm.
Qed.

End ArraySortCorrect.

(** ** Name history *)

Lemma byHeight_negative_first (x y : Auction) :
  byHeight x y < 0 → a_height y <= a_height x.
Proof.
  unfold byHeight. destruct (a_height x <? a_height y) eqn:H; [lia|].
  apply Z.ltb_ge in H. intros _. exact H.
Qed.

Lemma byHeight_other_last (x y : Auction) :
  ¬ byHeight x y < 0 → a_height x <= a_height y.
Proof.
  unfold byHeight. destruct (a_height x <? a_height y) eqn:H; [|lia].
  apply Z.ltb_lt in H. intros _. lia.
Qed.

(** The list [getNameHistory] pages through holds the records of the name,
    each once, the higher block first. *)
Lemma entireList_descending (hs : Hnscan) (nameHash : Hash) :
  StronglySorted (descendingBy a_height) (entireList hs nameHash)
  ∧ entireList hs nameHash ≡ₚ nameHistory (hdb_ hs) nameHash.
Proof.
  apply (Array_sort_sorted byHeight a_height
           byHeight_negative_first byHeight_other_last).
Qed.

Lemma sortTXs_descending (l : list Auction) :
  StronglySorted (descendingBy a_height) (sortTXs l) ∧ sortTXs l ≡ₚ l.
Proof.
  apply (Array_sort_sorted (fun a b => a_height b - a_height a) a_height);
    intros x y; lia.
Qed.

Lemma slice_sorted {A : Type} (R : relation A) (l : list A)
  (offset limit : nat) :
  StronglySorted R l → StronglySorted R (slice l offset limit).
Proof.
  intros H. unfold slice.
  rewrite <- (take_drop offset l) in H. apply StronglySorted_app_1_r in H.
  rewrite <- (take_drop limit (drop offset l)) in H.
  apply StronglySorted_app_1_l in H. exact H.
Qed.

Lemma historyOfOutputs_height (nameHash : Hash) (t : TXJSON) (rec : Auction)
  (outs : list Output) (j : Z) (entries : list History) :
  historyOfOutputs nameHash t rec outs j = Ok entries →
  Forall (fun e => h_height e = a_height rec) entries.
Proof.
  revert j entries. induction outs as [|out outs IH]; intros j entries; simpl.
  - intros [= <-]. constructor.
  - intros H. apply bind_Ok in H as (here & Hhere & H).
    apply bind_Ok in H as (more & Hmore & [= <-]).
    apply Forall_app. split; [|apply (IH _ _ Hmore)].
    destruct (isName (covenant out)); [|injection Hhere as <-; constructor].
    destruct (items (covenant out) !! 0%nat) as [item|]; [|discriminate].
    destruct (decide (item = nameHash)); injection Hhere as <-;
      repeat constructor.
Qed.

Lemma constant_sorted {B : Type} (key : B → Z) (c : Z) (l : list B) :
  Forall (fun e => key e = c) l → StronglySorted (descendingBy key) l.
Proof.
  induction 1 as [|e l He Hl IH]; constructor; [exact IH|].
  eapply Forall_impl; [exact Hl|].
  unfold descendingBy. intros e' He'. lia.
Qed.

(** Entries made record by record, each with the height of its record, come
    in the order of the records. *)
Lemma concat_descending (page : list Auction) (pages : list (list History)) :
  Forall2 (fun rec entries =>
             Forall (fun e => h_height e = a_height rec) entries)
          page pages →
  StronglySorted (descendingBy a_height) page →
  StronglySorted (descendingBy h_height) (concat pages)
  ∧ Forall (fun e => ∃ rec, rec ∈ page ∧ h_height e = a_height rec)
      (concat pages).
Proof.
  induction 1 as [|rec entries page pages Hrec _ IH]; intros Hsorted; simpl.
  - split; constructor.
  - apply StronglySorted_cons in Hsorted as [Hfirst Hrest].
    destruct (IH Hrest) as [IHs IHin]. split.
    + apply StronglySorted_app_2;
        [|apply (constant_sorted _ (a_height rec)); exact Hrec | exact IHs].
      intros e1 e2 H1 H2. unfold descendingBy.
      rewrite Forall_forall in Hrec. rewrite Forall_forall in IHin.
      rewrite Forall_forall in Hfirst.
      destruct (IHin e2 H2) as (rec2 & Hrec2 & ->).
      rewrite (Hrec e1 H1). apply (Hfirst rec2 Hrec2).
    + apply Forall_app. split.
      * eapply Forall_impl; [exact Hrec|].
        intros e He. exists rec. split; [left | exact He].
      * eapply Forall_impl; [exact IHin|].
        intros e (rec2 & Hin & He). exists rec2. split; [right|]; assumption.
Qed.

(** Whatever page is asked for, the entries come with the heights
    descending, and the total is the number of records of the name. *)
Lemma getNameHistory_descending (hs : Hnscan) (nameHash : Hash)
  (offset limit : nat) (history : list History) (total : nat) :
  getNameHistory hs nameHash offset limit = Ok (history, total) →
  StronglySorted (descendingBy h_height) history
  ∧ total = length (nameHistory (hdb_ hs) nameHash).
Proof.
  unfold getNameHistory. intros H.
  apply bind_Ok in H as (pages & Hpages & [= <- <-]).
  destruct (entireList_descending hs nameHash) as [Hsorted Hperm].
  split; [|rewrite Hperm; reflexivity].
  apply (slice_sorted _ _ offset limit) in Hsorted.
  apply mapM_Ok in Hpages.
  apply (concat_descending (slice (entireList hs nameHash) offset limit));
    [|exact Hsorted].
  eapply Forall2_impl; [exact Hpages|].
  intros rec entries Hrec. unfold historyOf in Hrec.
  destruct (getTransaction hs (a_tx_hash rec)); [|discriminate].
  apply (historyOfOutputs_height _ _ _ _ _ _ Hrec).
Qed.

(** C7, on two records of one block. The store lists the bids of the block
    at height 5 in the order [bidA], [bidB]; the comparison of
    [getNameHistory] answers -1 for the two in either order, and the sort
    returns [bidB] before [bidA]. The sort of the HTTP routes, whose
    comparison is a difference, keeps [bidA] first; on the heights 10, 40
    and 25 [getNameHistory] answers with 40, 25, 10. *)
Theorem name_history_ties_reversed :
  map a_tx_hash (nameHistory (hdb_ Sample.sameBlock) Sample.nameH)
  = [Sample.bidA; Sample.bidB]
  ∧ map a_height (nameHistory (hdb_ Sample.sameBlock) Sample.nameH) = [5; 5]
  ∧ byHeight {| a_tx_hash := Sample.bidA; a_height := 5 |}
             {| a_tx_hash := Sample.bidB; a_height := 5 |} = -1
  ∧ byHeight {| a_tx_hash := Sample.bidB; a_height := 5 |}
             {| a_tx_hash := Sample.bidA; a_height := 5 |} = -1
  ∧ (∃ history,
       getNameHistory Sample.sameBlock Sample.nameH 0 25 = Ok (history, 2%nat)
       ∧ map h_txid history = [Sample.bidB; Sample.bidA])
  ∧ map a_tx_hash
      (sortTXs (nameHistory (hdb_ Sample.sameBlock) Sample.nameH))
    = [Sample.bidA; Sample.bidB]
  ∧ map a_height (nameHistory (hdb_ Sample.auction) Sample.nameH)
    = [10; 40; 25]
  ∧ (∃ history,
       getNameHistory Sample.auction Sample.nameH 0 25 = Ok (history, 3%nat)
       ∧ map h_height history = [40; 25; 10]).
Proof.
  split; [vm_compute; reflexivity|].
  split; [vm_compute; reflexivity|].
  split; [reflexivity|]. split; [reflexivity|].
  split; [eexists; split; vm_compute; reflexivity|].
  split; [vm_compute; reflexivity|].
  split; [vm_compute; reflexivity|].
  eexists; split; vm_compute; reflexivity.
Qed.

(** ** When the queries return

    The two theorems on the address index above start from an index that
    agrees with the ledger. Without that, a query may throw; when it
    returns, what it returns is the same. *)

Lemma fundingOf_both (hdb : HnscanDB) (addr : Hash) (kv : Hash * Z)
  (f : Funding) :
  fundingOf hdb addr kv = Ok f →
  is_Some (f_output_index f) → is_Some (f_value f).
Proof.
  unfold fundingOf. destruct (client hdb !! kv.1); [|discriminate].
  intros [= <-]. simpl.
  destruct (findOutput addr (outputs t) 0); simpl; intros [x Hx];
    [eexists; reflexivity | discriminate].
Qed.

Lemma returned_resolved (hdb : HnscanDB) (addr : Hash)
  (funding : list Funding) (spents : list Spent) :
  _addressFunding hdb addr = Ok funding →
  _addressSpent hdb funding = Ok spents →
  Forall resolved funding.
Proof.
  unfold _addressFunding, _addressSpent. intros Hf Hs.
  apply mapM_Ok in Hf.
  apply bind_Ok in Hs as (found & Hfound & _). apply mapM_Ok in Hfound.
  apply Forall_forall. intros f Hin.
  apply list_elem_of_lookup in Hin as [k Hk].
  destruct (Forall2_lookup_r _ _ _ _ _ Hf Hk) as (kv & _ & Hkv).
  destruct (Forall2_lookup_l _ _ _ _ _ Hfound Hk) as (r & _ & Hr).
  assert (Hidx : is_Some (f_output_index f)).
  { unfold spentOf, layout_i_encode in Hr.
    destruct (f_output_index f); [eexists; reflexivity | discriminate]. }
  split; [exact Hidx | apply (fundingOf_both _ _ _ _ Hkv Hidx)].
Qed.

Lemma addressBalance_returned (hdb : HnscanDB) (addr : Hash) (b : Balance) :
  addressBalance hdb addr = Ok b →
  ∃ (funding : list Funding) (spents : list Spent) (fvals svals : list Z),
    _addressFunding hdb addr = Ok funding
    ∧ _addressSpent hdb funding = Ok spents
    ∧ map f_value funding = map Some fvals
    ∧ map s_value spents = map Some svals
    ∧ received b = Some (sumZ fvals)
    ∧ spent b = Some (sumZ svals)
    ∧ confirmed b = Some (sumZ fvals - sumZ svals)
    ∧ unconfirmed b = confirmed b.
Proof.
  unfold addressBalance, addressFunding, addressSpent. intros H.
  destruct (_addressFunding hdb addr) as [funding|e] eqn:Hfund;
    [|discriminate].
  simpl in H.
  destruct (_addressSpent hdb funding) as [spents|e] eqn:Hsp; [|discriminate].
  simpl in H. injection H as <-.
  pose proof (returned_resolved _ _ _ _ Hfund Hsp) as Hres.
  destruct (all_Some (map f_value funding)) as (fvals & Hfv).
  { apply Forall_fmap. eapply Forall_impl; [exact Hres|].
    intros f [_ Hv]. exact Hv. }
  destruct (all_Some (map s_value spents)) as (svals & Hsvals).
  { apply Forall_fmap, Forall_forall. intros sp Hin. simpl.
    apply (spents_of_funding _ _ _ Hsp) in Hin as (f & Hf & Hsp').
    apply (spentOf_fields hdb) in Hsp' as (_ & -> & _).
    rewrite Forall_forall in Hres. apply (Hres f Hf). }
  exists funding, spents, fvals, svals.
  split; [reflexivity|]. split; [exact Hsp|].
  split; [exact Hfv|]. split; [exact Hsvals|].
  simpl. rewrite (fold_jsadd f_value funding fvals 0 Hfv).
  rewrite (fold_jsadd s_value spents svals 0 Hsvals). simpl.
  repeat split; f_equal; lia.
Qed.

Lemma addressUnspent_returned (hdb : HnscanDB) (addr : Hash)
  (result : list Unspent) :
  addressUnspent hdb addr = Ok result →
  ∃ (funding : list Funding) (spents : list Spent),
    _addressFunding hdb addr = Ok funding
    ∧ _addressSpent hdb funding = Ok spents
    ∧ NoDup (map f_tx_hash funding)
    ∧ result
      = filter (fun u => (u_tx_hash u, u_tx_pos u)
                         ∉ map s_funding_output spents)
          (map toUnspent funding).
Proof.
  unfold addressUnspent, addressFunding, addressSpent. intros H.
  destruct (_addressFunding hdb addr) as [funding|e] eqn:Hfund;
    [|discriminate].
  simpl in H.
  destruct (_addressSpent hdb funding) as [spents|e] eqn:Hsp; [|discriminate].
  simpl in H. injection H as <-.
  destruct (funding_of_index hdb addr funding Hfund) as [Hkeys _].
  assert (Hnd : NoDup (map f_tx_hash funding))
    by (rewrite Hkeys; apply NoDup_iterate).
  exists funding, spents.
  split; [reflexivity|]. split; [exact Hsp|]. split; [exact Hnd|].
  apply (unspent_by_pair hdb); assumption.
Qed.

(** * Further properties *)

(** ** [saveEntry]: what it counts, when it throws, what it leaves alone *)

Lemma connectOutput_coin (st : ChainState) (out : Output) :
  coin (connectOutput st out)
  = coin st + (if (isBurn out || isCoin out)%bool then 1 else 0)
  ∧ tx (connectOutput st out) = tx st
  ∧ tip (connectOutput st out) = tip st
  ∧ committed (connectOutput st out) = committed st.
Proof.
  unfold connectOutput, isBurn, isCoin, inAdminRange.
  destruct (isUnspendable out); simpl; [repeat split; lia|].
  destruct (isRegister (covenant out)); simpl; [repeat split; lia|].
  destruct ((types.UPDATE <=? ctype (covenant out))
            && (ctype (covenant out) <=? types.REVOKE)); simpl;
    repeat split; lia.
Qed.

Lemma connectOutputs_coin (outs : list Output) (st : ChainState) :
  coin (connectOutputs st outs)
  = coin st
    + Z.of_nat (length (filter (fun out => (isBurn out || isCoin out) = true)
                          outs))
  ∧ tx (connectOutputs st outs) = tx st.
Proof.
  unfold connectOutputs. revert st.
  induction outs as [|out outs IH]; intros st; simpl.
  - split; [lia | reflexivity].
  - destruct (IH (connectOutput st out)) as [Hc Ht].
    destruct (connectOutput_coin st out) as (Hc1 & Ht1 & _).
    rewrite Hc, Ht, Hc1, Ht1, filter_cons.
    destruct (isBurn out || isCoin out)%bool.
    + rewrite decide_True by reflexivity. simpl length. split; [lia|reflexivity].
    + rewrite decide_False by discriminate. split; [lia|reflexivity].
Qed.

Lemma spendInputs_coin (view : CoinView) (ins : list Input)
  (st st' : ChainState) :
  forM (spendInput view) ins st = Ok st' →
  coin st' = coin st - Z.of_nat (length ins) ∧ tx st' = tx st.
Proof.
  revert st. induction ins as [|input ins IH]; intros st; simpl.
  - intros [= <-]. split; [lia | reflexivity].
  - intros H. apply bind_Ok in H as (s1 & H1 & H2).
    destruct (IH _ H2) as [Hc Ht]. rewrite Hc, Ht.
    unfold spendInput in H1.
    destruct (getOutput view (prevout input)) as [c|]; [|discriminate].
    injection H1 as <-. simpl. split; [lia | reflexivity].
Qed.

Lemma connectTXs_coin (view : CoinView) (l : list TX) (idx : nat)
  (st st' : ChainState) :
  connectTXs view idx l st = Ok st' →
  coin st'
  = coin st
    + Z.of_nat (length (filter (fun out => (isBurn out || isCoin out) = true)
                          (concat (map outputs l))))
    - Z.of_nat (length (concat (map inputs
                                  (if (0 <? idx)%nat then l else tail l))))
  ∧ tx st' = tx st.
Proof.
  revert idx st. induction l as [|t l IH]; intros idx st; simpl.
  - intros [= <-]. destruct (0 <? idx)%nat; simpl; split; (lia || reflexivity).
  - intros H. apply bind_Ok in H as (s1 & H1 & H2).
    destruct (IH _ _ H2) as [Hc Ht]. simpl in Hc.
    destruct (connectOutputs_coin (outputs t) s1) as [Hc1 Ht1].
    rewrite Hc, Ht, Hc1, Ht1, filter_app, !length_app.
    destruct idx as [|idx]; simpl in *.
    + injection H1 as <-. split; [lia | reflexivity].
    + destruct (spendInputs_coin _ _ _ _ H1) as [Hc2 Ht2].
      rewrite Hc2, Ht2, length_app. split; [lia | reflexivity].
Qed.

Lemma saveEntry_tip_db (hdb hdb' : HnscanDB) (block : Block)
  (view : CoinView) :
  saveEntry hdb block view = Ok hdb' →
  tip (state hdb') = bhash block ∧ db hdb' = db hdb.
Proof.
  unfold saveEntry, connectBlock. intros H.
  apply bind_Ok in H as (st' & Hst & [= <-]).
  apply bind_Ok in Hst as (p & Hp & [= <-]).
  split; reflexivity.
Qed.

(** X1. Connecting a block, when it returns, adds the number of its
    transactions to the transaction count and, to the coin count, the number
    of its outputs that are burned or enter circulation less the number of
    inputs of its transactions after the first; the tip is the hash of the
    block, the state is marked committed, no state is left pending, and
    neither the store nor the chart buffer is touched. *)
Theorem saveEntry_bookkeeping
  (hdb hdb' : HnscanDB) (block : Block) (view : CoinView) :
  saveEntry hdb block view = Ok hdb' →
  tx (state hdb') = tx (state hdb) + Z.of_nat (length (txs block))
  ∧ coin (state hdb')
    = coin (state hdb) + Z.of_nat (length (countedOutputs block))
      - Z.of_nat (length (spentInputs block))
  ∧ tip (state hdb') = bhash block
  ∧ committed (state hdb') = true
  ∧ pending hdb' = None
  ∧ db hdb' = db hdb
  ∧ chartDataCurrentDate hdb' = chartDataCurrentDate hdb
  ∧ chartDataCurrent hdb' = chartDataCurrent hdb.
Proof.
  unfold saveEntry, connectBlock. intros H.
  apply bind_Ok in H as (st' & Hst & [= <-]).
  apply bind_Ok in Hst as (p & Hp & [= <-]).
  destruct (connectTXs_coin _ _ _ _ _ Hp) as [Hc Ht]. simpl in *.
  unfold countedOutputs, spentInputs, allOutputs.
  rewrite Hc, Ht. repeat split; reflexivity.
Qed.

Lemma saveEntry_bookkeeping_witness :
  tx (state Sample.connected2) = tx (state Sample.fresh) + 2
  ∧ coin (state Sample.connected2) = coin (state Sample.fresh) + 3 - 1
  ∧ tip (state Sample.connected2) = bhash Sample.block2.
Proof.
  destruct (saveEntry_bookkeeping Sample.fresh Sample.connected2
              Sample.block2 Sample.view2) as (Ht & Hc & Htip & _).
  - vm_compute. reflexivity.
  - split; [exact Ht|]. split; [exact Hc | exact Htip].
Defined.

Lemma resolvesb_resolves (view : CoinView) (b : Block) :
  resolvesb view b = true ↔ resolves view b.
Proof.
  unfold resolvesb, resolves, resolvesTX. split.
  - intros H. apply Forall_forall. intros t Ht.
    apply Forall_forall. intros input Hin.
    rewrite forallb_forall in H. apply list_elem_of_In in Ht.
    specialize (H t Ht). rewrite forallb_forall in H.
    apply list_elem_of_In in Hin. specialize (H input Hin).
    apply bool_decide_eq_true_1 in H. exact H.
  - intros H. apply forallb_forall. intros t Ht.
    apply forallb_forall. intros input Hin. apply bool_decide_eq_true_2.
    rewrite Forall_forall in H. apply list_elem_of_In in Ht.
    specialize (H t Ht). rewrite Forall_forall in H.
    apply H. apply list_elem_of_In. exact Hin.
Qed.

Lemma spendInputs_Ok_resolved (view : CoinView) (ins : list Input)
  (st st' : ChainState) :
  forM (spendInput view) ins st = Ok st' →
  Forall (fun input => is_Some (getOutput view (prevout input))) ins.
Proof.
  revert st. induction ins as [|input ins IH]; intros st; simpl.
  - constructor.
  - intros H. apply bind_Ok in H as (s1 & H1 & H2).
    constructor; [|apply (IH _ H2)].
    unfold spendInput in H1.
    destruct (getOutput view (prevout input)); [eexists; reflexivity|].
    discriminate.
Qed.

Lemma connectTXs_Ok_resolved (view : CoinView) (l : list TX) (idx : nat)
  (st st' : ChainState) :
  connectTXs view idx l st = Ok st' →
  Forall (resolvesTX view) (if (0 <? idx)%nat then l else tail l).
Proof.
  revert idx st. induction l as [|t l IH]; intros idx st; simpl.
  - destruct (0 <? idx)%nat; constructor.
  - intros H. apply bind_Ok in H as (s1 & H1 & H2).
    specialize (IH _ _ H2). simpl in IH.
    destruct idx as [|idx]; simpl in *; [exact IH|].
    constructor; [|exact IH].
    apply (spendInputs_Ok_resolved _ _ _ _ H1).
Qed.

(** X2. [saveEntry] returns exactly when the view holds the previous output
    of every input of every transaction of the block but the first, whose
    inputs are never looked up; otherwise it throws. *)
Theorem saveEntry_returns_iff_resolved
  (hdb : HnscanDB) (block : Block) (view : CoinView) :
  is_Ok (saveEntry hdb block view) = resolvesb view block.
Proof.
  destruct (resolvesb view block) eqn:Hres.
  - apply resolvesb_resolves in Hres.
    unfold saveEntry.
    destruct (connectBlock_resolved (state hdb) block view Hres) as (st & ->).
    reflexivity.
  - destruct (saveEntry hdb block view) as [hdb'|e] eqn:Hs; [|reflexivity].
    exfalso. unfold saveEntry, connectBlock in Hs.
    apply bind_Ok in Hs as (st' & Hst & _).
    apply bind_Ok in Hst as (p & Hp & _).
    apply connectTXs_Ok_resolved in Hp. simpl in Hp.
    apply resolvesb_resolves in Hp. congruence.
Qed.

(** X3. What is saved is what is loaded: after a block was connected and
    the state saved, an index constructed on the same store and opened has
    the tip of the block and the four totals that were saved, when each of
    the totals is a number that 8 bytes carry unchanged (not negative and
    below 2^53); the committed mark is not stored and comes back unset.
    Without [saveState] the store still holds what it held before the
    block. *)
Theorem saved_state_is_loaded
  (hdb hdb1 : HnscanDB) (block : Block) (view : CoinView)
  (magic : Z) (chain : gmap Hash TX) :
  saveEntry hdb block view = Ok hdb1 →
  is_Ok (db_verify (db hdb) "hnscan" 0) = true →
  storable (state hdb1) →
  ∃ hdb2 : HnscanDB,
    open (newHnscanDB magic chain (db (saveState hdb1))) = Ok hdb2
    ∧ tip (state hdb2) = bhash block
    ∧ tx (state hdb2) = tx (state hdb1)
    ∧ coin (state hdb2) = coin (state hdb1)
    ∧ value (state hdb2) = value (state hdb1)
    ∧ burned (state hdb2) = burned (state hdb1)
    ∧ committed (state hdb2) = false
    ∧ db_s (db hdb1) = db_s (db hdb).
Proof.
  intros Hs Hv Hst.
  destruct (saveEntry_tip_db _ _ _ _ Hs) as (Htip & Hdb).
  rewrite <- Hdb in Hv.
  rewrite open_result. simpl.
  unfold db_verify in *. simpl.
  destruct (db_V (db hdb1)) as [[nm v]|]; simpl.
  - destruct (bool_decide (nm = "hnscan") && (v =? 0))%bool; [|discriminate].
    simpl. rewrite (decodeState_encodeState _ Hst).
    eexists. split; [reflexivity|]. simpl.
    rewrite Hdb. repeat split; try reflexivity. exact Htip.
  - rewrite (decodeState_encodeState _ Hst).
    eexists. split; [reflexivity|]. simpl.
    rewrite Hdb. repeat split; try reflexivity. exact Htip.
Qed.

Lemma saved_state_is_loaded_witness :
  ∃ hdb2 : HnscanDB,
    open (newHnscanDB Sample.magic ∅ (db (saveState Sample.connected2)))
    = Ok hdb2
    ∧ tip (state hdb2) = bhash Sample.block2
    ∧ tx (state hdb2) = tx (state Sample.connected2)
    ∧ coin (state hdb2) = coin (state Sample.connected2)
    ∧ value (state hdb2) = value (state Sample.connected2)
    ∧ burned (state hdb2) = burned (state Sample.connected2)
    ∧ committed (state hdb2) = false
    ∧ db_s (db Sample.connected2) = db_s (db Sample.fresh).
Proof.
  apply (saved_state_is_loaded Sample.fresh Sample.connected2
           Sample.block2 Sample.view2 Sample.magic ∅).
  - vm_compute. reflexivity.
  - vm_compute. reflexivity.
  - repeat split; vm_compute; congruence.
Defined.

(** ** The chart aggregator: what a run keeps *)

(** X4. A point whose day is the current day or an earlier one never
    reaches the store: whatever their number and order, such points are
    appended to the open bucket, and the store and the current day stay as
    they are. *)
Theorem late_points_join_the_open_bucket
  (hdb : HnscanDB) (points : list ChartData) :
  chartDataCurrentDate hdb ≠ 0 →
  Forall (fun x => dayOf (time x) <= chartDataCurrentDate hdb) points →
  ∃ hdb' : HnscanDB,
    observeAll hdb points = Ok hdb'
    ∧ db hdb' = db hdb
    ∧ chartDataCurrentDate hdb' = chartDataCurrentDate hdb
    ∧ chartDataCurrent hdb' = chartDataCurrent hdb ++ points.
Proof.
  intros H0 Hall. eexists. split.
  - apply (observeAll_same_bucket points hdb H0 Hall).
  - repeat split.
Qed.

Lemma late_points_join_the_open_bucket_witness :
  ∃ hdb' : HnscanDB,
    observeAll Sample.day2 [Sample.p0; Sample.p2] = Ok hdb'
    ∧ db hdb' = db Sample.day2
    ∧ chartDataCurrentDate hdb' = chartDataCurrentDate Sample.day2
    ∧ chartDataCurrent hdb'
      = chartDataCurrent Sample.day2 ++ [Sample.p0; Sample.p2].
Proof.
  apply (late_points_join_the_open_bucket Sample.day2 [Sample.p0; Sample.p2]).
  - vm_compute. discriminate.
  - repeat constructor; vm_compute; discriminate.
Defined.

Lemma dayOf_nonneg (tm : Z) : 0 <= tm → 0 <= dayOf tm.
Proof. intros H. unfold dayOf. apply Z.div_pos; lia. Qed.

Lemma setChartData_chartInv (hdb hdb' : HnscanDB) (data : ChartData) :
  chartInv hdb →
  0 <= time data →
  setChartData hdb data = Ok hdb' →
  chartInv hdb'
  ∧ chartDataCurrentDate hdb <= chartDataCurrentDate hdb'
  ∧ db_d (db hdb) ⊆ db_d (db hdb').
Proof.
  intros [Hcur Hkeys] Htime. pose proof (dayOf_nonneg _ Htime) as Hday.
  unfold setChartData.
  destruct (chartDataCurrentDate hdb =? 0) eqn:H0.
  - apply Z.eqb_eq in H0. intros [= <-]. simpl. unfold chartInv. simpl.
    split; [split; [exact Hday|] | split; [lia | reflexivity]].
    eapply map_Forall_impl; [exact Hkeys|]. simpl. intros k _ Hk. lia.
  - destruct (dayOf (time data) >? chartDataCurrentDate hdb) eqn:Hgt.
    + apply Z.gtb_lt in Hgt. intros H.
      apply bind_Ok in H as (avg & _ & [= <-]). simpl.
      unfold chartInv. simpl. split; [split; [exact Hday|] | split; [lia|]].
      * apply map_Forall_insert_2; [lia|].
        eapply map_Forall_impl; [exact Hkeys|]. simpl. intros k _ Hk. lia.
      * apply insert_subseteq.
        destruct (db_d (db hdb) !! (dayOf (time data) * 3600 * 24))
          as [rec|] eqn:Hk; [|reflexivity].
        apply Hkeys in Hk. simpl in Hk. lia.
    + intros [= <-]. simpl. unfold chartInv. simpl.
      split; [split; assumption | split; [lia | reflexivity]].
Qed.

Lemma observeAll_chartInv (points : list ChartData) (hdb hdb' : HnscanDB) :
  chartInv hdb →
  Forall (fun x => 0 <= time x) points →
  observeAll hdb points = Ok hdb' →
  chartInv hdb'
  ∧ chartDataCurrentDate hdb <= chartDataCurrentDate hdb'
  ∧ db_d (db hdb) ⊆ db_d (db hdb').
Proof.
  revert hdb. induction points as [|p points IH]; intros hdb Hinv Hall.
  - intros [= <-]. split; [exact Hinv|]. split; [lia | reflexivity].
  - inversion Hall as [|? ? Hp Hrest]; subst.
    unfold observeAll. simpl. intros H.
    apply bind_Ok in H as (h1 & H1 & H2).
    destruct (setChartData_chartInv _ _ _ Hinv Hp H1) as (Hinv1 & Hle1 & Hsub1).
    destruct (IH h1 Hinv1 Hrest H2) as (Hinv2 & Hle2 & Hsub2).
    split; [exact Hinv2|]. split; [lia|].
    etransitivity; [exact Hsub1 | exact Hsub2].
Qed.

(** X5. Daily records are never rewritten and the current day never goes
    back: on a store that had no daily record, after any points whose times
    are not negative, one more such point leaves every record that was
    stored as it is (a flush goes under a time later than all of them), and
    the current day after it is the same or a later one. *)
Theorem daily_records_are_kept
  (magic : Z) (chain : gmap Hash TX) (store : DB)
  (points : list ChartData) (data : ChartData) (hdb hdb' : HnscanDB) :
  db_d store = ∅ →
  Forall (fun x => 0 <= time x) (points ++ [data]) →
  observeAll (newHnscanDB magic chain store) points = Ok hdb →
  setChartData hdb data = Ok hdb' →
  db_d (db hdb) ⊆ db_d (db hdb')
  ∧ chartDataCurrentDate hdb <= chartDataCurrentDate hdb'
  ∧ 0 <= chartDataCurrentDate hdb.
Proof.
  intros Hempty Hall Hobs Hset.
  apply Forall_app in Hall as [Hpoints Hdata].
  inversion Hdata as [|? ? Htime _]; subst.
  assert (Hinv0 : chartInv (newHnscanDB magic chain store)).
  { unfold chartInv. simpl. split; [lia|]. rewrite Hempty.
    apply map_Forall_empty. }
  destruct (observeAll_chartInv points _ _ Hinv0 Hpoints Hobs)
    as (Hinv & _ & _).
  destruct (setChartData_chartInv _ _ _ Hinv Htime Hset) as (_ & Hle & Hsub).
  split; [exact Hsub|]. split; [exact Hle|]. apply Hinv.
Qed.

Lemma daily_records_are_kept_witness :
  db_d (db Sample.day2) ⊆ db_d (db (Sample2.flushed3))
  ∧ chartDataCurrentDate Sample.day2 <= chartDataCurrentDate Sample2.flushed3
  ∧ 0 <= chartDataCurrentDate Sample.day2.
Proof.
  apply (daily_records_are_kept Sample.magic ∅ emptyDB
           [Sample.p0; Sample.p1; Sample.p2] Sample.p3).
  - reflexivity.
  - repeat constructor; vm_compute; discriminate.
  - vm_compute. reflexivity.
  - vm_compute. reflexivity.
Defined.

(** X6. The aggregator never throws on what it built itself: whatever
    points are observed on a freshly constructed index, every call returns,
    although the flush reduces the buffer with no initial value and that
    throws on an empty buffer. *)
Theorem observing_never_throws
  (magic : Z) (chain : gmap Hash TX) (store : DB) (points : list ChartData) :
  is_Ok (observeAll (newHnscanDB magic chain store) points) = true
  ∧ is_Ok (ChartData_.fromArray []) = false.
Proof.
  split; [|reflexivity].
  destruct (observeAll_total points (newHnscanDB magic chain store))
    as (hdb & ->); [|reflexivity].
  simpl. intros H. congruence.
Qed.

(** ** The chart series *)

Lemma elem_of_iterateTimes (m : gmap Z RawChart) (startTime endTime k : Z)
  (rec : RawChart) :
  (k, rec) ∈ iterateTimes m startTime endTime
  ↔ m !! k = Some rec ∧ startTime <= k <= endTime.
Proof.
  unfold iterateTimes.
  rewrite merge_sort_Permutation, list_elem_of_filter, elem_of_map_to_list.
  simpl. tauto.
Qed.

Local Instance time_le_total : Total time_le.
Proof. intros a b. unfold time_le. lia. Qed.

Local Instance time_le_trans : Transitive time_le.
Proof. intros a b c. unfold time_le. lia. Qed.

Lemma NoDup_iterateTimes (m : gmap Z RawChart) (startTime endTime : Z) :
  NoDup (map fst (iterateTimes m startTime endTime)).
Proof.
  unfold iterateTimes. rewrite merge_sort_Permutation.
  pose proof (NoDup_fst_map_to_list m) as Hnd. revert Hnd.
  induction (map_to_list m) as [|[k v] l IH]; intros Hnd.
  - constructor.
  - simpl in Hnd. inversion Hnd as [|? ? Hnin Hl]; subst.
    rewrite filter_cons. simpl.
    destruct (decide (startTime <= k <= endTime)); [|apply IH; exact Hl].
    simpl. constructor; [|apply IH; exact Hl].
    intros Hin. apply Hnin.
    apply list_elem_of_fmap in Hin as ([k' v'] & Hk & Hin).
    simpl in Hk. subst k'. apply list_elem_of_filter in Hin as [_ Hin].
    apply (list_elem_of_fmap_2 fst) in Hin. exact Hin.
Qed.

Lemma iterateTimes_ascending (m : gmap Z RawChart) (startTime endTime : Z) :
  StronglySorted (fun a b : Z * RawChart => fst a < fst b)
    (iterateTimes m startTime endTime).
Proof.
  pose proof (NoDup_iterateTimes m startTime endTime) as Hnd.
  assert (Hs : StronglySorted time_le (iterateTimes m startTime endTime))
    by (unfold iterateTimes; apply StronglySorted_merge_sort; apply _).
  revert Hnd Hs. generalize (iterateTimes m startTime endTime). intros l.
  induction l as [|[k v] l IH]; intros Hnd Hs; [constructor|].
  simpl in Hnd. inversion Hnd as [|? ? Hnin Hl]; subst.
  apply StronglySorted_cons in Hs as [Hall Hs].
  constructor; [apply IH; assumption|].
  apply Forall_forall. intros [k' v'] Hin. simpl.
  rewrite Forall_forall in Hall. specialize (Hall _ Hin).
  unfold time_le in Hall. simpl in Hall.
  assert (k ≠ k'); [|lia].
  intros ->. apply Hnin. apply (list_elem_of_fmap_2 fst) in Hin. exact Hin.
Qed.

Lemma mapM_is_Ok {A B : Type} (f : A → result B) (l : list A) :
  is_Ok (mapM f l) = true ↔ ∀ x, x ∈ l → is_Ok (f x) = true.
Proof.
  induction l as [|x l IH]; simpl.
  - split; [intros _ y Hy; inversion Hy | reflexivity].
  - destruct (f x) as [y|e] eqn:Hx; simpl.
    + destruct (mapM f l) as [ys|e]; simpl.
      * split; [|reflexivity]. intros _ z Hz.
        apply elem_of_cons in Hz as [->|Hz];
          [rewrite Hx; reflexivity | apply IH; [reflexivity | exact Hz]].
      * split; [discriminate|]. intros H. apply IH. intros z Hz.
        apply H. right. exact Hz.
    + split; [discriminate|]. intros H.
      specialize (H x ltac:(left)). rewrite Hx in H. discriminate.
Qed.

Lemma tickOf_Ok {B : Type} (read : ChartData → B) (kv : Z * RawChart)
  (t : Z * B) :
  tickOf read kv = Ok t
  ↔ ∃ c, decodeChart (snd kv) = Ok c ∧ t = (fst kv * 1000, read c).
Proof.
  unfold tickOf. destruct (decodeChart (snd kv)) as [c|e]; simpl.
  - split.
    + intros [= <-]. exists c. split; reflexivity.
    + intros (c' & [= <-] & ->). reflexivity.
  - split; [discriminate|]. intros (c' & Hc & _). discriminate.
Qed.

Lemma ticks_ascending {B : Type} (read : ChartData → B)
  (l : list (Z * RawChart)) (ticks : list (Z * B)) :
  Forall2 (fun kv t => tickOf read kv = Ok t) l ticks →
  StronglySorted (fun a b : Z * RawChart => fst a < fst b) l →
  StronglySorted (fun a b : Z * B => fst a < fst b) ticks.
Proof.
  induction 1 as [|kv t l ticks Hkv Hrest IH]; intros Hs; [constructor|].
  apply StronglySorted_cons in Hs as [Hall Hl].
  constructor; [apply IH; exact Hl|].
  apply tickOf_Ok in Hkv as (c & _ & ->).
  apply Forall_forall. intros t' Ht'.
  apply list_elem_of_lookup in Ht' as [i Hi].
  destruct (Forall2_lookup_r _ _ _ _ _ Hrest Hi) as (kv' & Hkv' & Hof).
  apply tickOf_Ok in Hof as (c' & _ & ->).
  rewrite Forall_forall in Hall.
  specialize (Hall kv' ltac:(apply list_elem_of_lookup; eexists; exact Hkv')).
  simpl in *. lia.
Qed.

(** X7. A series method returns exactly when every daily record whose time
    lies between the start and the end asked for, both included, decodes;
    it then holds one tick for each of these records and no other; the date
    of a tick is the time of the record in milliseconds, its value is read
    off the decoded record, and the ticks come with the dates strictly
    ascending. This is so for the difficulty, the transactions and the
    total transactions alike, which differ in the field they read. *)
Theorem series_are_the_records_in_range
  {B : Type} (read : ChartData → B) (hdb : HnscanDB) (startTime endTime : Z) :
  (is_Ok (seriesOf read hdb startTime endTime) = true
   ↔ ∀ (k : Z) (rec : RawChart),
       db_d (db hdb) !! k = Some rec → startTime <= k <= endTime →
       is_Ok (decodeChart rec) = true)
  ∧ (∀ ticks : list (Z * B),
       seriesOf read hdb startTime endTime = Ok ticks →
       StronglySorted (fun a b : Z * B => fst a < fst b) ticks
       ∧ ∀ (date : Z) (v : B),
           (date, v) ∈ ticks
           ↔ ∃ (k : Z) (rec : RawChart) (c : ChartData),
               db_d (db hdb) !! k = Some rec
               ∧ startTime <= k <= endTime
               ∧ date = k * 1000
               ∧ decodeChart rec = Ok c
               ∧ v = read c)
  ∧ getDifficultySeries hdb startTime endTime
    = seriesOf difficulty hdb startTime endTime
  ∧ getTransactionSeries hdb startTime endTime
    = seriesOf transactions hdb startTime endTime
  ∧ getTotalTransactionSeries hdb startTime endTime
    = seriesOf totalTx hdb startTime endTime.
Proof.
  split; [|split; [|repeat split]].
  - unfold seriesOf. rewrite mapM_is_Ok. split.
    + intros H k rec Hk Hrange.
      specialize (H (k, rec)
                    ltac:(apply elem_of_iterateTimes; split; assumption)).
      unfold tickOf in H. simpl in H.
      destruct (decodeChart rec); [reflexivity | discriminate].
    + intros H [k rec] Hin. apply elem_of_iterateTimes in Hin as [Hk Hrange].
      specialize (H k rec Hk Hrange). unfold tickOf. simpl.
      destruct (decodeChart rec); [reflexivity | discriminate].
  - intros ticks Hticks. unfold seriesOf in Hticks.
    apply mapM_Ok in Hticks. split.
    + apply (ticks_ascending read _ _ Hticks), iterateTimes_ascending.
    + intros date v. split.
      * intros Hin. apply list_elem_of_lookup in Hin as [i Hi].
        destruct (Forall2_lookup_r _ _ _ _ _ Hticks Hi)
          as ([k rec] & Hkv & Hof).
        apply tickOf_Ok in Hof as (c & Hc & [= -> ->]).
        assert (Hin : (k, rec) ∈ iterateTimes (db_d (db hdb)) startTime endTime)
          by (apply list_elem_of_lookup; eexists; exact Hkv).
        apply elem_of_iterateTimes in Hin as [Hk Hrange].
        exists k, rec, c. simpl in *. repeat split; try assumption; lia.
      * intros (k & rec & c & Hk & Hrange & -> & Hc & ->).
        assert (Hin : (k, rec) ∈ iterateTimes (db_d (db hdb)) startTime endTime)
          by (apply elem_of_iterateTimes; split; assumption).
        apply list_elem_of_lookup in Hin as [i Hi].
        destruct (Forall2_lookup_l _ _ _ _ _ Hticks Hi) as (t & Ht & Hof).
        apply tickOf_Ok in Hof as (c' & Hc' & ->). simpl in Hc'.
        rewrite Hc in Hc'. injection Hc' as <-.
        apply list_elem_of_lookup. exists i. exact Ht.
Qed.

Lemma singleton_list {A : Type} (l : list A) (x : A) :
  NoDup l → (∀ y, y ∈ l ↔ y = x) → l = [x].
Proof.
  intros Hnd Hin. destruct l as [|a l].
  - exfalso. apply (elem_of_nil x), Hin. reflexivity.
  - assert (a = x) by (apply Hin; left). subst a.
    destruct l as [|b l]; [reflexivity|].
    exfalso. inversion Hnd as [|? ? Hnin _]; subst.
    assert (b = x) by (apply Hin; right; left). subst b.
    apply Hnin. left.
Qed.

Lemma iterateTimes_one (m : gmap Z RawChart) (k : Z) (rec : RawChart) :
  m !! k = Some rec → iterateTimes m k k = [(k, rec)].
Proof.
  intros Hk. apply singleton_list.
  - apply (NoDup_fmap_1 fst), NoDup_iterateTimes.
  - intros [k' rec']. rewrite elem_of_iterateTimes. split.
    + intros [Hk' Hrange]. assert (k' = k) by lia. subst k'.
      rewrite Hk in Hk'. injection Hk' as ->. reflexivity.
    + intros [= -> ->]. split; [exact Hk | lia].
Qed.

Lemma isMaxOf_fits53 (f : ChartData → Z) (l : list ChartData) (m : Z) :
  isMaxOf f l m → Forall (fun c => fits53 (f c)) l → fits53 m.
Proof.
  intros [_ Hex] Hall. rewrite Forall_forall in Hall.
  apply Exists_exists in Hex as (c & Hc & <-). apply Hall, Hc.
Qed.

Lemma decodeChart_encodeChart (c : ChartData) :
  chartStorable c →
  decodeChart (encodeChart c)
  = Ok {| time := 0; difficulty := difficulty c;
          transactions := transactions c mod 2 ^ 32; supply := supply c;
          cburned := cburned c; totalTx := totalTx c |}.
Proof.
  intros (Hs & Hb & Hx). unfold decodeChart, encodeChart, fits53 in *.
  cbn [rdifficulty rtransactions rsupply rcburned rtotalTx].
  rewrite !readU64_writeU64 by assumption. reflexivity.
Qed.

(** X8. What is flushed is what the series show: once a point of a later
    day has closed the open bucket, on points whose supply, burned value and
    transaction total are numbers that 8 bytes carry unchanged, the series
    asked for the start of that later day alone hold one tick, dated at that
    time in milliseconds, whose value is the sum of the transactions of the
    points that were buffered as 32 bits hold it (the sum modulo 2^32), or
    the mean of their difficulties. *)
Theorem flushed_record_is_served
  (hdb : HnscanDB) (data p : ChartData) (rest : list ChartData) :
  chartDataCurrentDate hdb ≠ 0 →
  chartDataCurrent hdb = p :: rest →
  chartDataCurrentDate hdb < dayOf (time data) →
  Forall chartStorable (p :: rest) →
  ∃ hdb' : HnscanDB,
    setChartData hdb data = Ok hdb'
    ∧ getTransactionSeries hdb' (dayOf (time data) * 86400)
        (dayOf (time data) * 86400)
      = Ok [(dayOf (time data) * 86400 * 1000,
             sumZ (map transactions (p :: rest)) mod 2 ^ 32)]
    ∧ getDifficultySeries hdb' (dayOf (time data) * 86400)
        (dayOf (time data) * 86400)
      = Ok [(dayOf (time data) * 86400 * 1000,
             orZero (meanDifficulty (p :: rest)))].
Proof.
  intros H0 Hbuf Hlt Hfit.
  destruct (setChartData_flush hdb data p rest H0 Hbuf Hlt)
    as (avg & Hset & Hd & Hn & Hs & Hb & Hx).
  assert (Havg : chartStorable avg).
  { split; [|split].
    - apply (isMaxOf_fits53 supply _ _ Hs).
      eapply Forall_impl; [exact Hfit|]. intros c Hc. apply Hc.
    - apply (isMaxOf_fits53 cburned _ _ Hb).
      eapply Forall_impl; [exact Hfit|]. intros c Hc. apply Hc.
    - apply (isMaxOf_fits53 totalTx _ _ Hx).
      eapply Forall_impl; [exact Hfit|]. intros c Hc. apply Hc. }
  eexists. split; [exact Hset|].
  unfold getTransactionSeries, getDifficultySeries, seriesOf.
  cbn [db set_chart put_d db_d].
  replace (dayOf (time data) * 3600 * 24) with (dayOf (time data) * 86400)
    by lia.
  rewrite (iterateTimes_one _ _ (encodeChart avg)) by apply lookup_insert_eq.
  cbn [mapM]. unfold tickOf. cbn [fst snd].
  rewrite (decodeChart_encodeChart _ Havg). cbn [bind transactions difficulty].
  rewrite Hd, Hn. split; reflexivity.
Qed.

Lemma flushed_record_is_served_witness :
  ∃ hdb' : HnscanDB,
    setChartData Sample.day2 Sample.p3 = Ok hdb'
    ∧ getTransactionSeries hdb' (dayOf (time Sample.p3) * 86400)
        (dayOf (time Sample.p3) * 86400)
      = Ok [(dayOf (time Sample.p3) * 86400 * 1000,
             sumZ (map transactions (Sample.p1 :: [Sample.p2])) mod 2 ^ 32)]
    ∧ getDifficultySeries hdb' (dayOf (time Sample.p3) * 86400)
        (dayOf (time Sample.p3) * 86400)
      = Ok [(dayOf (time Sample.p3) * 86400 * 1000,
             orZero (meanDifficulty (Sample.p1 :: [Sample.p2])))].
Proof.
  apply (flushed_record_is_served Sample.day2 Sample.p3 Sample.p1
           [Sample.p2]).
  - vm_compute. discriminate.
  - vm_compute. reflexivity.
  - vm_compute. reflexivity.
  - repeat constructor; vm_compute; congruence.
Defined.

(** ** The address index: how the queries agree *)

Lemma filter_fmap_commute {A B : Type} (g : A → B) (P : B → Prop)
  `{∀ y, Decision (P y)} (l : list A) :
  filter P (map g l) = map g (filter (fun x => P (g x)) l).
Proof.
  induction l as [|x l IH]; [reflexivity|].
  simpl. rewrite !filter_cons.
  destruct (decide (P (g x))); simpl; rewrite IH; reflexivity.
Qed.

(** The unspent records are the funding records for which the store has no
    spend pointer. *)
Lemma unspent_by_pointer (hdb : HnscanDB) (funding : list Funding)
  (spents : list Spent) :
  NoDup (map f_tx_hash funding) →
  _addressSpent hdb funding = Ok spents →
  filter (fun u => (u_tx_hash u, u_tx_pos u) ∉ map s_funding_output spents)
    (map toUnspent funding)
  = map toUnspent (filter (fun f => hasNoSpend hdb f = true) funding).
Proof.
  intros Hnd Hsp. rewrite filter_fmap_commute. f_equal.
  apply filter_ext_elem. intros f Hf. simpl.
  assert (Hok : ∃ r, spentOf hdb f = Ok r).
  { unfold _addressSpent in Hsp.
    apply bind_Ok in Hsp as (found & Hfound & _). apply mapM_Ok in Hfound.
    apply list_elem_of_lookup in Hf as [k Hk].
    destruct (Forall2_lookup_l _ _ _ _ _ Hfound Hk) as (r & _ & Hr).
    exists r. exact Hr. }
  destruct Hok as (r & Hr). unfold hasNoSpend. rewrite Hr.
  destruct r as [sp|].
  - split; [|discriminate]. intros Hnot. exfalso. apply Hnot.
    destruct (spentOf_fields hdb f sp Hr) as (Hpair & _).
    rewrite <- Hpair. apply (list_elem_of_fmap_2 s_funding_output).
    apply (spents_of_funding _ _ _ Hsp). exists f. split; assumption.
  - split; [reflexivity|]. intros _ Hin.
    apply list_elem_of_fmap in Hin as (sp & Hpair & Hin).
    apply (spents_of_funding _ _ _ Hsp) in Hin as (f' & Hf' & Hsp').
    destruct (spentOf_fields hdb f' sp Hsp') as (Hpair' & _).
    rewrite Hpair' in Hpair. injection Hpair as Hhash _.
    assert (f = f') by (apply (NoDup_fmap_eq f_tx_hash funding); assumption).
    subst f'. congruence.
Qed.

Lemma funding_splits (hdb : HnscanDB) (funding : list Funding)
  (found : list (option Spent)) :
  Forall2 (fun f r => spentOf hdb f = Ok r) funding found →
  (length (filter (fun f => hasNoSpend hdb f = true) funding)
   + length (omap id found) = length funding)%nat
  ∧ sumZ (map (fun f => valueOr0 (f_value f)) funding)
    = sumZ (map (fun f => valueOr0 (f_value f))
              (filter (fun f => hasNoSpend hdb f = true) funding))
      + sumZ (map (fun sp => valueOr0 (s_value sp)) (omap id found)).
Proof.
  induction 1 as [|f r funding found Hr _ [IHn IHs]].
  - split; reflexivity.
  - rewrite filter_cons. destruct r as [sp|].
    + assert (Hh : hasNoSpend hdb f = false)
        by (unfold hasNoSpend; rewrite Hr; reflexivity).
      rewrite decide_False by (rewrite Hh; discriminate).
      destruct (spentOf_fields hdb f sp Hr) as (_ & Hv & _).
      unfold sumZ in *. csimpl. rewrite Hv. split; lia.
    + assert (Hh : hasNoSpend hdb f = true)
        by (unfold hasNoSpend; rewrite Hr; reflexivity).
      rewrite decide_True by exact Hh.
      unfold sumZ in *. csimpl. split; lia.
Qed.

Lemma sum_of_Some {A : Type} (g : A → option Z) (l : list A)
  (vals : list Z) :
  map g l = map Some vals → sumZ vals = sumZ (map (fun x => valueOr0 (g x)) l).
Proof.
  revert vals. induction l as [|x l IH]; intros [|v vals]; simpl;
    try discriminate; [reflexivity|].
  intros [= Hx Hl]. unfold sumZ in *. simpl. rewrite Hx. simpl.
  rewrite (IH vals Hl). reflexivity.
Qed.

Lemma addressUnspent_by_pointer (hdb : HnscanDB) (addr : Hash)
  (unspent : list Unspent) :
  addressUnspent hdb addr = Ok unspent →
  ∃ (funding : list Funding) (spents : list Spent),
    _addressFunding hdb addr = Ok funding
    ∧ _addressSpent hdb funding = Ok spents
    ∧ unspent
      = map toUnspent (filter (fun f => hasNoSpend hdb f = true) funding).
Proof.
  intros Hu.
  destruct (addressUnspent_returned hdb addr unspent Hu)
    as (funding & spents & Hfund & Hsp & Hnd & ->).
  exists funding, spents.
  split; [exact Hfund|]. split; [exact Hsp|].
  apply (unspent_by_pointer hdb funding spents Hnd Hsp).
Qed.

(** X9. The three views of an address agree in number: when the queries
    return, every funding record is either unspent or has given one spent
    record, so the unspent and the spent records together are as many as
    the funding records; the history lists the funding transactions, in the
    order of the index, and after them the spending transactions. *)
Theorem address_views_agree (hdb : HnscanDB) (addr : Hash)
  (unspent : list Unspent) :
  addressUnspent hdb addr = Ok unspent →
  ∃ (funding : list Funding) (spents : list Spent) (history : list HistoryTX),
    _addressFunding hdb addr = Ok funding
    ∧ _addressSpent hdb funding = Ok spents
    ∧ addressHistory hdb addr = Ok history
    ∧ (length unspent + length spents = length funding)%nat
    ∧ length history = (length funding + length spents)%nat
    ∧ map ht_tx_hash history = map f_tx_hash funding ++ map s_tx_hash spents
    ∧ unspent
      = map toUnspent (filter (fun f => hasNoSpend hdb f = true) funding).
Proof.
  intros Hu.
  destruct (addressUnspent_returned hdb addr unspent Hu)
    as (funding & spents & Hfund & Hsp & Hnd & ->).
  exists funding, spents. eexists.
  split; [exact Hfund|]. split; [exact Hsp|]. split.
  { unfold addressHistory, addressFunding, addressSpent.
    rewrite Hfund. simpl. rewrite Hsp. simpl. reflexivity. }
  rewrite (unspent_by_pointer hdb funding spents Hnd Hsp).
  unfold _addressSpent in Hsp.
  apply bind_Ok in Hsp as (found & Hfound & [= <-]). apply mapM_Ok in Hfound.
  destruct (funding_splits hdb funding found Hfound) as [Hn _].
  rewrite !length_app, !length_map. split; [exact Hn|].
  split; [reflexivity|]. split; [|reflexivity].
  rewrite map_app, !map_map. reflexivity.
Qed.

Lemma address_views_agree_witness :
  ∃ (funding : list Funding) (spents : list Spent) (history : list HistoryTX),
    _addressFunding Sample.indexed Sample.addrA = Ok funding
    ∧ _addressSpent Sample.indexed funding = Ok spents
    ∧ addressHistory Sample.indexed Sample.addrA = Ok history
    ∧ (length Sample2.unspentA + length spents = length funding)%nat
    ∧ length history = (length funding + length spents)%nat
    ∧ map ht_tx_hash history = map f_tx_hash funding ++ map s_tx_hash spents
    ∧ Sample2.unspentA
      = map toUnspent
          (filter (fun f => hasNoSpend Sample.indexed f = true) funding).
Proof.
  apply (address_views_agree Sample.indexed Sample.addrA Sample2.unspentA).
  vm_compute. reflexivity.
Defined.

(** X10. The confirmed balance is what is unspent: when both queries
    return, the confirmed balance of an address is the sum of the values of
    its unspent records. *)
Theorem balance_is_the_unspent_value (hdb : HnscanDB) (addr : Hash)
  (b : Balance) (unspent : list Unspent) :
  addressBalance hdb addr = Ok b →
  addressUnspent hdb addr = Ok unspent →
  confirmed b = Some (sumZ (map (fun u => valueOr0 (u_value u)) unspent))
  ∧ Forall (fun u => is_Some (u_value u)) unspent.
Proof.
  intros Hb Hu.
  destruct (addressBalance_returned hdb addr b Hb)
    as (funding & spents & fvals & svals & Hfund & Hsp & Hfv & Hsv
        & _ & _ & Hconf & _).
  destruct (addressUnspent_by_pointer hdb addr unspent Hu)
    as (funding' & spents' & Hfund' & Hsp' & Hun).
  rewrite Hfund in Hfund'. injection Hfund' as <-.
  rewrite Hsp in Hsp'. injection Hsp' as <-.
  pose proof (returned_resolved _ _ _ _ Hfund Hsp) as Hres.
  unfold _addressSpent in Hsp.
  apply bind_Ok in Hsp as (found & Hfound & [= <-]). apply mapM_Ok in Hfound.
  destruct (funding_splits hdb funding found Hfound) as [_ Hsum].
  rewrite Hconf, (sum_of_Some f_value funding fvals Hfv),
    (sum_of_Some s_value (omap id found) svals Hsv), Hsum, Hun.
  split.
  - f_equal. rewrite map_map. simpl. lia.
  - apply Forall_fmap, Forall_forall. intros f Hf. simpl.
    apply list_elem_of_filter in Hf as [_ Hf].
    rewrite Forall_forall in Hres. apply (Hres f Hf).
Qed.

Lemma balance_is_the_unspent_value_witness :
  confirmed Sample2.balanceA
  = Some (sumZ (map (fun u => valueOr0 (u_value u)) Sample2.unspentA))
  ∧ Forall (fun u => is_Some (u_value u)) Sample2.unspentA.
Proof.
  apply (balance_is_the_unspent_value Sample.indexed Sample.addrA);
    vm_compute; reflexivity.
Defined.

(** ** The address index: errors and edges *)

Lemma mapM_fails {A B : Type} (f : A → result B) (l : list A) (x : A) :
  x ∈ l → is_Ok (f x) = false → is_Ok (mapM f l) = false.
Proof.
  intros Hin Hx. induction l as [|y l IH]; [inversion Hin|].
  simpl. apply elem_of_cons in Hin as [<-|Hin].
  - destruct (f x); [discriminate | reflexivity].
  - destruct (f y) as [b|e]; [|reflexivity]. simpl.
    specialize (IH Hin). destruct (mapM f l); [discriminate | reflexivity].
Qed.

(** X11. An index entry the ledger does not back hides its own error: when
    the index lists, for an address, a transaction the chain client does
    not know, [addressFunding] catches the error and answers [undefined],
    and the balance, the history and the unspent outputs of the address
    all throw the same [TypeError] of a failed destructuring. *)
Theorem unknown_transaction_fails_every_query
  (hdb : HnscanDB) (addr txid_ : Hash) (height : Z) :
  db_o (db hdb) !! (addr, txid_) = Some height →
  client hdb !! txid_ = None →
  addressFunding hdb addr = None
  ∧ addressBalance hdb addr = Throw "TypeError: undefined is not iterable"
  ∧ addressHistory hdb addr = Throw "TypeError: undefined is not iterable"
  ∧ addressUnspent hdb addr = Throw "TypeError: undefined is not iterable".
Proof.
  intros Ho Hc.
  assert (Hf : addressFunding hdb addr = None).
  { unfold addressFunding, _addressFunding.
    pose proof (mapM_fails (fundingOf hdb addr)
                  (iterate (db_o (db hdb)) addr) (txid_, height)) as Hfail.
    destruct (mapM (fundingOf hdb addr) (iterate (db_o (db hdb)) addr));
      [|reflexivity].
    exfalso. assert (true = false); [|discriminate]. apply Hfail.
    - apply elem_of_iterate. exact Ho.
    - unfold fundingOf. simpl. rewrite Hc. reflexivity. }
  split; [exact Hf|].
  unfold addressBalance, addressHistory, addressUnspent. rewrite Hf.
  repeat split.
Qed.

Lemma unknown_transaction_fails_every_query_witness :
  addressFunding Sample2.dangling Sample.addrA = None
  ∧ addressBalance Sample2.dangling Sample.addrA
    = Throw "TypeError: undefined is not iterable"
  ∧ addressHistory Sample2.dangling Sample.addrA
    = Throw "TypeError: undefined is not iterable"
  ∧ addressUnspent Sample2.dangling Sample.addrA
    = Throw "TypeError: undefined is not iterable".
Proof.
  apply (unknown_transaction_fails_every_query Sample2.dangling Sample.addrA
           [5; 5]%N 3); vm_compute; reflexivity.
Defined.

Lemma iterate_nil (m : gmap (Hash * Hash) Z) (hash : Hash) :
  map_Forall (fun k (_ : Z) => fst k ≠ hash) m → iterate m hash = [].
Proof.
  intros Hm. destruct (iterate m hash) as [|[key v] l] eqn:Hl; [reflexivity|].
  exfalso. assert (Hin : (key, v) ∈ iterate m hash) by (rewrite Hl; left).
  apply elem_of_iterate in Hin. apply (Hm _ _ Hin). reflexivity.
Qed.

(** X12. An address the index has never seen is not an error: when no
    funding key of the store starts with the address, its balance is 0
    received, 0 spent, 0 confirmed and 0 unconfirmed, and its history and
    its unspent outputs are empty. *)
Theorem unknown_address_is_empty (hdb : HnscanDB) (addr : Hash) :
  map_Forall (fun k (_ : Z) => fst k ≠ addr) (db_o (db hdb)) →
  addressBalance hdb addr
  = Ok {| confirmed := Some 0; unconfirmed := Some 0; received := Some 0;
          spent := Some 0 |}
  ∧ addressHistory hdb addr = Ok []
  ∧ addressUnspent hdb addr = Ok [].
Proof.
  intros Hm. pose proof (iterate_nil _ _ Hm) as Hnil.
  unfold addressBalance, addressHistory, addressUnspent, addressFunding,
    _addressFunding.
  rewrite Hnil. repeat split.
Qed.

Lemma unknown_address_is_empty_witness :
  addressBalance Sample.indexed Sample.addrB
  = Ok {| confirmed := Some 0; unconfirmed := Some 0; received := Some 0;
          spent := Some 0 |}
  ∧ addressHistory Sample.indexed Sample.addrB = Ok []
  ∧ addressUnspent Sample.indexed Sample.addrB = Ok [].
Proof.
  apply (unknown_address_is_empty Sample.indexed Sample.addrB).
  apply map_Forall_to_list. vm_compute.
  repeat constructor; discriminate.
Defined.

(** X13. The spend pointer is keyed by the first 8 bytes of the
    transaction id: two funding records whose transaction ids agree on
    these bytes and that name the same output index are spent together, by
    the same spending transaction at the same height, or not at all, and
    so both or neither of them are in the unspent outputs. *)
Theorem truncated_pointer_spends_both
  (hdb : HnscanDB) (addr : Hash) (unspent : list Unspent)
  (funding : list Funding) (f1 f2 : Funding) :
  addressUnspent hdb addr = Ok unspent →
  _addressFunding hdb addr = Ok funding →
  f1 ∈ funding → f2 ∈ funding →
  take 8 (f_tx_hash f1) = take 8 (f_tx_hash f2) →
  f_output_index f1 = f_output_index f2 →
  (toUnspent f1 ∈ unspent ↔ toUnspent f2 ∈ unspent)
  ∧ (∀ sp1, spentOf hdb f1 = Ok (Some sp1) →
       ∃ sp2, spentOf hdb f2 = Ok (Some sp2)
              ∧ s_tx_hash sp2 = s_tx_hash sp1
              ∧ s_height sp2 = s_height sp1).
Proof.
  intros Hu Hfund H1 H2 Hpre Hidx.
  assert (Hsame : hasNoSpend hdb f1 = hasNoSpend hdb f2).
  { unfold hasNoSpend, spentOf. rewrite Hpre, Hidx.
    destruct (layout_i_encode (take 8 (f_tx_hash f2)) (f_output_index f2))
      as [key|e]; simpl; [|reflexivity].
    destruct (db_i (db hdb) !! key) as [X|]; [|reflexivity].
    destruct (db_t (db hdb) !! X); reflexivity. }
  split.
  - destruct (addressUnspent_by_pointer hdb addr unspent Hu)
      as (funding' & spents & Hfund' & _ & ->).
    rewrite Hfund in Hfund'. injection Hfund' as <-.
    assert (Hin : ∀ f, f ∈ funding →
              (toUnspent f
               ∈ map toUnspent
                   (filter (fun f0 => hasNoSpend hdb f0 = true) funding)
               ↔ hasNoSpend hdb f = true)).
    { intros f Hf. rewrite list_elem_of_fmap. split.
      - intros (f' & Heq & Hf'). apply list_elem_of_filter in Hf' as [Hns _].
        destruct f, f'. unfold toUnspent in Heq. simpl in Heq.
        injection Heq as -> -> -> ->. exact Hns.
      - intros Hns. exists f. split; [reflexivity|].
        apply list_elem_of_filter. split; assumption. }
    rewrite (Hin f1 H1), (Hin f2 H2), Hsame. reflexivity.
  - intros sp1. unfold spentOf. rewrite Hpre, Hidx.
    destruct (layout_i_encode (take 8 (f_tx_hash f2)) (f_output_index f2))
      as [key|e]; simpl; [|discriminate].
    destruct (db_i (db hdb) !! key) as [X|]; [|discriminate].
    destruct (db_t (db hdb) !! X) as [raw|]; [|discriminate].
    intros [= <-]. eexists. split; [reflexivity|]. split; reflexivity.
Qed.

Lemma truncated_pointer_spends_both_witness :
  (toUnspent Sample2.fundingTwinA ∈ ([] : list Unspent)
   ↔ toUnspent Sample2.fundingTwinB ∈ ([] : list Unspent))
  ∧ (∀ sp1, spentOf Sample2.twins Sample2.fundingTwinA = Ok (Some sp1) →
       ∃ sp2, spentOf Sample2.twins Sample2.fundingTwinB = Ok (Some sp2)
              ∧ s_tx_hash sp2 = s_tx_hash sp1
              ∧ s_height sp2 = s_height sp1).
Proof.
  apply (truncated_pointer_spends_both Sample2.twins Sample.addrA []
           [Sample2.fundingTwinA; Sample2.fundingTwinB]).
  - vm_compute. reflexivity.
  - vm_compute. reflexivity.
  - left.
  - right. left.
  - reflexivity.
  - reflexivity.
Defined.

(** ** A comparison function that is consistent keeps ties in place *)

Section ArraySortStable.
Context {A : Type} (comparefn : A → A → Z) (key : A → Z).
Hypothesis negative_iff : ∀ x y, comparefn x y < 0 ↔ key y < key x.

Lemma filter_none (h : Z) (l : list A) :
  Forall (fun x => key x ≠ h) l → filter (fun x => key x = h) l = [].
Proof.
  induction 1 as [|x l Hx _ IH]; [reflexivity|].
  rewrite filter_cons_False; assumption.
Qed.

Lemma search_strict (fuel : nat) (pivot : A) (work : list A)
  (left right : nat) :
  StronglySorted (descendingBy key) work →
  (left <= right <= length work)%nat →
  (right - left <= fuel)%nat →
  Forall (fun x => key pivot <= key x) (take left work) →
  Forall (fun x => key x < key pivot) (drop right work) →
  Forall (fun x => key x < key pivot)
    (drop (search comparefn fuel pivot work left right) work).
Proof.
  intros Hsorted. revert left right.
  induction fuel as [|fuel IH]; intros left right Hrange Hfuel Hl Hr.
  - simpl. assert (left = right) by lia. subst right. exact Hr.
  - rewrite search_step. destruct (left <? right)%nat eqn:Hlt.
    + apply Nat.ltb_lt in Hlt.
      pose proof (half_lt (right - left)) as Hhalf.
      set (mid := (left + (right - left) / 2)%nat) in *.
      assert (Hmid : (left <= mid < right)%nat) by (unfold mid; lia).
      destruct (lookup_lt_is_Some_2 work mid) as [x Hx]; [lia|].
      rewrite Hx.
      pose proof (take_drop_middle work mid x Hx) as Hsplit.
      rewrite <- Hsplit in Hsorted.
      destruct (comparefn pivot x <? 0) eqn:Hcmp.
      * apply Z.ltb_lt, negative_iff in Hcmp.
        apply IH; [lia | lia | exact Hl |].
        rewrite (drop_S work x mid Hx). constructor; [exact Hcmp|].
        apply StronglySorted_app_1_r, StronglySorted_cons in Hsorted
          as [Hafter _].
        eapply Forall_impl; [exact Hafter|].
        unfold descendingBy. intros y Hy. lia.
      * apply Z.ltb_ge in Hcmp.
        assert (Hpx : key pivot <= key x).
        { destruct (Z.lt_ge_cases (key x) (key pivot)) as [Hc|Hc];
            [apply negative_iff in Hc; lia | exact Hc]. }
        apply IH; [lia | lia | | exact Hr].
        rewrite (take_S_r work mid x Hx). apply Forall_app. split.
        -- apply Forall_forall. intros y Hy.
           assert (descendingBy key y x)
             by (apply (StronglySorted_app_1_elem_of _ _ _ _ _ Hsorted);
                 [exact Hy | left]).
           unfold descendingBy in *. lia.
        -- constructor; [exact Hpx | constructor].
    + apply Nat.ltb_ge in Hlt. assert (left = right) by lia. subst right.
      exact Hr.
Qed.

(** Inserting the pivot puts it behind every element of its key. *)
Lemma insertPivot_stable (h : Z) (work : list A) (pivot : A) :
  StronglySorted (descendingBy key) work →
  filter (fun x => key x = h) (insertPivot comparefn work pivot)
  = filter (fun x => key x = h) (work ++ [pivot]).
Proof.
  intros Hsorted. unfold insertPivot.
  pose proof (search_strict (length work) pivot work 0 (length work) Hsorted)
    as Hafter.
  set (p := search comparefn (length work) pivot work 0 (length work)) in *.
  assert (Hdrop : Forall (fun x => key x < key pivot) (drop p work)).
  { apply Hafter; [lia | lia | constructor |].
    rewrite drop_all. constructor. }
  rewrite <- (take_drop p work) at 3.
  rewrite !filter_app. rewrite <- app_assoc. f_equal.
  destruct (decide (key pivot = h)) as [Hk|Hk].
  - rewrite !filter_cons_True by exact Hk.
    rewrite filter_nil, (filter_none h (drop p work)).
    + reflexivity.
    + eapply Forall_impl; [exact Hdrop|]. simpl. intros x Hx. lia.
  - rewrite !filter_cons_False by exact Hk. rewrite filter_nil, app_nil_r.
    reflexivity.
Qed.

Lemma binaryInsertionSort_stable (h : Z) (rest run : list A) :
  StronglySorted (descendingBy key) run →
  filter (fun x => key x = h) (binaryInsertionSort comparefn run rest)
  = filter (fun x => key x = h) (run ++ rest).
Proof.
  assert (Hnf : ∀ x y, comparefn x y < 0 → key y <= key x).
  { intros x y Hc. apply negative_iff in Hc. lia. }
  assert (Hol : ∀ x y, ¬ comparefn x y < 0 → key x <= key y).
  { intros x y Hc. destruct (Z.lt_ge_cases (key y) (key x)) as [H|H];
      [apply negative_iff in H; contradiction | exact H]. }
  unfold binaryInsertionSort. revert run.
  induction rest as [|pivot rest IH]; intros run Hrun; simpl.
  - rewrite app_nil_r. reflexivity.
  - destruct (insertPivot_sorted comparefn key Hnf Hol run pivot Hrun)
      as [Hs _].
    rewrite (IH _ Hs). rewrite filter_app, (insertPivot_stable h run pivot Hrun).
    rewrite <- filter_app, <- app_assoc. reflexivity.
Qed.

(** A run that is reversed has no two elements of one key. *)
Lemma runMore_strict (l : list A) (prev : A) :
  Sorted (fun x y => key x < key y)
    (prev :: take (runMore comparefn true prev l) l).
Proof.
  revert prev. induction l as [|cur l IH]; intros prev; simpl.
  - repeat constructor.
  - destruct (comparefn cur prev <? 0) eqn:Hc; simpl.
    + constructor; [apply IH|]. constructor.
      apply Z.ltb_lt, negative_iff in Hc. exact Hc.
    + repeat constructor.
Qed.

Lemma filter_strict_reverse (h : Z) (l : list A) :
  StronglySorted (fun x y => key x < key y) l →
  filter (fun x => key x = h) (reverse l) = filter (fun x => key x = h) l.
Proof.
  induction 1 as [|x l _ IH Hx]; [reflexivity|].
  rewrite reverse_cons, filter_app, IH.
  destruct (decide (key x = h)) as [Hk|Hk].
  - rewrite !filter_cons_True by exact Hk. rewrite filter_nil.
    rewrite (filter_none h l); [reflexivity|].
    eapply Forall_impl; [exact Hx|]. simpl. intros y Hy. lia.
  - rewrite !filter_cons_False by exact Hk. rewrite filter_nil, app_nil_r.
    reflexivity.
Qed.

Lemma countAndMakeRun_stable (h : Z) (l : list A) :
  filter (fun x => key x = h)
    (fst (countAndMakeRun comparefn l) ++ snd (countAndMakeRun comparefn l))
  = filter (fun x => key x = h) l.
Proof.
  destruct l as [|lo [|hi rest]]; simpl; try reflexivity.
  destruct (comparefn hi lo <? 0) eqn:Hc; simpl.
  - pose proof (runMore_strict rest hi) as Hchain.
    set (k := runMore comparefn true hi rest) in *.
    rewrite filter_app.
    rewrite (filter_strict_reverse h (lo :: hi :: take k rest)).
    + rewrite <- filter_app. simpl. rewrite take_drop. reflexivity.
    + apply Sorted_StronglySorted; [intros x y z Hxy Hyz; lia|].
      constructor; [exact Hchain|]. constructor.
      apply Z.ltb_lt, negative_iff in Hc. exact Hc.
  - rewrite take_drop. reflexivity.
Qed.

Lemma Array_sort_stable (h : Z) (l : list A) :
  filter (fun x => key x = h) (Array_sort comparefn l)
  = filter (fun x => key x = h) l.
Proof.
  assert (Hnf : ∀ x y, comparefn x y < 0 → key y <= key x).
  { intros x y Hc. apply negative_iff in Hc. lia. }
  assert (Hol : ∀ x y, ¬ comparefn x y < 0 → key x <= key y).
  { intros x y Hc. destruct (Z.lt_ge_cases (key y) (key x)) as [H|H];
      [apply negative_iff in H; contradiction | exact H]. }
  unfold Array_sort. destruct (length l <? 2)%nat; [reflexivity|].
  destruct (countAndMakeRun_sorted comparefn key Hnf Hol l) as [Hrun _].
  rewrite (binaryInsertionSort_stable h _ _ Hrun).
  apply countAndMakeRun_stable.
Qed.

End ArraySortStable.

(** X14. [util.sortTXs] is a stable sort: its result holds the records it
    was given, each once, the higher block first, and the records of one
    height keep the order they came in. *)
Theorem sortTXs_keeps_ties_in_order (txs_ : list Auction) :
  StronglySorted (descendingBy a_height) (sortTXs txs_)
  ∧ sortTXs txs_ ≡ₚ txs_
  ∧ ∀ height : Z,
      filter (fun a => a_height a = height) (sortTXs txs_)
      = filter (fun a => a_height a = height) txs_.
Proof.
  destruct (sortTXs_descending txs_) as [Hs Hp].
  split; [exact Hs|]. split; [exact Hp|].
  intros height.
  apply (Array_sort_stable (fun a b => a_height b - a_height a) a_height).
  intros x y. lia.
Qed.

(** ** The pages of a name's history *)

Lemma mapM_app {A B : Type} (f : A → result B) (l1 l2 : list A) :
  mapM f (l1 ++ l2)
  = bind (mapM f l1) (fun ys1 =>
      bind (mapM f l2) (fun ys2 => Ok (ys1 ++ ys2))).
Proof.
  induction l1 as [|x l1 IH]; simpl.
  - destruct (mapM f l2); reflexivity.
  - destruct (f x) as [y|e]; simpl; [|reflexivity].
    rewrite IH. destruct (mapM f l1) as [ys1|e]; simpl; [|reflexivity].
    destruct (mapM f l2); reflexivity.
Qed.

Lemma slice_add {A : Type} (l : list A) (offset n m : nat) :
  slice l offset (n + m) = slice l offset n ++ slice l (offset + n) m.
Proof.
  unfold slice. rewrite <- take_take_drop, drop_drop. reflexivity.
Qed.

(** What an entry of the history says of the output it was made from. *)
Lemma historyOfOutputs_sound (nameHash : Hash) (t : TXJSON) (rec : Auction)
  (outs : list Output) (j : Z) (entries : list History) (pre : list Output) :
  historyOfOutputs nameHash t rec outs j = Ok entries →
  j = Z.of_nat (length pre) →
  Forall (fun e =>
            ∃ out, 0 <= h_index e
                   ∧ (pre ++ outs) !! Z.to_nat (h_index e) = Some out
                   ∧ isName (covenant out) = true
                   ∧ items (covenant out) !! 0%nat = Some nameHash
                   ∧ h_txid e = a_tx_hash rec
                   ∧ h_time e = mtime t
                   ∧ action e = fst (actionOf out)
                   ∧ h_value e = snd (actionOf out))
         entries.
Proof.
  revert j entries pre.
  induction outs as [|out outs IH]; intros j entries pre; simpl.
  - intros [= <-] _. constructor.
  - intros H Hj. apply bind_Ok in H as (here & Hhere & H).
    apply bind_Ok in H as (more & Hmore & [= <-]).
    apply Forall_app. split.
    + destruct (isName (covenant out)) eqn:Hname;
        [|injection Hhere as <-; constructor].
      destruct (items (covenant out) !! 0%nat) as [item|] eqn:Hitem;
        [|discriminate].
      destruct (decide (item = nameHash)) as [->|_];
        [|injection Hhere as <-; constructor].
      injection Hhere as <-. constructor; [|constructor].
      exists out. simpl. split; [lia|]. split.
      * apply list_lookup_middle. lia.
      * repeat split; assumption.
    + specialize (IH (j + 1) more (pre ++ [out]) Hmore).
      rewrite <- app_assoc in IH. simpl in IH. apply IH.
      rewrite length_app. simpl. lia.
Qed.

(** X15. Every entry of a page of a name's history is backed by the index
    and by the ledger: it carries the transaction id and the height of a
    record the index has for the name, and its [index] is the position, in
    that transaction, of a name output whose first covenant item is the hash
    of the name; its time is the transaction's and its action and value are
    read off that output. The page is descending by height and the total is
    the number of records of the name, whatever page was asked for. *)
Theorem name_history_entries_are_name_outputs
  (hs : Hnscan) (nameHash : Hash) (offset limit : nat)
  (history : list History) (total : nat) :
  getNameHistory hs nameHash offset limit = Ok (history, total) →
  total = length (nameHistory (hdb_ hs) nameHash)
  ∧ StronglySorted (descendingBy h_height) history
  ∧ Forall (fun e =>
              ∃ rec t out,
                rec ∈ nameHistory (hdb_ hs) nameHash
                ∧ getTransaction hs (a_tx_hash rec) = Some t
                ∧ 0 <= h_index e
                ∧ j_outputs t !! Z.to_nat (h_index e) = Some out
                ∧ isName (covenant out) = true
                ∧ items (covenant out) !! 0%nat = Some nameHash
                ∧ h_txid e = a_tx_hash rec
                ∧ h_height e = a_height rec
                ∧ h_time e = mtime t
                ∧ action e = fst (actionOf out)
                ∧ h_value e = snd (actionOf out))
           history.
Proof.
  intros H.
  destruct (getNameHistory_descending hs nameHash offset limit history total H)
    as [Hdesc Htotal].
  split; [exact Htotal|]. split; [exact Hdesc|].
  unfold getNameHistory in H.
  apply bind_Ok in H as (pages & Hpages & [= <- _]).
  apply mapM_Ok in Hpages.
  destruct (entireList_descending hs nameHash) as [_ Hperm].
  apply Forall_forall. intros e He.
  apply list_elem_of_In, in_concat in He as (entries & Hentries & He).
  apply list_elem_of_In, list_elem_of_lookup in Hentries as [i Hi].
  destruct (Forall2_lookup_r _ _ _ _ _ Hpages Hi) as (rec & Hrec & Hof).
  assert (Hin : rec ∈ nameHistory (hdb_ hs) nameHash).
  { rewrite <- Hperm. unfold slice in Hrec.
    apply lookup_take_Some in Hrec as [Hrec _]. rewrite lookup_drop in Hrec.
    apply list_elem_of_lookup. eexists. exact Hrec. }
  unfold historyOf in Hof.
  destruct (getTransaction hs (a_tx_hash rec)) as [t|] eqn:Ht; [|discriminate].
  pose proof (historyOfOutputs_height _ _ _ _ _ _ Hof) as Hheight.
  pose proof (historyOfOutputs_sound _ _ _ _ _ _ [] Hof eq_refl) as Hsound.
  rewrite Forall_forall in Hheight. rewrite Forall_forall in Hsound.
  apply list_elem_of_In in He.
  destruct (Hsound e He) as (out & H0 & Hout & Hn & Hitem & Htx & Htime & Ha & Hv).
  exists rec, t, out. simpl in Hout.
  repeat split; try assumption. apply Hheight. exact He.
Qed.

Lemma name_history_entries_are_name_outputs_witness :
  2%nat = length (nameHistory (hdb_ Sample.sameBlock) Sample.nameH)
  ∧ StronglySorted (descendingBy h_height) Sample2.historyPage
  ∧ Forall (fun e =>
              ∃ rec t out,
                rec ∈ nameHistory (hdb_ Sample.sameBlock) Sample.nameH
                ∧ getTransaction Sample.sameBlock (a_tx_hash rec) = Some t
                ∧ 0 <= h_index e
                ∧ j_outputs t !! Z.to_nat (h_index e) = Some out
                ∧ isName (covenant out) = true
                ∧ items (covenant out) !! 0%nat = Some Sample.nameH
                ∧ h_txid e = a_tx_hash rec
                ∧ h_height e = a_height rec
                ∧ h_time e = mtime t
                ∧ action e = fst (actionOf out)
                ∧ h_value e = snd (actionOf out))
           Sample2.historyPage.
Proof.
  apply (name_history_entries_are_name_outputs Sample.sameBlock Sample.nameH
           0 25 Sample2.historyPage 2).
  vm_compute. reflexivity.
Defined.

(** X16. Pages of a name's history join: asking for [n + m] entries of the
    sorted records from [offset] on gives what asking for [n] from [offset]
    and then for [m] from [offset + n] gives, the entries of the first page
    followed by those of the second, with the same total; when either of
    the two pages throws, so does the larger one, with the error of the
    first page that fails. *)
Theorem name_history_pages_join
  (hs : Hnscan) (nameHash : Hash) (offset n m : nat) :
  getNameHistory hs nameHash offset (n + m)
  = bind (getNameHistory hs nameHash offset n) (fun first =>
      bind (getNameHistory hs nameHash (offset + n) m) (fun second =>
        Ok (fst first ++ fst second, snd first))).
Proof.
  unfold getNameHistory. rewrite slice_add, mapM_app.
  destruct (mapM (historyOf hs nameHash)
              (slice (entireList hs nameHash) offset n)) as [p1|e];
    simpl; [|reflexivity].
  destruct (mapM (historyOf hs nameHash)
              (slice (entireList hs nameHash) (offset + n) m)) as [p2|e];
    simpl; [|reflexivity].
  rewrite concat_app. reflexivity.
Qed.

(** ** The transactions of an address *)

(** X17. A page of the transactions of an address: the total is the number
    of funding records plus the number of spent records, whatever page was
    asked for; the page has [limit] entries, or as many as are left from
    [offset] on; its entries are the funding transactions, in the order of
    the index, followed by the spending transactions, each as
    [getTransaction] answers for it, [undefined] included. *)
Theorem transactions_by_address_page
  (hs : Hnscan) (addr : Hash) (offset limit : nat)
  (txs_ : list (option TXJSON)) (total : nat) :
  getTransactionsByAddress hs addr offset limit = Ok (txs_, total) →
  ∃ (funding : list Funding) (spents : list Spent),
    _addressFunding (hdb_ hs) addr = Ok funding
    ∧ _addressSpent (hdb_ hs) funding = Ok spents
    ∧ total = (length funding + length spents)%nat
    ∧ length txs_ = (limit `min` (total - offset))%nat
    ∧ txs_ = map (getTransaction hs)
               (slice (map f_tx_hash funding ++ map s_tx_hash spents)
                  offset limit).
Proof.
  unfold getTransactionsByAddress. intros H.
  apply bind_Ok in H as (raw & Hraw & [= <- <-]).
  unfold addressHistory, addressFunding, addressSpent in Hraw.
  destruct (_addressFunding (hdb_ hs) addr) as [funding|e] eqn:Hfund;
    [|discriminate].
  simpl in Hraw.
  destruct (_addressSpent (hdb_ hs) funding) as [spents|e] eqn:Hsp;
    [|discriminate].
  simpl in Hraw. injection Hraw as <-.
  exists funding, spents.
  split; [reflexivity|]. split; [exact Hsp|]. split.
  { rewrite length_app, !length_map. reflexivity. }
  split.
  { unfold slice. rewrite length_map, length_take, length_drop. reflexivity. }
  set (raw := _ ++ map _ spents).
  assert (Hraw : map f_tx_hash funding ++ map s_tx_hash spents
                 = map ht_tx_hash raw).
  { unfold raw. simpl. rewrite map_app, !map_map. reflexivity. }
  rewrite Hraw. unfold slice.
  rewrite skipn_map, firstn_map, map_map. reflexivity.
Qed.

Lemma transactions_by_address_page_witness :
  ∃ (funding : list Funding) (spents : list Spent),
    _addressFunding (hdb_ Sample2.explorer) Sample.addrA = Ok funding
    ∧ _addressSpent (hdb_ Sample2.explorer) funding = Ok spents
    ∧ snd Sample2.pageA = (length funding + length spents)%nat
    ∧ length (fst Sample2.pageA) = (2 `min` (snd Sample2.pageA - 0))%nat
    ∧ fst Sample2.pageA
      = map (getTransaction Sample2.explorer)
          (slice (map f_tx_hash funding ++ map s_tx_hash spents) 0 2).
Proof.
  apply (transactions_by_address_page Sample2.explorer Sample.addrA 0 2).
  vm_compute. reflexivity.
Defined.

(** ** The height and the network of the store *)

Lemma fromU32_fits (num : Z) : 0 <= num < 2 ^ 32 → fromU32 num = Ok num.
Proof.
  intros [H0 H32]. unfold fromU32.
  replace (0 <=? num) with true by (symmetry; apply Z.leb_le; exact H0).
  replace (num <? 2 ^ 32) with true by (symmetry; apply Z.ltb_lt; exact H32).
  reflexivity.
Qed.

(** X18. The recorded height: [setHeight] on a height that fits 32 bits
    returns, and the height is read back as it was set; setting it leaves
    the chain state that [open] loads and the network record alone; and
    saving the chain state, checking the network or observing a chart point
    leaves the recorded height alone. *)
Theorem height_is_read_back (hdb : HnscanDB) (height : Z) :
  0 <= height < 2 ^ 32 →
  ∃ hdb1 : HnscanDB,
    setHeight hdb height = (Ok hdb1, height)
    ∧ getHeight hdb1 = height
    ∧ getState hdb1 = getState hdb
    ∧ db_O (db hdb1) = db_O (db hdb)
    ∧ getHeight (saveState hdb1) = height
    ∧ (∀ hdb2, verifyNetwork hdb1 = Ok hdb2 → getHeight hdb2 = height)
    ∧ (∀ data hdb2, setChartData hdb1 data = Ok hdb2 →
         getHeight hdb2 = height).
Proof.
  intros Hrange. eexists. split.
  { unfold setHeight. rewrite (fromU32_fits _ Hrange). reflexivity. }
  set (hdb1 := set_db hdb (set_H (db hdb) (Some height))).
  assert (Hget : getHeight hdb1 = height) by reflexivity.
  split; [exact Hget|]. split; [reflexivity|].
  split; [reflexivity|]. split; [exact Hget|]. split.
  - intros hdb2. unfold verifyNetwork.
    destruct (db_O (db hdb1)) as [raw|].
    + destruct (negb (toU32 raw =? network_magic hdb1)); [discriminate|].
      intros [= <-]. exact Hget.
    + destruct (fromU32 (network_magic hdb1)) as [data|e]; [|discriminate].
      intros [= <-]. exact Hget.
  - intros data hdb2. unfold setChartData.
    destruct (chartDataCurrentDate hdb1 =? 0).
    + intros [= <-]. exact Hget.
    + destruct (dayOf (time data) >? chartDataCurrentDate hdb1).
      * intros H. apply bind_Ok in H as (avg & _ & [= <-]). exact Hget.
      * intros [= <-]. exact Hget.
Qed.

Lemma height_is_read_back_witness :
  ∃ hdb1 : HnscanDB,
    setHeight Sample.fresh 7 = (Ok hdb1, 7)
    ∧ getHeight hdb1 = 7
    ∧ getState hdb1 = getState Sample.fresh
    ∧ db_O (db hdb1) = db_O (db Sample.fresh)
    ∧ getHeight (saveState hdb1) = 7
    ∧ (∀ hdb2, verifyNetwork hdb1 = Ok hdb2 → getHeight hdb2 = 7)
    ∧ (∀ data hdb2, setChartData hdb1 data = Ok hdb2 → getHeight hdb2 = 7).
Proof.
  apply (height_is_read_back Sample.fresh 7). lia.
Defined.

(** X19. The first check of the network pins it: on a store that has no
    network record, [verifyNetwork] writes the magic number of the index's
    network (a 32-bit number) and returns; checked again, the index passes
    and is left as it is; an index configured for any other network is
    refused on that store. The check leaves the chain state, in memory and
    in the store, alone. *)
Theorem first_check_pins_the_network (hdb : HnscanDB) :
  db_O (db hdb) = None →
  0 <= network_magic hdb < 2 ^ 32 →
  ∃ hdb1,
    verifyNetwork hdb = Ok hdb1
    ∧ db_O (db hdb1) = Some (network_magic hdb)
    ∧ verifyNetwork hdb1 = Ok hdb1
    ∧ state hdb1 = state hdb
    ∧ getState hdb1 = getState hdb
    ∧ ∀ (other : Z) (chain : gmap Hash TX),
        other ≠ network_magic hdb →
        verifyNetwork (newHnscanDB other chain (db hdb1))
        = Throw "Error: Network mismatch for HnscanDB.".
Proof.
  intros HO Hrange. eexists. split.
  { unfold verifyNetwork. rewrite HO, (fromU32_fits _ Hrange). reflexivity. }
  split; [reflexivity|]. split.
  { unfold verifyNetwork, toU32. simpl. rewrite Z.eqb_refl. reflexivity. }
  split; [reflexivity|]. split; [reflexivity|].
  intros other chain Hne.
  apply (verifyNetwork_mismatch _ (network_magic hdb)).
  - reflexivity.
  - simpl. intros Heq. apply Hne. symmetry. exact Heq.
Qed.

Lemma first_check_pins_the_network_witness :
  ∃ hdb1,
    verifyNetwork Sample2.atHeight7 = Ok hdb1
    ∧ db_O (db hdb1) = Some (network_magic Sample2.atHeight7)
    ∧ verifyNetwork hdb1 = Ok hdb1
    ∧ state hdb1 = state Sample2.atHeight7
    ∧ getState hdb1 = getState Sample2.atHeight7
    ∧ ∀ (other : Z) (chain : gmap Hash TX),
        other ≠ network_magic Sample2.atHeight7 →
        verifyNetwork (newHnscanDB other chain (db hdb1))
        = Throw "Error: Network mismatch for HnscanDB.".
Proof.
  apply (first_check_pins_the_network Sample2.atHeight7).
  - reflexivity.
  - vm_compute. split; [discriminate | reflexivity].
Defined.

(** ** The latest transactions *)

Section GetTransactionsCorrect.
Context {J : Type}.
Variable txToJSON : TX → Z → result J.
Variable setFee : J → TXJSON → J.
Variable hs : Hnscan.
Variable limit : Z.

Abbreviation jsonOf :=
  (fun p : TX * Z => latestJSON txToJSON setFee hs (fst p) (snd p)).

Lemma within_true (k : Z) (n : nat) :
  0 < k <= Z.of_nat n → (0 <? k) && (k <=? Z.of_nat n) = true.
Proof.
  intros [H1 H2]. apply andb_true_intro.
  split; [apply Z.ltb_lt | apply Z.leb_le]; assumption.
Qed.

Lemma within_false (k : Z) (n : nat) :
  ¬ 0 < k <= Z.of_nat n → (0 <? k) && (k <=? Z.of_nat n) = false.
Proof.
  intros H. apply andb_false_iff.
  destruct (Z.lt_ge_cases 0 k) as [H0|H0].
  - right. apply Z.leb_gt. lia.
  - left. apply Z.ltb_ge. exact H0.
Qed.

(** The loop over one block, by how many entries are still wanted. *)
Lemma blockLoop_spec (height : Z) (block_txs : list TX) (acc : list J) :
  blockLoop txToJSON setFee hs limit height block_txs acc
  = let k := limit - Z.of_nat (length acc) in
    let these := map (fun tx => (tx, height)) block_txs in
    if (0 <? k) && (k <=? Z.of_nat (length these))
    then bind (mapM jsonOf (take (Z.to_nat k) these))
           (fun l => Ok (Returned (acc ++ l)))
    else bind (mapM jsonOf these) (fun l => Ok (Running (acc ++ l))).
Proof.
  revert acc. induction block_txs as [|tx rest IH]; intros acc.
  - cbn [blockLoop map mapM bind]. rewrite within_false by (simpl; lia).
    rewrite app_nil_r. reflexivity.
  - cbn [blockLoop map]. cbv zeta.
    set (k := limit - Z.of_nat (length acc)).
    set (these := map (fun tx0 => (tx0, height)) rest).
    destruct (decide (0 < k <= Z.of_nat (length ((tx, height) :: these))))
      as [Hk|Hk].
    + rewrite (within_true _ _ Hk).
      assert (Hto : Z.to_nat k = S (Z.to_nat (k - 1))) by lia.
      rewrite Hto. cbn [take mapM fst snd].
      destruct (latestJSON txToJSON setFee hs tx height) as [json|e];
        cbn [bind]; [|reflexivity].
      rewrite length_app. cbn [length].
      destruct (Z.of_nat (length acc + 1) =? limit) eqn:Heq.
      * apply Z.eqb_eq in Heq. assert (Hk1 : k = 1) by (unfold k; lia).
        rewrite Hk1. cbn [Z.sub Z.to_nat take mapM bind]. simpl.
        reflexivity.
      * apply Z.eqb_neq in Heq. rewrite IH. cbv zeta.
        rewrite length_app. cbn [length]. fold these.
        replace (limit - Z.of_nat (length acc + 1)) with (k - 1)
          by (unfold k; lia).
        rewrite within_true by (cbn [length] in Hk; unfold k in *; lia).
        destruct (mapM jsonOf (take (Z.to_nat (k - 1)) these)) as [l|e];
          cbn [bind]; [|reflexivity].
        rewrite <- app_assoc. reflexivity.
    + rewrite (within_false _ _ Hk). cbn [mapM fst snd].
      destruct (latestJSON txToJSON setFee hs tx height) as [json|e];
        cbn [bind]; [|reflexivity].
      rewrite length_app. cbn [length].
      destruct (Z.of_nat (length acc + 1) =? limit) eqn:Heq.
      * apply Z.eqb_eq in Heq. exfalso. apply Hk. cbn [length].
        unfold k. lia.
      * apply Z.eqb_neq in Heq. rewrite IH. cbv zeta.
        rewrite length_app. cbn [length]. fold these.
        replace (limit - Z.of_nat (length acc + 1)) with (k - 1)
          by (unfold k; lia).
        rewrite within_false by (cbn [length] in Hk; unfold k in *; lia).
        destruct (mapM jsonOf these) as [l|e]; cbn [bind]; [|reflexivity].
        rewrite <- app_assoc. reflexivity.
Qed.

Lemma chainLoop_spec (blocks : list (Z * Block)) (acc : list J) :
  chainLoop txToJSON setFee hs limit blocks acc
  = let k := limit - Z.of_nat (length acc) in
    let all := transactionsOf blocks in
    if (0 <? k) && (k <=? Z.of_nat (length all))
    then bind (mapM jsonOf (take (Z.to_nat k) all))
           (fun l => Ok (Some (acc ++ l)))
    else bind (mapM jsonOf all) (fun _ => Ok None).
Proof.
  revert acc. induction blocks as [|[i block] below IH]; intros acc.
  - cbn [chainLoop transactionsOf map concat mapM bind].
    rewrite within_false by (simpl; lia). reflexivity.
  - cbn [chainLoop]. rewrite blockLoop_spec. cbv zeta.
    unfold transactionsOf. cbn [map concat fst snd].
    fold (transactionsOf below).
    set (k := limit - Z.of_nat (length acc)).
    set (these := map (fun tx => (tx, i)) (txs block)).
    set (all := transactionsOf below).
    destruct (decide (0 < k <= Z.of_nat (length these))) as [Hk|Hk].
    + rewrite (within_true _ _ Hk).
      rewrite within_true by (rewrite length_app; lia).
      rewrite take_app_le by lia.
      destruct (mapM jsonOf (take (Z.to_nat k) these)) as [l|e];
        reflexivity.
    + rewrite (within_false _ _ Hk). rewrite length_app.
      destruct (mapM jsonOf these) as [l|e] eqn:Hl; cbn [bind].
      * rewrite IH. cbv zeta. fold all. rewrite length_app.
        pose proof (proj1 (mapM_Ok _ _ _) Hl) as Hlen.
        apply Forall2_length in Hlen.
        replace (limit - Z.of_nat (length acc + length l))
          with (k - Z.of_nat (length these)) by (unfold k; lia).
        destruct (decide (0 < k <= Z.of_nat (length these + length all)))
          as [Hk2|Hk2].
        -- rewrite (within_true _ _ Hk2). rewrite within_true by lia.
           rewrite take_app_ge by lia. rewrite mapM_app.
           replace (Z.to_nat k - length these)%nat
             with (Z.to_nat (k - Z.of_nat (length these))) by lia.
           rewrite Hl. cbn [bind].
           destruct (mapM jsonOf
                       (take (Z.to_nat (k - Z.of_nat (length these))) all))
             as [l2|e]; cbn [bind]; [|reflexivity].
           rewrite <- app_assoc. reflexivity.
        -- rewrite (within_false _ _ Hk2). rewrite within_false by lia.
           rewrite mapM_app, Hl. cbn [bind].
           destruct (mapM jsonOf all); reflexivity.
      * destruct (decide (0 < k <= Z.of_nat (length these + length all)))
          as [Hk2|Hk2].
        -- rewrite (within_true _ _ Hk2).
           rewrite take_app_ge by lia. rewrite mapM_app, Hl. reflexivity.
        -- rewrite (within_false _ _ Hk2). rewrite mapM_app, Hl. reflexivity.
Qed.

End GetTransactionsCorrect.

(** X20. [getTransactions(limit)] answers with the [limit] latest
    transactions, the tip's first and each block's in the order of the
    block, when [limit] is at least 1 and the chain holds that many; when
    the chain holds fewer, or [limit] is 0 or negative, the call walks the
    whole chain and resolves to [undefined], not to the shorter list. It
    throws where [txToJSON] or the node's record fails on one of the
    transactions it reaches, and on no other. *)
Theorem getTransactions_needs_limit_many
  {J : Type} (txToJSON : TX → Z → result J) (setFee : J → TXJSON → J)
  (hs : Hnscan) (chain : list Block) (limit : Z) :
  getTransactions txToJSON setFee hs chain limit
  = let all := transactionsOf (fromTip chain) in
    let jsonOf := fun p : TX * Z =>
                    latestJSON txToJSON setFee hs (fst p) (snd p) in
    if (0 <? limit) && (limit <=? Z.of_nat (length all))
    then bind (mapM jsonOf (take (Z.to_nat limit) all))
           (fun l => Ok (Some l))
    else bind (mapM jsonOf all) (fun _ => Ok None).
Proof.
  unfold getTransactions. rewrite chainLoop_spec. cbv zeta.
  cbn [length]. rewrite Z.sub_0_r. reflexivity.
Qed.

(** ** The chain client *)

Lemma count_app {A : Type} (p : A → bool) (l1 l2 : list A) :
  count p (l1 ++ l2) = (count p l1 + count p l2)%nat.
Proof. unfold count. rewrite filter_app, length_app. reflexivity. Qed.

Lemma count_one {A : Type} (p : A → bool) (e : A) :
  count p [e] = if p e then 1%nat else 0%nat.
Proof.
  unfold count. destruct (p e) eqn:He.
  - rewrite filter_cons_True by exact He. reflexivity.
  - rewrite filter_cons_False by (rewrite He; discriminate). reflexivity.
Qed.

Lemma step_clientInv (c : ChainClient) (call : Call) :
  clientInv c → clientInv (step c call).
Proof.
  unfold clientInv. intros [Hcount Hq].
  rewrite !count_app in Hcount.
  destruct call as [| |ev|]; unfold step.
  - unfold ChainClient_.open. destruct (opened c) eqn:Ho.
    + rewrite Ho, !count_app. split; assumption.
    + cbn [opened emitted immediates]. rewrite !count_app, !count_one.
      rewrite omap_app, Hq. split; [|reflexivity].
      cbn [isConnect isDisconnect]. lia.
  - unfold ChainClient_.close. destruct (opened c) eqn:Ho.
    + cbn [negb opened emitted immediates]. rewrite !count_app, !count_one.
      rewrite omap_app, Hq. split; [|reflexivity].
      cbn [isConnect isDisconnect]. lia.
    + cbn [negb]. rewrite Ho, !count_app. split; assumption.
  - unfold ChainClient_.heard. destruct (opened c) eqn:Ho; cbn [negb].
    + destruct ev; unfold ChainClient_.emit;
        cbn [opened emitted immediates]; rewrite !count_app, !count_one;
        (split; [|exact Hq]); cbn [isConnect isDisconnect];
        rewrite ?Ho in *; lia.
    + rewrite Ho, !count_app. split; assumption.
  - unfold ChainClient_.runImmediates. cbn [opened emitted immediates].
    rewrite app_nil_r, !count_app. split; [|reflexivity]. lia.
Qed.

Lemma run_clientInv (calls : list Call) (c : ChainClient) :
  clientInv c → clientInv (run c calls).
Proof.
  unfold run. revert c. induction calls as [|call calls IH]; intros c Hc.
  - exact Hc.
  - simpl. apply IH, step_clientInv, Hc.
Qed.

Lemma run_forwarded (calls : list Call) (c : ChainClient) :
  omap forwardedOf (immediates c) = [] →
  ∃ l, omap forwardedOf (emitted (run c calls))
       = omap forwardedOf (emitted c) ++ l
       ∧ sublist l (omap heardIn calls).
Proof.
  unfold run. revert c. induction calls as [|call calls IH]; intros c Hq.
  - exists []. simpl. rewrite app_nil_r. split; [reflexivity | constructor].
  - cbn [fold_left].
    assert (Hq' : omap forwardedOf (immediates (step c call)) = []).
    { destruct call as [| |ev|]; unfold step.
      - unfold ChainClient_.open. destruct (opened c); [exact Hq|].
        cbn [immediates]. rewrite omap_app, Hq. reflexivity.
      - unfold ChainClient_.close. destruct (opened c); cbn [negb];
          [|exact Hq].
        cbn [immediates]. rewrite omap_app, Hq. reflexivity.
      - unfold ChainClient_.heard. destruct (opened c); cbn [negb];
          [|exact Hq].
        destruct ev; exact Hq.
      - reflexivity. }
    destruct (IH (step c call) Hq') as (l & Hl & Hsub). rewrite Hl.
    destruct call as [| |ev|]; unfold step; cbn [omap heardIn].
    + exists l. split; [|exact Hsub].
      unfold ChainClient_.open. destruct (opened c); reflexivity.
    + exists l. split; [|exact Hsub].
      unfold ChainClient_.close. destruct (opened c); reflexivity.
    + unfold ChainClient_.heard. destruct (opened c); cbn [negb].
      * exists (ev :: l). split.
        -- destruct ev; unfold ChainClient_.emit; cbn [emitted];
             rewrite omap_app, <- app_assoc; reflexivity.
        -- csimpl. constructor. exact Hsub.
      * exists l. split; [reflexivity|]. csimpl. constructor. exact Hsub.
    + exists l. split; [|exact Hsub].
      unfold ChainClient_.runImmediates. cbn [emitted].
      rewrite omap_app, Hq, app_nil_r. reflexivity.
Qed.

Lemma run_never_opened (calls : list Call) :
  forallb (fun call => negb (isOpenCall call)) calls = true →
  run ChainClient_.new calls = ChainClient_.new.
Proof.
  unfold run. induction calls as [|call calls IH]; [reflexivity|].
  cbn [forallb fold_left]. intros H. apply andb_prop in H as [Hcall Hrest].
  destruct call as [| |ev|]; [discriminate | | |]; apply IH, Hrest.
Qed.

(** X21. Whatever is done to a chain client, in whatever order: it has
    announced as many connections as disconnections, and one more while it
    is open, the announcements still queued counted in; the events it has
    passed on are events the chain emitted, in the order of the chain, none
    of them twice; and as long as [open] has not been called it has emitted
    and queued nothing. *)
Theorem client_forwards_what_it_hears (calls : list Call) :
  let c := run ChainClient_.new calls in
  count isConnect (emitted c ++ immediates c)
  = (count isDisconnect (emitted c ++ immediates c)
     + (if opened c then 1 else 0))%nat
  ∧ sublist (omap forwardedOf (emitted c)) (omap heardIn calls)
  ∧ (forallb (fun call => negb (isOpenCall call)) calls = true →
     c = ChainClient_.new).
Proof.
  cbv zeta. split; [|split].
  - apply (run_clientInv calls ChainClient_.new). split; reflexivity.
  - destruct (run_forwarded calls ChainClient_.new eq_refl) as (l & Hl & Hsub).
    rewrite Hl. exact Hsub.
  - apply run_never_opened.
Qed.

Lemma step_open (c : ChainClient) :
  step c CallOpen
  = if opened c then c
    else {| opened := true; emitted := emitted c;
            immediates := immediates c ++ [client_connect] |}.
Proof. unfold step, ChainClient_.open. destruct (opened c); reflexivity. Qed.

Lemma step_close (c : ChainClient) :
  step c CallClose
  = if opened c
    then {| opened := false; emitted := emitted c;
            immediates := immediates c ++ [client_disconnect] |}
    else c.
Proof. unfold step, ChainClient_.close. destruct (opened c); reflexivity. Qed.

(** X22. A chain client is opened once and closed once: [open] on an open
    client and [close] on a closed one throw and change nothing, so calling
    either twice is the same as calling it once; opening a closed client
    and closing it again lets the events of the chain in between through
    and queues a connect and then a disconnect announcement. *)
Theorem client_open_close (c : ChainClient) (heard_ : list ChainEvent) :
  run c [CallOpen; CallOpen] = run c [CallOpen]
  ∧ run c [CallClose; CallClose] = run c [CallClose]
  ∧ (opened c = true → ChainClient_.open c
       = Throw "AssertionError: ChainClient is already open.")
  ∧ (opened c = false → ChainClient_.close c
       = Throw "AssertionError: ChainClient is not open.")
  ∧ (opened c = false →
     let c' := run c (CallOpen :: map Heard heard_ ++ [CallClose]) in
     opened c' = false
     ∧ omap forwardedOf (emitted c')
       = omap forwardedOf (emitted c) ++ heard_
     ∧ immediates c' = immediates c ++ [client_connect; client_disconnect]).
Proof.
  split; [|split; [|split; [|split]]].
  - unfold run. cbn [fold_left]. rewrite (step_open c).
    destruct (opened c) eqn:Ho; rewrite step_open.
    + rewrite Ho. reflexivity.
    + reflexivity.
  - unfold run. cbn [fold_left]. rewrite (step_close c).
    destruct (opened c) eqn:Ho; rewrite step_close.
    + reflexivity.
    + rewrite Ho. reflexivity.
  - intros Ho. unfold ChainClient_.open. rewrite Ho. reflexivity.
  - intros Ho. unfold ChainClient_.close. rewrite Ho. reflexivity.
  - intros Ho. cbv zeta. unfold run. cbn [fold_left].
    rewrite step_open, Ho.
    set (c1 := {| opened := true; emitted := emitted c;
                  immediates := immediates c ++ [client_connect] |}).
    assert (Hrun : ∀ evs c2, opened c2 = true →
              let c3 := fold_left step (map Heard evs) c2 in
              opened c3 = true
              ∧ omap forwardedOf (emitted c3)
                = omap forwardedOf (emitted c2) ++ evs
              ∧ immediates c3 = immediates c2).
    { induction evs as [|ev evs IH]; intros c2 H2; cbv zeta.
      - simpl. rewrite app_nil_r. repeat split. exact H2.
      - cbn [map fold_left].
        assert (H3 : opened (step c2 (Heard ev)) = true
                     ∧ omap forwardedOf (emitted (step c2 (Heard ev)))
                       = omap forwardedOf (emitted c2) ++ [ev]
                     ∧ immediates (step c2 (Heard ev)) = immediates c2).
        { unfold step, ChainClient_.heard. rewrite H2. cbn [negb].
          destruct ev; unfold ChainClient_.emit; cbn [opened emitted immediates];
            rewrite omap_app; repeat split; assumption. }
        destruct H3 as (Ho3 & He3 & Hi3).
        destruct (IH _ Ho3) as (Ho4 & He4 & Hi4).
        split; [exact Ho4|]. split.
        + rewrite He4, He3, <- app_assoc. reflexivity.
        + rewrite Hi4, Hi3. reflexivity. }
    rewrite fold_left_app. cbn [fold_left].
    destruct (Hrun heard_ c1 eq_refl) as (Ho3 & He3 & Hi3).
    rewrite step_close, Ho3. cbn [opened emitted immediates].
    split; [reflexivity|]. split; [exact He3|].
    rewrite Hi3. unfold c1. cbn [immediates]. rewrite <- app_assoc.
    reflexivity.
Qed.

(** ** [hex32] *)

Lemma digitValue_hexDigit (d : Z) :
  0 <= d < 16 → digitValue (hexDigit d) = Some d.
Proof.
  intros Hd.
  assert (Hcases : d = 0 ∨ d = 1 ∨ d = 2 ∨ d = 3 ∨ d = 4 ∨ d = 5 ∨ d = 6
                   ∨ d = 7 ∨ d = 8 ∨ d = 9 ∨ d = 10 ∨ d = 11 ∨ d = 12
                   ∨ d = 13 ∨ d = 14 ∨ d = 15) by lia.
  repeat (destruct Hcases as [->|Hcases]; [reflexivity|]).
  subst d. reflexivity.
Qed.

Lemma hexValue_app (acc : Z) (s1 s2 : list ascii) :
  hexValue acc (s1 ++ s2)
  = match hexValue acc s1 with
    | Some v => hexValue v s2
    | None => None
    end.
Proof.
  revert acc. induction s1 as [|c s1 IH]; intros acc; simpl; [reflexivity|].
  destruct (digitValue c); [apply IH | reflexivity].
Qed.

(** The digits [toString16_from] puts in front of those it was given: they
    spell the number, and they are as many as the number needs. *)
Lemma toString16_from_spec (fuel : nat) (n : Z) (digits : list ascii) :
  0 <= n < 16 ^ Z.of_nat (S fuel) →
  ∃ ds, toString16_from (S fuel) n digits = ds ++ digits
        ∧ (∀ acc, hexValue acc ds
                  = Some (acc * 16 ^ Z.of_nat (length ds) + n))
        ∧ n < 16 ^ Z.of_nat (length ds)
        ∧ (1 <= length ds)%nat
        ∧ (n = 0 ∨ 16 ^ (Z.of_nat (length ds) - 1) <= n).
Proof.
  revert n digits. induction fuel as [|fuel IH]; intros n digits Hn.
  - cbn [toString16_from]. change (16 ^ Z.of_nat 1) with 16 in Hn.
    rewrite Z.div_small by lia. cbn [Z.eqb].
    exists [hexDigit (n mod 16)]. rewrite Z.mod_small by lia.
    split; [reflexivity|]. split.
    { intros acc. cbn [hexValue]. rewrite digitValue_hexDigit by lia.
      cbn [length]. change (16 ^ Z.of_nat 1) with 16. reflexivity. }
    cbn [length]. change (16 ^ Z.of_nat 1) with 16.
    change (16 ^ (Z.of_nat 1 - 1)) with 1.
    split; [lia|]. split; [lia|]. lia.
  - cbn [toString16_from].
    assert (Hmod : 0 <= n mod 16 < 16) by (apply Z.mod_pos_bound; lia).
    assert (Hdiv : 0 <= n / 16) by (apply Z.div_pos; lia).
    pose proof (Z.div_mod n 16 ltac:(lia)) as Hdm.
    destruct (n / 16 =? 0) eqn:Hq.
    + apply Z.eqb_eq in Hq.
      exists [hexDigit (n mod 16)].
      split; [reflexivity|]. split.
      { intros acc. cbn [hexValue]. rewrite digitValue_hexDigit by lia.
        cbn [length]. change (16 ^ Z.of_nat 1) with 16. f_equal. lia. }
      cbn [length]. change (16 ^ Z.of_nat 1) with 16.
      change (16 ^ (Z.of_nat 1 - 1)) with 1.
      split; [lia|]. split; [lia|]. lia.
    + apply Z.eqb_neq in Hq.
      assert (Hlt : n / 16 < 16 ^ Z.of_nat (S fuel)).
      { apply Z.div_lt_upper_bound; [lia|].
        replace (16 * 16 ^ Z.of_nat (S fuel)) with (16 ^ Z.of_nat (S (S fuel)));
          [lia|].
        rewrite (Nat2Z.inj_succ (S fuel)), Z.pow_succ_r by lia. reflexivity. }
      destruct (IH (n / 16) (hexDigit (n mod 16) :: digits) (conj Hdiv Hlt))
        as (ds & Heq & Hval & Hup & Hlen & Hlow).
      exists (ds ++ [hexDigit (n mod 16)]).
      rewrite <- app_assoc. split; [exact Heq|].
      rewrite length_app. cbn [length].
      replace (Z.of_nat (length ds + 1)) with (Z.succ (Z.of_nat (length ds)))
        by lia.
      rewrite Z.pow_succ_r by lia.
      replace (Z.succ (Z.of_nat (length ds)) - 1) with (Z.of_nat (length ds))
        by lia.
      split.
      { intros acc. rewrite hexValue_app, Hval. cbn [hexValue].
        rewrite digitValue_hexDigit by lia. f_equal. lia. }
      split; [lia|]. split; [lia|]. right.
      destruct Hlow as [H0|Hlow]; [lia|].
      replace (Z.of_nat (length ds)) with (Z.succ (Z.of_nat (length ds) - 1))
        by lia.
      rewrite Z.pow_succ_r by lia. lia.
Qed.

Lemma toString16_spec (n : Z) :
  0 <= n →
  (∀ acc, hexValue acc (toString16 n)
          = Some (acc * 16 ^ Z.of_nat (length (toString16 n)) + n))
  ∧ n < 16 ^ Z.of_nat (length (toString16 n))
  ∧ (1 <= length (toString16 n))%nat
  ∧ (n = 0 ∨ 16 ^ (Z.of_nat (length (toString16 n)) - 1) <= n).
Proof.
  intros Hn. unfold toString16.
  destruct (toString16_from_spec (Z.to_nat (Z.log2 n)) n [])
    as (ds & Heq & H).
  { split; [exact Hn|].
    destruct (Z.eq_dec n 0) as [->|Hne].
    - apply Z.pow_pos_nonneg; lia.
    - pose proof (Z.log2_spec n ltac:(lia)) as [_ Hlog].
      pose proof (Z.log2_nonneg n) as Hl0.
      eapply Z.lt_le_trans; [exact Hlog|].
      rewrite Nat2Z.inj_succ, Z2Nat.id by exact Hl0.
      apply (Z.le_trans _ (2 ^ (4 * Z.succ (Z.log2 n)))).
      + apply Z.pow_le_mono_r; lia.
      + rewrite Z.pow_mul_r by lia. reflexivity. }
  rewrite Heq, app_nil_r. exact H.
Qed.

Lemma padLoop_spec (fuel : nat) (num : list ascii) :
  (8 <= length num + fuel)%nat → (length num <= 8)%nat →
  length (padLoop fuel num) = 8%nat
  ∧ ∀ acc, hexValue acc (padLoop fuel num)
           = hexValue (acc * 16 ^ (8 - Z.of_nat (length num))) num.
Proof.
  revert num. induction fuel as [|fuel IH]; intros num Hf Hl.
  - cbn [padLoop]. assert (Hlen : length num = 8%nat) by lia.
    split; [exact Hlen|]. intros acc. rewrite Hlen.
    change (16 ^ (8 - Z.of_nat 8)) with 1. rewrite Z.mul_1_r. reflexivity.
  - cbn [padLoop]. destruct (length num <? 8)%nat eqn:Hlt.
    + apply Nat.ltb_lt in Hlt.
      destruct (IH ("0"%char :: num)) as [Hlen Hval];
        [cbn [length]; lia | cbn [length]; lia |].
      split; [exact Hlen|]. intros acc. rewrite Hval.
      cbn [hexValue length].
      change (digitValue "0") with (Some 0). cbv iota. f_equal.
      replace (8 - Z.of_nat (length num))
        with (Z.succ (8 - Z.of_nat (S (length num)))) by lia.
      rewrite Z.pow_succ_r by lia. lia.
    + apply Nat.ltb_ge in Hlt. assert (Hlen : length num = 8%nat) by lia.
      split; [exact Hlen|]. intros acc. rewrite Hlen.
      change (16 ^ (8 - Z.of_nat 8)) with 1. rewrite Z.mul_1_r. reflexivity.
Qed.

(** X23. [hex32] spells a 32-bit number with exactly 8 lower-case
    hexadecimal digits that read back as the number, and it is defined on
    the 32-bit numbers only: a negative number and a number of 2^32 or more
    fail its assertions. *)
Theorem hex32_round_trip (num : Z) :
  (0 <= num < 2 ^ 32 →
     ∃ s, hex32 num = Ok s ∧ length s = 8%nat ∧ hexValue 0 s = Some num)
  ∧ (num < 0 ∨ 2 ^ 32 <= num → hex32 num = Throw "AssertionError").
Proof.
  split.
  - intros [H0 H32]. unfold hex32.
    destruct (toString16_spec num H0) as (Hval & Hup & Hlen & Hlow).
    replace (0 <=? num) with true by (symmetry; apply Z.leb_le; exact H0).
    cbn [negb].
    assert (Hle : (length (toString16 num) <= 8)%nat).
    { destruct Hlow as [->|Hlow]; [vm_compute; lia|].
      destruct (le_lt_dec (length (toString16 num)) 8) as [Hok|Hbad];
        [exact Hok|].
      exfalso.
      assert (16 ^ 8 <= 16 ^ (Z.of_nat (length (toString16 num)) - 1))
        by (apply Z.pow_le_mono_r; lia).
      change (16 ^ 8) with (2 ^ 32) in *. lia. }
    replace (length (toString16 num) <=? 8)%nat with true
      by (symmetry; apply Nat.leb_le; exact Hle).
    cbn [negb].
    destruct (padLoop_spec 8 (toString16 num)) as [Hl8 Hv]; [lia | exact Hle |].
    eexists. split; [reflexivity|]. split; [exact Hl8|].
    rewrite Hv, Hval. f_equal; lia.
  - intros [Hneg|Hbig]; unfold hex32.
    + replace (0 <=? num) with false by (symmetry; apply Z.leb_gt; exact Hneg).
      reflexivity.
    + assert (H0 : 0 <= num) by lia.
      destruct (toString16_spec num H0) as (_ & Hup & _ & _).
      replace (0 <=? num) with true by (symmetry; apply Z.leb_le; exact H0).
      cbn [negb].
      assert (Hgt : (8 < length (toString16 num))%nat).
      { destruct (le_lt_dec (length (toString16 num)) 8) as [Hle|Hok];
          [|exact Hok].
        exfalso.
        assert (16 ^ Z.of_nat (length (toString16 num)) <= 16 ^ 8)
          by (apply Z.pow_le_mono_r; lia).
        change (16 ^ 8) with (2 ^ 32) in *. lia. }
      replace (length (toString16 num) <=? 8)%nat with false
        by (symmetry; apply Nat.leb_gt; exact Hgt).
      reflexivity.
Qed.

(** ** A chain state that cannot be loaded *)

Lemma decodeState_is_Ok (r : RawState) :
  is_Ok (decodeState r)
  = is_Ok (readU64 (rtx r)) && is_Ok (readU64 (rcoin r))
    && is_Ok (readU64 (rvalue r)) && is_Ok (readU64 (rburned r)).
Proof.
  unfold decodeState.
  destruct (readU64 (rtx r)); [|reflexivity].
  destruct (readU64 (rcoin r)); [|reflexivity].
  destruct (readU64 (rvalue r)); [|reflexivity].
  destruct (readU64 (rburned r)); reflexivity.
Qed.

(** X24. A negative total cannot be loaded again. [saveEntry] takes the
    value of every spent coin off the state, also of a coin it never
    counted, so a total can become negative; [saveState] writes such a
    total as the 64 bits of its two's complement, [readU64] refuses them,
    and [open] on the store throws. *)
Theorem negative_total_cannot_be_loaded
  (hdb hdb1 : HnscanDB) (block : Block) (view : CoinView)
  (magic : Z) (chain : gmap Hash TX) :
  saveEntry hdb block view = Ok hdb1 →
  - 2 ^ 53 <= tx (state hdb1) < 0 ∨ - 2 ^ 53 <= coin (state hdb1) < 0
  ∨ - 2 ^ 53 <= value (state hdb1) < 0 ∨ - 2 ^ 53 <= burned (state hdb1) < 0 →
  is_Ok (decodeState (encodeState (state hdb1))) = false
  ∧ is_Ok (open (newHnscanDB magic chain (db (saveState hdb1)))) = false.
Proof.
  intros _ Hneg.
  assert (Hdec : is_Ok (decodeState (encodeState (state hdb1))) = false).
  { rewrite decodeState_is_Ok. cbn [encodeState rtx rcoin rvalue rburned].
    destruct Hneg as [H|[H|[H|H]]];
      rewrite (readU64_writeU64_negative _ H);
      rewrite ?andb_false_r; reflexivity. }
  split; [exact Hdec|].
  rewrite open_result.
  destruct (db_verify (db (newHnscanDB magic chain (db (saveState hdb1))))
              "hnscan" 0) as [store'|e] eqn:Hver; [|reflexivity].
  cbn [bind]. rewrite (db_verify_slot _ _ _ _ Hver).
  cbn [newHnscanDB db saveState set_db set_s db_s from_option].
  destruct (decodeState (encodeState (state hdb1))); [discriminate|].
  reflexivity.
Qed.

Lemma negative_total_cannot_be_loaded_witness :
  value (state Sample2.overdrawn) = -3000
  ∧ is_Ok (decodeState (encodeState (state Sample2.overdrawn))) = false
  ∧ is_Ok (open (newHnscanDB Sample.magic ∅
                   (db (saveState Sample2.overdrawn)))) = false.
Proof.
  split; [vm_compute; reflexivity|].
  apply (negative_total_cannot_be_loaded Sample.fresh Sample2.overdrawn
           Sample2.overdraw Sample2.overdrawView Sample.magic ∅).
  - vm_compute. reflexivity.
  - right. right. left. vm_compute. split; congruence.
Defined.
